(** * Inspection system: the cycle orchestrator and its collaborators

    A shallow embedding of the Python sources
      - src/processing/postprocessor.py    (module [Postprocessor])
      - src/aggregation/aggregator.py      (module [ResultAggregator])
      - src/aggregation/reporter.py        (module [InspectionReporter])
      - src/utils/metrics.py               (modules [MetricsCollector], [MetricsLock])
      - src/core/camera.py                 (module [Camera])
      - src/processing/preprocessor.py     (module [Preprocessor])
      - src/processing/inference_engine.py (module [InferenceEngine])
      - src/core/controller.py             (module [InspectionController])
      - main.py                            (module [InspectionSystem])
      - src/utils/logger.py                (module [Logger])

    Conventions of the embedding.
    - A Python [float] is a rational number ([Q]); every literal of the
      sources is a decimal and is written here as the same decimal.
      Comparisons, [min] and [max] are the exact ones, [round(x, n)] is
      rounding to [n] decimals ([py_round]).  Equality of scores is [==]
      on [Q].  The rounding error of binary floating point is outside the
      model.  Where it could show in a result, the statements are kept
      to what does not depend on it: where a decimal lies exactly halfway
      between two neighbours, the float nearest to it lies on one side
      or the other and [round] follows the float, so the statements leave
      the neighbour open there; and nothing is stated of the size of a
      mean.
    - A Python [dict] used as a mapping from camera ids is a [gmap string _];
      a dict used as a record is a Rocq [Record], a key that the code reads
      with [.get(key, default)] being an [option] field.
    - A call that may raise returns a [Result]: [Ok v] or [Raise e].
    - Random draws, clock readings and the order in which futures complete
      are inputs: [Draw], [Env].
    - Calls to the logger have no effect on any value and are left out;
      the set-up of the loggers is modelled on its own in [Logger], with
      the handlers as objects in a heap, since loggers may share them. *)

From Stdlib Require Import QArith Qround Qminmax ZArith Lia Lqa.
From stdpp Require Import gmap strings list fin_maps.

Open Scope Q_scope.

(** ** Exceptions and results *)

Inductive Exn : Type :=
  | KeyError (key : string)
  | ValueError (msg : string)
  | RuntimeError (msg : string)
  | Exception (msg : string).

Inductive Result (A : Type) : Type :=
  | Ok (a : A)
  | Raise (e : Exn).
Arguments Ok {A} a.
Arguments Raise {A} e.

#[global] Instance Result_ret : MRet Result := fun _ a => Ok a.
#[global] Instance Result_bind : MBind Result := fun _ _ f m =>
  match m with
  | Ok a => f a
  | Raise e => Raise e
  end.

Definition is_Ok {A} (r : Result A) : Prop := exists a, r = Ok a.

(** [d[key]] on a dict whose key may be missing. *)
Definition getitem {A} (key : string) (field : option A) : Result A :=
  match field with
  | Some a => Ok a
  | None => Raise (KeyError key)
  end.

(** ** Python numerics on [Q] *)

Definition Qltb (x y : Q) : bool := negb (Qle_bool y x).

(** [min(xs)] for a non-empty list: the first smallest element. *)
Definition py_min2 (a b : Q) : Q := if Qltb b a then b else a.
Definition py_min (x : Q) (xs : list Q) : Q := foldl py_min2 x xs.

(** [max(a, b)]: [b] only when it is strictly larger. *)
Definition py_max2 (a b : Q) : Q := if Qltb a b then b else a.

(** [sum(xs)] starts from 0 and adds from the left. *)
Definition py_sum (xs : list Q) : Q := foldl Qplus 0 xs.

(** The integer nearest to [x], ties to the even neighbour. *)
Definition round_half_even (x : Q) : Z :=
  let f := Qfloor x in
  match Qcompare (x - inject_Z f) (1 # 2) with
  | Lt => f
  | Gt => (f + 1)%Z
  | Eq => if Z.even f then f else (f + 1)%Z
  end.

(** [round(x, ndigits)] for [ndigits >= 0]: the nearest number of
    [ndigits] decimals.  The tie (to the even neighbour) is the one of the
    value read as a decimal. *)
Definition py_round (x : Q) (ndigits : nat) : Q :=
  let p := Pos.pow 10 (Pos.of_nat ndigits) in
  match ndigits with
  | O => inject_Z (round_half_even x)
  | S _ => round_half_even (x * inject_Z (Zpos p)) # p
  end.

(** [len(xs)] as a float, for the averages. *)
Definition Qlen {A} (xs : list A) : Q := inject_Z (Z.of_nat (length xs)).

(** ** src/processing/postprocessor.py *)

(** A detection dict; ["severity"] is attached by [_classify_severity]. *)
Record Detection : Type := mkDetection {
  detection_id : string;
  bbox : list Z;
  confidence : Q;
  class_ : string;
  raw_score : Q;
  severity : option string
}.

Definition set_severity (det : Detection) (sev : string) : Detection :=
  {| detection_id := detection_id det; bbox := bbox det;
     confidence := confidence det; class_ := class_ det;
     raw_score := raw_score det; severity := Some sev |}.

(** The dict returned by [InferenceEngine.infer], as far as it is read. *)
Record InferenceResult : Type := mkInferenceResult {
  ir_camera_id : string;
  ir_timestamp : option string;
  ir_detections : option (list Detection);
  ir_inference_time_ms : Q
}.

(** The dict returned by [Postprocessor.process]; [pipeline_time_ms] is
    added by the controller, and a caller of the aggregator may hand over
    a dict without ["quality_score"] or ["detections"]. *)
Record CameraResult : Type := mkCameraResult {
  cr_camera_id : string;
  cr_timestamp : string;
  cr_detections : option (list Detection);
  cr_quality_score : option Q;
  cr_total_detections : nat;
  cr_filtered_detections : nat;
  cr_postprocessing_time_ms : Q;
  cr_pipeline_time_ms : option Q
}.

Module Postprocessor.

Definition CONFIDENCE_THRESHOLD : Q := 0.7.

(** The dict literal, in its insertion order. *)
Definition SEVERITY_THRESHOLDS : list (string * (Q * Q)) :=
  [ ("minor", (0.7, 0.8));
    ("major", (0.8, 0.9));
    ("critical", (0.9, 1.0)) ].

Definition _filter_detections (detections : list Detection) : list Detection :=
  filter (fun det => Qle_bool CONFIDENCE_THRESHOLD (confidence det) = true) detections.

(** The inner [for ... break] loop: the first band that holds the
    confidence, the value assigned before the loop when none does. *)
Fixpoint band_of (bands : list (string * (Q * Q))) (c : Q) (dflt : string) : string :=
  match bands with
  | [] => dflt
  | (sev_level, (low, high)) :: rest =>
      if Qle_bool low c && Qltb c high then sev_level
      else band_of rest c dflt
  end.

Definition _classify_severity (detections : list Detection) : list Detection :=
  map (fun det => set_severity det (band_of SEVERITY_THRESHOLDS (confidence det) "minor"))
      detections.

Definition severity_weights : list (string * Q) :=
  [ ("minor", 0.1); ("major", 0.3); ("critical", 0.6) ].

(** [severity_weights.get(sev, 0.2)]. *)
Definition weight_of (sev : string) : Q :=
  match List.find (fun kv => String.eqb (fst kv) sev) severity_weights with
  | Some kv => snd kv
  | None => 0.2
  end.

(** The generator [severity_weights.get(det["severity"], 0.2) for det in
    detections], run to its end. *)
Fixpoint penalties (detections : list Detection) : Result (list Q) :=
  match detections with
  | [] => Ok []
  | det :: rest =>
      sev ← getitem "severity" (severity det);
      ws ← penalties rest;
      Ok (weight_of sev :: ws)
  end.

Definition _calculate_quality_score (detections : list Detection) : Result Q :=
  match detections with
  | [] => Ok 1.0
  | _ =>
      ws ← penalties detections;
      let total_penalty := py_sum ws in
      let quality_score := py_max2 0.0 (1.0 - total_penalty) in
      Ok (py_round quality_score 3)
  end.

(** [elapsed_ms] is the wall-clock time the call took. *)
Definition process (elapsed_ms : Q) (inference_result : InferenceResult)
    (camera_id : string) : Result CameraResult :=
  let detections := default [] (ir_detections inference_result) in
  let filtered := _filter_detections detections in
  let classified := _classify_severity filtered in
  quality_score ← _calculate_quality_score classified;
  timestamp ← getitem "timestamp" (ir_timestamp inference_result);
  Ok {| cr_camera_id := camera_id;
        cr_timestamp := timestamp;
        cr_detections := Some classified;
        cr_quality_score := Some quality_score;
        cr_total_detections := length detections;
        cr_filtered_detections := length classified;
        cr_postprocessing_time_ms := elapsed_ms;
        cr_pipeline_time_ms := None |}.

End Postprocessor.

(** ** src/aggregation/aggregator.py *)

Record CameraSummary : Type := mkCameraSummary {
  cs_score : Q;
  cs_defects : nat;
  cs_severities : gmap string nat
}.

Record AggregatedResult : Type := mkAggregatedResult {
  ar_aggregated_score : Q;
  ar_decision : string;
  ar_camera_summaries : gmap string CameraSummary;
  ar_total_defects : nat;
  ar_severity_counts : gmap string nat;
  ar_cameras_used : nat
}.

Module ResultAggregator.

Definition PASS_THRESHOLD : Q := 0.75.

Definition _calculate_aggregated_score (scores : list Q) : Q :=
  match scores with
  | [] => 0.0
  | x :: xs => py_min x xs
  end.

(** One turn of the counting loop: [counts[severity] += 1] when the
    severity is a key of [counts]. *)
Definition count_one (counts : gmap string nat) (det : Detection) : gmap string nat :=
  let sev := default "minor" (severity det) in
  match counts !! sev with
  | Some n => <[sev := S n]> counts
  | None => counts
  end.

Definition _count_severities (detections : list Detection) : gmap string nat :=
  foldl count_one
        (<["minor" := O]> (<["major" := O]> (<["critical" := O]> ∅)))
        detections.

(** The values the loop over [camera_results.items()] reads off an entry. *)
Definition score_of (result : CameraResult) : Q :=
  default 0.0 (cr_quality_score result).
Definition detections_of (result : CameraResult) : list Detection :=
  default [] (cr_detections result).

Definition summary_of (result : CameraResult) : CameraSummary :=
  {| cs_score := score_of result;
     cs_defects := length (detections_of result);
     cs_severities := _count_severities (detections_of result) |}.

(** The entries are visited in the order [map_to_list] lists them; the
    result does not depend on the order up to [==] of the score. *)
Definition aggregate (camera_results : gmap string CameraResult)
    : Result AggregatedResult :=
  if decide (camera_results = ∅) then
    Raise (ValueError "No camera results to aggregate")
  else
    let items := map_to_list camera_results in
    let scores := map (fun kv => score_of (snd kv)) items in
    let all_detections := concat (map (fun kv => detections_of (snd kv)) items) in
    let camera_summaries := summary_of <$> camera_results in
    let aggregated_score := _calculate_aggregated_score scores in
    let decision :=
      if Qle_bool PASS_THRESHOLD aggregated_score then "PASS" else "FAIL" in
    let severity_counts := _count_severities all_detections in
    Ok {| ar_aggregated_score := py_round aggregated_score 3;
          ar_decision := decision;
          ar_camera_summaries := camera_summaries;
          ar_total_defects := length all_detections;
          ar_severity_counts := severity_counts;
          ar_cameras_used := size camera_results |}.

End ResultAggregator.

(** ** src/aggregation/reporter.py *)

Record DefectDetail : Type := mkDefectDetail {
  dd_type : string;
  dd_severity : string;
  dd_confidence : Q
}.

Record CameraDetail : Type := mkCameraDetail {
  cd_quality_score : Q;
  cd_defects_found : nat;
  cd_processing_time_ms : Q;
  cd_defect_details : list DefectDetail
}.

Record Report : Type := mkReport {
  rp_cycle_id : Z;
  rp_timestamp : string;
  rp_cameras : gmap string CameraDetail;
  rp_aggregated_score : Q;
  rp_decision : string;
  rp_defects_found : nat;
  rp_severity_breakdown : gmap string nat;
  rp_total_time_ms : Q;
  rp_cameras_used : nat
}.

Module InspectionReporter.

Fixpoint defect_details (detections : list Detection) : Result (list DefectDetail) :=
  match detections with
  | [] => Ok []
  | det :: rest =>
      sev ← getitem "severity" (severity det);
      ds ← defect_details rest;
      Ok ({| dd_type := class_ det; dd_severity := sev;
             dd_confidence := confidence det |} :: ds)
  end.

Definition camera_detail (result : CameraResult) : Result CameraDetail :=
  ds ← defect_details (default [] (cr_detections result));
  Ok {| cd_quality_score := default 0.0 (cr_quality_score result);
        cd_defects_found := length (default [] (cr_detections result));
        cd_processing_time_ms := default 0.0 (cr_pipeline_time_ms result);
        cd_defect_details := ds |}.

(** The loop that fills [camera_details]; the first entry that raises
    ends it. *)
Fixpoint camera_details (items : list (string * CameraResult))
    (acc : gmap string CameraDetail) : Result (gmap string CameraDetail) :=
  match items with
  | [] => Ok acc
  | (camera_id, result) :: rest =>
      d ← camera_detail result;
      camera_details rest (<[camera_id := d]> acc)
  end.

(** [utcnow] is [datetime.utcnow().isoformat()], the reading of the
    clock as the ISO string. *)
Definition generate_report (utcnow : string) (cycle_id : Z)
    (camera_results : gmap string CameraResult)
    (aggregated_result : AggregatedResult) (total_time_ms : Q) : Result Report :=
  let timestamp := String.append utcnow "Z" in
  cams ← camera_details (map_to_list camera_results) ∅;
  Ok {| rp_cycle_id := cycle_id;
        rp_timestamp := timestamp;
        rp_cameras := cams;
        rp_aggregated_score := ar_aggregated_score aggregated_result;
        rp_decision := ar_decision aggregated_result;
        rp_defects_found := ar_total_defects aggregated_result;
        rp_severity_breakdown := ar_severity_counts aggregated_result;
        rp_total_time_ms := py_round total_time_ms 2;
        rp_cameras_used := ar_cameras_used aggregated_result |}.

End InspectionReporter.

(** ** src/utils/metrics.py *)

Record Summary : Type := mkSummary {
  sm_total_cycles : nat;
  sm_successful_cycles : nat;
  sm_failed_cycles : nat;
  sm_pass_count : nat;
  sm_fail_count : nat;
  sm_pass_rate : Q;
  sm_avg_cycle_time : Q;
  sm_min_cycle_time : Q;
  sm_max_cycle_time : Q;
  sm_avg_quality_score : Q;
  sm_total_defects : nat;
  sm_avg_defects_per_cycle : Q;
  sm_camera_failures : gmap string nat
}.

Module MetricsCollector.

(** The attributes of a collector, the lock apart: every method body
    runs under [with self._lock], so a call is one atomic step of the
    state (the lock itself is modelled in [MetricsLock]). *)
Record t : Type := mk {
  cycle_times : list Q;
  decisions : list string;
  defect_counts : list nat;
  quality_scores : list Q;
  camera_failures : gmap string nat;
  total_failures : nat
}.

Definition __init__ : t :=
  {| cycle_times := []; decisions := []; defect_counts := [];
     quality_scores := []; camera_failures := ∅; total_failures := O |}.

Definition record_cycle (report : Report) (self : t) : t :=
  {| cycle_times := cycle_times self ++ [rp_total_time_ms report];
     decisions := decisions self ++ [rp_decision report];
     defect_counts := defect_counts self ++ [rp_defects_found report];
     quality_scores := quality_scores self ++ [rp_aggregated_score report];
     camera_failures := camera_failures self;
     total_failures := total_failures self |}.

(** [camera_failures] is a [defaultdict(int)]. *)
Definition record_camera_failure (camera_id : string) (self : t) : t :=
  {| cycle_times := cycle_times self; decisions := decisions self;
     defect_counts := defect_counts self; quality_scores := quality_scores self;
     camera_failures :=
       <[camera_id := S (default O (camera_failures self !! camera_id))]>
         (camera_failures self);
     total_failures := total_failures self |}.

Definition record_failure (self : t) : t :=
  {| cycle_times := cycle_times self; decisions := decisions self;
     defect_counts := defect_counts self; quality_scores := quality_scores self;
     camera_failures := camera_failures self;
     total_failures := S (total_failures self) |}.

Definition _empty_summary : Summary :=
  {| sm_total_cycles := 0; sm_successful_cycles := 0; sm_failed_cycles := 0;
     sm_pass_count := 0; sm_fail_count := 0; sm_pass_rate := 0.0;
     sm_avg_cycle_time := 0.0; sm_min_cycle_time := 0.0;
     sm_max_cycle_time := 0.0; sm_avg_quality_score := 0.0;
     sm_total_defects := 0; sm_avg_defects_per_cycle := 0.0;
     sm_camera_failures := ∅ |}.

(** [xs.count(x)] on a list of strings. *)
Definition count (x : string) (xs : list string) : nat :=
  length (filter (fun y => y = x) xs).

Definition py_max (x : Q) (xs : list Q) : Q := foldl py_max2 x xs.

(** [sum(xs) / len(xs) if xs else 0], as the exact quotient.  The
    float the code computes is the one next to it up to the rounding of
    the sum and of the division, so nothing is stated below of the size
    of a mean against other entries. *)
Definition avg (xs : list Q) : Q :=
  match xs with
  | [] => 0
  | _ => py_sum xs / Qlen xs
  end.

Definition get_summary (self : t) : Summary :=
  let total_cycles := length (decisions self) in
  let successful := total_cycles in
  match total_cycles with
  | O => _empty_summary
  | S _ =>
      let passes := count "PASS" (decisions self) in
      let fails := count "FAIL" (decisions self) in
      {| sm_total_cycles := total_cycles;
         sm_successful_cycles := successful;
         sm_failed_cycles := total_failures self;
         sm_pass_count := passes;
         sm_fail_count := fails;
         sm_pass_rate :=
           inject_Z (Z.of_nat passes) / inject_Z (Z.of_nat total_cycles) * 100;
         sm_avg_cycle_time := avg (cycle_times self);
         sm_min_cycle_time :=
           match cycle_times self with [] => 0 | x :: xs => py_min x xs end;
         sm_max_cycle_time :=
           match cycle_times self with [] => 0 | x :: xs => py_max x xs end;
         sm_avg_quality_score := avg (quality_scores self);
         sm_total_defects := foldl Nat.add O (defect_counts self);
         sm_avg_defects_per_cycle :=
           match defect_counts self with
           | [] => 0
           | _ => inject_Z (Z.of_nat (foldl Nat.add O (defect_counts self)))
                  / Qlen (defect_counts self)
           end;
         sm_camera_failures := camera_failures self |}
  end.

Definition reset (self : t) : t := __init__.

(** The collector after [n] calls of [record_failure]. *)
Definition record_failures (n : nat) (self : t) : t :=
  Nat.iter n record_failure self.

End MetricsCollector.

(** ** [record_failure] under threads

    [with self._lock: self.total_failures += 1], run by several threads
    at once.  A thread is at one of five points; the read and the write of
    [self.total_failures += 1] are separate steps, and a thread can only
    take the lock when no thread holds it.  A schedule names, step by
    step, the thread that runs next. *)
Module MetricsLock.

Inductive Pc : Type :=
  | AtAcquire              (* before [with self._lock] *)
  | AtLoad                 (* lock held, before reading total_failures *)
  | AtStore (tmp : nat)    (* value read, before writing tmp + 1 *)
  | AtRelease              (* written, before leaving the [with] block *)
  | Done.

Record Shared : Type := mkShared {
  lock_held : bool;
  total_failures : nat
}.

Definition thread_step (s : Shared) (pc : Pc) : option (Shared * Pc) :=
  match pc with
  | AtAcquire =>
      if lock_held s then None
      else Some ({| lock_held := true; total_failures := total_failures s |}, AtLoad)
  | AtLoad => Some (s, AtStore (total_failures s))
  | AtStore tmp =>
      Some ({| lock_held := lock_held s; total_failures := tmp + 1 |}, AtRelease)
  | AtRelease =>
      Some ({| lock_held := false; total_failures := total_failures s |}, Done)
  | Done => None
  end.

Definition State : Type := Shared * list Pc.

(** Thread [i] takes a step; a thread that is blocked, finished or
    absent leaves the state as it is. *)
Definition step (i : nat) (st : State) : State :=
  match snd st !! i with
  | Some pc =>
      match thread_step (fst st) pc with
      | Some (s', pc') => (s', <[i := pc']> (snd st))
      | None => st
      end
  | None => st
  end.

Definition run (schedule : list nat) (st : State) : State :=
  foldl (fun st i => step i st) st schedule.

(** [P] threads about to call [record_failure] on a collector whose
    counter reads [n]. *)
Definition init (n P : nat) : State :=
  ({| lock_held := false; total_failures := n |}, replicate P AtAcquire).

Definition all_done (st : State) : Prop := Forall (fun pc => pc = Done) (snd st).

(** The schedule that lets the threads run one after the other. *)
Definition sequential (P : nat) : list nat :=
  flat_map (fun i => [i; i; i; i]) (seq 0 P).

(** The same increment without the lock, for comparison. *)
Definition thread_step_unlocked (s : Shared) (pc : Pc) : option (Shared * Pc) :=
  match pc with
  | AtAcquire => Some (s, AtLoad)
  | AtRelease => Some (s, Done)
  | _ => thread_step s pc
  end.

Definition step_unlocked (i : nat) (st : State) : State :=
  match snd st !! i with
  | Some pc =>
      match thread_step_unlocked (fst st) pc with
      | Some (s', pc') => (s', <[i := pc']> (snd st))
      | None => st
      end
  | None => st
  end.

Definition run_unlocked (schedule : list nat) (st : State) : State :=
  foldl (fun st i => step_unlocked i st) st schedule.

(** A thread that has written its increment. *)
Definition written (pc : Pc) : nat :=
  match pc with AtRelease | Done => 1 | _ => 0 end.

(** A thread inside the [with self._lock] block. *)
Definition inside (pc : Pc) : nat :=
  match pc with AtLoad | AtStore _ | AtRelease => 1 | _ => 0 end.

(** What holds of every state the threads can reach from [init n P]:
    the counter is [n] plus the increments written, at most one thread
    is inside the block, which is when the lock is held, and a thread
    about to write has read the current value. *)
Definition invariant (n : nat) (st : State) : Prop :=
  total_failures (fst st) = (n + sum_list_with written (snd st))%nat
  /\ sum_list_with inside (snd st) = (if lock_held (fst st) then 1 else 0)%nat
  /\ (forall j tmp, snd st !! j = Some (AtStore tmp) -> tmp = total_failures (fst st)).

End MetricsLock.

(** ** src/core/camera.py *)

(** The frame dict, as far as a later stage reads it (the mock payload
    string and the metadata are never read). *)
Record Frame : Type := mkFrame {
  fr_camera_id : string;
  fr_timestamp : string;
  fr_frame_number : nat;
  fr_resolution : Z * Z
}.

(** What one call of [capture] draws from its surroundings: the value of
    [random.random()] that decides on a failure, and the clock.  The
    latency the call sleeps is part of the call and changes no value. *)
Record Draw : Type := mkDraw {
  dr_failure : Q;
  dr_utcnow : string
}.

Module Camera.

(** [draws] and [calls] stand for the random generator: the [n]-th call
    of [capture] on this camera receives [draws n]. *)
Record t : Type := mk {
  camera_id : string;
  resolution : Z * Z;
  frame_count : nat;
  draws : nat -> Draw;
  calls : nat
}.

Definition FAILURE_RATE : Q := 0.05.

Definition _generate_mock_frame (self : t) (utcnow : string) : Frame :=
  {| fr_camera_id := camera_id self;
     fr_timestamp := utcnow +:+ "Z";
     fr_frame_number := frame_count self;
     fr_resolution := resolution self |}.

Definition capture (self : t) : t * Result Frame :=
  let d := draws self (calls self) in
  let self1 := {| camera_id := camera_id self; resolution := resolution self;
                  frame_count := frame_count self; draws := draws self;
                  calls := S (calls self) |} in
  if Qltb (dr_failure d) FAILURE_RATE then
    (self1, Raise (RuntimeError (camera_id self +:+ ": Capture failed - sensor timeout")))
  else
    let self2 := {| camera_id := camera_id self; resolution := resolution self;
                    frame_count := S (frame_count self); draws := draws self;
                    calls := S (calls self) |} in
    (self2, Ok (_generate_mock_frame self2 (dr_utcnow d))).

(** The camera after [n] calls of [capture]. *)
Definition after (n : nat) (self : t) : t :=
  Nat.iter n (fun c => fst (capture c)) self.

End Camera.

(** ** src/processing/preprocessor.py, src/processing/inference_engine.py *)

Record Preprocessed : Type := mkPreprocessed {
  pp_camera_id : string;
  pp_timestamp : string;
  pp_frame_number : nat;
  pp_preprocessing_time_ms : Q
}.

Module Preprocessor.

Definition process (elapsed_ms : Q) (frame : Frame) : Result Preprocessed :=
  Ok {| pp_camera_id := fr_camera_id frame;
        pp_timestamp := fr_timestamp frame;
        pp_frame_number := fr_frame_number frame;
        pp_preprocessing_time_ms := elapsed_ms |}.

End Preprocessor.

Module InferenceEngine.

(** [generated] is the list [_generate_detections] draws. *)
Definition infer (generated : list Detection) (elapsed_ms : Q)
    (preprocessed_data : Preprocessed) (camera_id : string) : Result InferenceResult :=
  Ok {| ir_camera_id := camera_id;
        ir_timestamp := Some (pp_timestamp preprocessed_data);
        ir_detections := Some generated;
        ir_inference_time_ms := elapsed_ms |}.

End InferenceEngine.

(** ** src/core/controller.py *)

(** The calls the controller makes on its surroundings, in order. *)
Inductive Event : Type :=
  | EvCapture (camera_id : string)     (* camera.capture() *)
  | EvSleep (seconds : Q)              (* time.sleep(seconds) *)
  | EvPipeline (camera_id : string)    (* _process_single_frame submitted *)
  | EvAggregate                        (* aggregator.aggregate(...) *)
  | EvReport.                          (* reporter.generate_report(...) *)

(** What a cycle takes from the scheduler and the clock: the order in
    which the futures of each stage complete, and the elapsed times. *)
Record Env : Type := mkEnv {
  capture_order : list nat;
  pipeline_order : list nat;
  postprocessing_ms : string -> Q;
  pipeline_ms : string -> Q;
  cycle_ms : Q;
  report_utcnow : string
}.

(** [as_completed]: the pending items in the order the schedule picks
    them; every schedule yields a permutation of the items. *)
Fixpoint as_completed {A} (schedule : list nat) (pending : list A) : list A :=
  match schedule with
  | [] => pending
  | i :: schedule' =>
      let j := (i mod length pending)%nat in
      match pending !! j with
      | Some x => x :: as_completed schedule' (delete j pending)
      | None => pending
      end
  end.

Module InspectionController.

Record World : Type := mkWorld {
  cameras : list Camera.t;
  metrics : MetricsCollector.t;
  trace : list Event
}.

(** A method of the controller: it changes the world and returns or
    raises. *)
Definition M (A : Type) : Type := World -> World * Result A.

Definition ret {A} (a : A) : M A := fun w => (w, Ok a).
Definition raise {A} (e : Exn) : M A := fun w => (w, Raise e).
Definition lift {A} (r : Result A) : M A := fun w => (w, r).
Definition bind {A B} (m : M A) (f : A -> M B) : M B := fun w =>
  match m w with
  | (w', Ok a) => f a w'
  | (w', Raise e) => (w', Raise e)
  end.
Definition try_except {A} (body : M A) (handler : Exn -> M A) : M A := fun w =>
  match body w with
  | (w', Ok a) => (w', Ok a)
  | (w', Raise e) => handler e w'
  end.

Notation "x <- m ;; k" := (bind m (fun x => k))
  (at level 100, m at next level, right associativity).

Definition emit (evs : list Event) : M unit := fun w =>
  ({| cameras := cameras w; metrics := metrics w; trace := trace w ++ evs |}, Ok tt).
Definition with_metrics (f : MetricsCollector.t -> MetricsCollector.t) : M unit :=
  fun w =>
  ({| cameras := cameras w; metrics := f (metrics w); trace := trace w |}, Ok tt).
Definition set_camera (i : nat) (camera : Camera.t) : M unit := fun w =>
  ({| cameras := <[i := camera]> (cameras w); metrics := metrics w;
      trace := trace w |}, Ok tt).

Fixpoint foldM {A B} (f : B -> A -> M A) (l : list B) (acc : A) : M A :=
  match l with
  | [] => ret acc
  | x :: l' => a <- f x acc ;; foldM f l' a
  end.

Definition MAX_CYCLE_TIMEOUT : Q := 5.0.

(** The [for attempt in range(max_retries)] loop with [n] turns left. *)
Fixpoint retry_loop (n : nat) (attempt max_retries : Z) (camera : Camera.t)
    : Camera.t * list Event * Result (option Frame) :=
  match n with
  | O => (camera, [], Ok None)
  | S n' =>
      let '(camera', r) := Camera.capture camera in
      match r with
      | Ok frame => (camera', [EvCapture (Camera.camera_id camera)], Ok (Some frame))
      | Raise e =>
          if (attempt <? max_retries - 1)%Z then
            let '(camera'', evs, res) :=
              retry_loop n' (attempt + 1)%Z max_retries camera' in
            (camera'',
             EvCapture (Camera.camera_id camera) :: EvSleep 0.05 :: evs, res)
          else
            (camera', [EvCapture (Camera.camera_id camera)], Ok None)
      end
  end.

Definition _capture_with_retry (camera : Camera.t) (max_retries : Z)
    : Camera.t * list Event * Result (option Frame) :=
  retry_loop (Z.to_nat max_retries) 0%Z max_retries camera.

Definition default_max_retries : Z := 3.

Section Collaborators.

(** The injected preprocessor and inference engine, and the
    surroundings of the cycle. *)
Context (preprocessor_process : Frame -> Result Preprocessed).
Context (inference_engine_infer : Preprocessed -> string -> Result InferenceResult).
Context (env : Env).

(** One turn of the collecting loop of [_parallel_capture], for the
    future of the camera at position [i].  [as_completed] hands over
    finished futures only, so [future.result(timeout=...)] returns at
    once what the wrapper returned or raised. *)
Definition collect_capture (i : nat) (frames : gmap string Frame)
    : M (gmap string Frame) := fun w =>
  match cameras w !! i with
  | None => (w, Ok frames)
  | Some camera =>
      let '(camera', evs, r) := _capture_with_retry camera default_max_retries in
      (_ <- set_camera i camera' ;;
       _ <- emit evs ;;
       match r with
       | Ok (Some frame) => ret (<[Camera.camera_id camera := frame]> frames)
       | Ok None => ret frames
       | Raise e =>
           _ <- with_metrics
                  (MetricsCollector.record_camera_failure (Camera.camera_id camera)) ;;
           ret frames
       end) w
  end.

(** [ThreadPoolExecutor(max_workers=0)] raises [ValueError]. *)
Definition _parallel_capture : M (gmap string Frame) := fun w =>
  match cameras w with
  | [] => (w, Raise (ValueError "max_workers must be greater than 0"))
  | _ =>
      foldM collect_capture
            (as_completed (capture_order env) (seq 0 (length (cameras w)))) ∅ w
  end.

Definition _process_single_frame (camera_id : string) (frame : Frame)
    : Result CameraResult :=
  preprocessed ← preprocessor_process frame;
  detections ← inference_engine_infer preprocessed camera_id;
  result ← Postprocessor.process (postprocessing_ms env camera_id)
             detections camera_id;
  Ok {| cr_camera_id := cr_camera_id result;
        cr_timestamp := cr_timestamp result;
        cr_detections := cr_detections result;
        cr_quality_score := cr_quality_score result;
        cr_total_detections := cr_total_detections result;
        cr_filtered_detections := cr_filtered_detections result;
        cr_postprocessing_time_ms := cr_postprocessing_time_ms result;
        cr_pipeline_time_ms := Some (pipeline_ms env camera_id) |}.

(** One turn of the collecting loop of [_process_frames]. *)
Definition collect_result (results : gmap string CameraResult)
    (task : string * Frame) : gmap string CameraResult :=
  match _process_single_frame (fst task) (snd task) with
  | Ok result => <[fst task := result]> results
  | Raise e => results
  end.

Definition _process_frames (frames : gmap string Frame)
    : M (gmap string CameraResult) :=
  if decide (frames = ∅) then
    raise (ValueError "max_workers must be greater than 0")
  else
    let completed := as_completed (pipeline_order env) (map_to_list frames) in
    _ <- emit (map (fun task => EvPipeline (fst task)) completed) ;;
    ret (foldl collect_result ∅ completed).

Definition execute_cycle (cycle_id : Z) : M Report :=
  try_except
    (frames <- _parallel_capture ;;
     if decide (frames = ∅) then
       raise (Exception "No frames captured from any camera")
     else
       camera_results <- _process_frames frames ;;
       _ <- emit [EvAggregate] ;;
       aggregated <- lift (ResultAggregator.aggregate camera_results) ;;
       _ <- emit [EvReport] ;;
       report <- lift (InspectionReporter.generate_report (report_utcnow env)
                         cycle_id camera_results aggregated (cycle_ms env)) ;;
       _ <- with_metrics (MetricsCollector.record_cycle report) ;;
       ret report)
    (fun e =>
       _ <- with_metrics MetricsCollector.record_failure ;;
       raise e).

End Collaborators.

End InspectionController.

(** ** src/main.py *)

(** What [run_cycles] prints, without the layout of the lines. *)
Inductive Output : Type :=
  | OutBanner (num_cycles : Z)                     (* "... Starting n Cycles" *)
  | OutStarting (cycle_id : Z)                     (* "Starting inspection..." *)
  | OutResult (cycle_id : Z) (report : Report)     (* decision, score, defects, time *)
  | OutError (cycle_id : Z) (e : Exn)              (* "ERROR" and the message *)
  | OutSummary (stats : Summary).                  (* the INSPECTION SUMMARY block *)

Module InspectionSystem.

(** The system: the [running] flag, the controller with its cameras and
    metrics, and what was printed so far. *)
Record t : Type := mk {
  running : bool;
  controller : InspectionController.World;
  printed : list Output
}.

Section Collaborators.

(** The preprocessor and inference engine the controller was built with,
    and the surroundings of each cycle. *)
Context (preprocessor_process : Frame -> Result Preprocessed).
Context (inference_engine_infer : Preprocessed -> string -> Result InferenceResult).
Context (envs : Z -> Env).

(** The [try ... except] of one turn of the loop. *)
Definition run_one (num_cycles cycle_id : Z) (self : t) : t :=
  let started := printed self ++ [OutStarting cycle_id] in
  match InspectionController.execute_cycle preprocessor_process
          inference_engine_infer (envs cycle_id) cycle_id (controller self) with
  | (w, Ok report) =>
      {| running := running self;
         controller :=
           if (cycle_id <? num_cycles)%Z then
             {| InspectionController.cameras := InspectionController.cameras w;
                InspectionController.metrics := InspectionController.metrics w;
                InspectionController.trace :=
                  InspectionController.trace w ++ [EvSleep 0.5] |}
           else w;
         printed := started ++ [OutResult cycle_id report] |}
  | (w, Raise e) =>
      {| running := running self; controller := w;
         printed := started ++ [OutError cycle_id e] |}
  end.

(** [for cycle_id in ...: if not self.running: break; ...]. *)
Fixpoint loop (num_cycles : Z) (cycle_ids : list Z) (self : t) : t :=
  match cycle_ids with
  | [] => self
  | cycle_id :: rest =>
      if running self then loop num_cycles rest (run_one num_cycles cycle_id self)
      else self
  end.

Definition _print_summary (self : t) : t :=
  {| running := running self; controller := controller self;
     printed := printed self
                ++ [OutSummary (MetricsCollector.get_summary
                                  (InspectionController.metrics (controller self)))] |}.

(** [range(1, num_cycles + 1)] is [seqZ 1 num_cycles]. *)
Definition run_cycles (num_cycles : Z) (self : t) : t :=
  let self1 := {| running := running self; controller := controller self;
                  printed := printed self ++ [OutBanner num_cycles] |} in
  _print_summary (loop num_cycles (seqZ 1 num_cycles) self1).

End Collaborators.

End InspectionSystem.

(** ** src/utils/logger.py *)

Module Logger.

(** A [logging.StreamHandler], as far as the module sets it. *)
Record Handler : Type := mkHandler { h_level : Z }.

(** A [logging.Logger].  A handler is an object that several loggers may
    hold, and [set_log_level] changes it in place, so [lg_handlers] is the
    list of the addresses of the handlers. *)
Record PyLogger : Type := mkPyLogger {
  lg_level : Z;
  lg_handlers : list nat;
  lg_propagate : bool
}.

(** The loggers of the [logging] module (the root logger, and the others
    by name), the handler objects by address, and the two globals of this
    module.  [_loggers[name]] is always the logger
    [logging.getLogger(name)], one shared object, so the dict is kept as
    the set of its keys. *)
Record State : Type := mkState {
  root : PyLogger;
  manager : gmap string PyLogger;
  heap : gmap nat Handler;
  _loggers : gset string;
  _log_level : Z
}.

Definition INFO : Z := 20.
Definition NOTSET : Z := 0.

(** A logger as [logging] creates it. *)
Definition new_logger : PyLogger :=
  {| lg_level := NOTSET; lg_handlers := []; lg_propagate := true |}.

(** The names of the root logger: the empty name, and (Python 3.9 on)
    the name it carries itself. *)
Definition is_root (name : string) : bool :=
  bool_decide (name = "") || bool_decide (name = "root").

(** [logging.getLogger(name)]: one object per name, made on first use. *)
Definition getLogger (name : string) (st : State) : PyLogger :=
  if is_root name then root st else default new_logger (manager st !! name).

(** The state after a change to the logger of that name. *)
Definition put (name : string) (logger : PyLogger) (st : State) : State :=
  if is_root name then
    {| root := logger; manager := manager st; heap := heap st;
       _loggers := _loggers st; _log_level := _log_level st |}
  else
    {| root := root st; manager := <[name := logger]> (manager st);
       heap := heap st; _loggers := _loggers st; _log_level := _log_level st |}.

(** The handler at an address; a handler starts at the level NOTSET. *)
Definition handler_at (st : State) (a : nat) : Handler :=
  default {| h_level := NOTSET |} (heap st !! a).

(** The addresses in use: those of the handlers of the heap and those a
    logger holds.  A new object gets an address that is not in use. *)
Definition addresses (st : State) : gset nat :=
  dom (heap st) ∪ list_to_set (lg_handlers (root st))
  ∪ ⋃ ((fun kv => list_to_set (lg_handlers (snd kv))) <$> map_to_list (manager st)).

(** [level or _log_level]: the level 0 counts as none. *)
Definition effective (level : option Z) (st : State) : Z :=
  match level with
  | Some l => if (l =? 0)%Z then _log_level st else l
  | None => _log_level st
  end.

(** Returns the state and the name of the logger handed back. *)
Definition setup_logger (name : string) (level : option Z) (st : State)
    : State * string :=
  if decide (name ∈ _loggers st) then (st, name)
  else
    let logger := getLogger name st in
    let lv := effective level st in
    let handler := fresh (addresses st) in
    let handlers :=
      match lg_handlers logger with
      | [] => [handler]
      | hs => hs
      end in
    let heap1 :=
      match lg_handlers logger with
      | [] => <[handler := {| h_level := lv |}]> (heap st)
      | _ => heap st
      end in
    let st1 := put name {| lg_level := lv; lg_handlers := handlers;
                           lg_propagate := false |}
                 {| root := root st; manager := manager st; heap := heap1;
                    _loggers := _loggers st; _log_level := _log_level st |} in
    ({| root := root st1; manager := manager st1; heap := heap st1;
        _loggers := {[name]} ∪ _loggers st1; _log_level := _log_level st1 |}, name).

(** [logger.setLevel(level)]. *)
Definition with_level (level : Z) (logger : PyLogger) : PyLogger :=
  {| lg_level := level; lg_handlers := lg_handlers logger;
     lg_propagate := lg_propagate logger |}.

(** [handler.setLevel(level)] on the handler at an address. *)
Definition set_handler_level (level : Z) (st : State) (a : nat) : State :=
  {| root := root st; manager := manager st;
     heap := <[a := {| h_level := level |}]> (heap st);
     _loggers := _loggers st; _log_level := _log_level st |}.

(** One turn of the loop over [_loggers.values()]. *)
Definition set_levels (level : Z) (st : State) (name : string) : State :=
  let logger := getLogger name st in
  foldl (set_handler_level level) (put name (with_level level logger) st)
        (lg_handlers logger).

Definition set_log_level (level : Z) (st : State) : State :=
  foldl (set_levels level)
        {| root := root st; manager := manager st; heap := heap st;
           _loggers := _loggers st; _log_level := level |}
        (elements (_loggers st)).

End Logger.

(** ** Vocabulary of the statements *)

(** The number of detections of a list that carry the given severity. *)
Definition count_severity (sev : string) (detections : list Detection) : nat :=
  length (filter (fun d => severity d = Some sev) detections).

Definition Qnat (n : nat) : Q := inject_Z (Z.of_nat n).

(** A detection that carries one of the three severities. *)
Definition classified (d : Detection) : Prop :=
  severity d = Some "minor" \/ severity d = Some "major"
  \/ severity d = Some "critical".

(** A raw detection with the given confidence, as the inference engine
    generates them. *)
Definition raw_detection (c : Q) : Detection :=
  {| detection_id := "det_0_0"; bbox := [100; 100; 50; 50]%Z; confidence := c;
     class_ := "scratch"; raw_score := 0.5; severity := None |}.

(** An inference result that holds the given detections. *)
Definition inference_of (detections : list Detection) : InferenceResult :=
  {| ir_camera_id := "CAM_01"; ir_timestamp := Some "2024-01-01T00:00:00";
     ir_detections := Some detections; ir_inference_time_ms := 150 |}.

(** A per-device entry of the aggregator's input with the given score
    (or none) and detections. *)
Definition camera_result (camera_id : string) (score : option Q)
    (detections : list Detection) : CameraResult :=
  {| cr_camera_id := camera_id; cr_timestamp := "2024-01-01T00:00:00Z";
     cr_detections := Some detections; cr_quality_score := score;
     cr_total_detections := length detections;
     cr_filtered_detections := length detections;
     cr_postprocessing_time_ms := 1; cr_pipeline_time_ms := Some 200 |}.

(** Two devices scoring 0.9 and 0.6. *)
Definition results_09_06 : gmap string CameraResult :=
  <["CAM_01" := camera_result "CAM_01" (Some 0.9) []]>
    {["CAM_02" := camera_result "CAM_02" (Some 0.6) []]}.

(** A lone device scoring 0.74999. *)
Definition results_074999 : gmap string CameraResult :=
  {["CAM_01" := camera_result "CAM_01" (Some 0.74999) []]}.

(** Two devices, the first without a score. *)
Definition results_unscored : gmap string CameraResult :=
  <["CAM_01" := camera_result "CAM_01" None []]>
    {["CAM_02" := camera_result "CAM_02" (Some 0.9) []]}.

(** Two devices, the first without a score, the second with a score
    below zero. *)
Definition results_unscored_negative : gmap string CameraResult :=
  <["CAM_01" := camera_result "CAM_01" None []]>
    {["CAM_02" := camera_result "CAM_02" (Some (-0.5)) []]}.

(** The list [scores] the loop of [aggregate] collects. *)
Definition scores_of (m : gmap string CameraResult) : list Q :=
  map (fun kv => ResultAggregator.score_of (snd kv)) (map_to_list m).

(** [lowest] is the smallest of the scores the aggregator reads off the
    entries of [m]. *)
Definition lowest_score (m : gmap string CameraResult) (lowest : Q) : Prop :=
  (exists k res, m !! k = Some res /\ ResultAggregator.score_of res = lowest)
  /\ (forall k res, m !! k = Some res -> lowest <= ResultAggregator.score_of res).

(** The outcome of attempt [i + 1] on a camera: of the call of [capture]
    that follows [i] earlier calls. *)
Definition attempt (camera : Camera.t) (i : nat) : Result Frame :=
  snd (Camera.capture (Camera.after i camera)).

Definition fails (camera : Camera.t) (i : nat) : Prop :=
  exists e, attempt camera i = Raise e.

(** [n] calls of [capture] with a sleep of 50 ms between two of them. *)
Fixpoint attempts (camera_id : string) (n : nat) : list Event :=
  match n with
  | O => []
  | S O => [EvCapture camera_id]
  | S n' => EvCapture camera_id :: EvSleep 0.05 :: attempts camera_id n'
  end.

(** The number of calls of [capture] in a trace. *)
Definition captures_in (evs : list Event) : nat :=
  length (omap (fun ev => match ev with EvCapture c => Some c | _ => None end) evs).

(** The delays slept in a trace. *)
Definition sleeps_in (evs : list Event) : list Q :=
  omap (fun ev => match ev with EvSleep s => Some s | _ => None end) evs.

(** A camera whose every draw is the same. *)
Definition camera_drawing (camera_id : string) (failure : Q) : Camera.t :=
  {| Camera.camera_id := camera_id; Camera.resolution := (1920, 1080)%Z;
     Camera.frame_count := 0;
     Camera.draws := fun _ => {| dr_failure := failure;
                                 dr_utcnow := "2024-01-01T00:00:00" |};
     Camera.calls := 0 |}.

(** A camera that fails twice and then captures. *)
Definition camera_third_time (camera_id : string) : Camera.t :=
  {| Camera.camera_id := camera_id; Camera.resolution := (1920, 1080)%Z;
     Camera.frame_count := 0;
     Camera.draws := fun n => {| dr_failure := if (n <? 2)%nat then 0.01 else 0.5;
                                 dr_utcnow := "2024-01-01T00:00:00" |};
     Camera.calls := 0 |}.

(** A preprocessor that raises on the frames of one camera and is the
    mock preprocessor on the others. *)
Definition preprocess_failing_on (bad : string) (frame : Frame) : Result Preprocessed :=
  if String.eqb (fr_camera_id frame) bad then Raise (KeyError "resolution")
  else Preprocessor.process 30 frame.

(** An inference engine that finds nothing. *)
Definition infer_nothing : Preprocessed -> string -> Result InferenceResult :=
  InferenceEngine.infer [] 150.

(** Futures that complete in the order of submission, and fixed clock
    readings. *)
Definition quiet_env : Env :=
  {| capture_order := []; pipeline_order := [];
     postprocessing_ms := fun _ => 1; pipeline_ms := fun _ => 200;
     cycle_ms := 350; report_utcnow := "2024-01-01T00:00:01" |}.

Definition frame_of (camera_id : string) : Frame :=
  {| fr_camera_id := camera_id; fr_timestamp := "2024-01-01T00:00:00Z";
     fr_frame_number := 1; fr_resolution := (1920, 1080)%Z |}.

Definition two_frames : gmap string Frame :=
  <["CAM_01" := frame_of "CAM_01"]> {["CAM_02" := frame_of "CAM_02"]}.

(** A controller with one camera, which never captures. *)
Definition world_one_dead_camera : InspectionController.World :=
  {| InspectionController.cameras := [camera_drawing "CAM_01" 0.01];
     InspectionController.metrics := MetricsCollector.__init__;
     InspectionController.trace := [] |}.

(** A controller with one camera, which captures at the first attempt. *)
Definition world_one_camera : InspectionController.World :=
  {| InspectionController.cameras := [camera_drawing "CAM_01" 0.5];
     InspectionController.metrics := MetricsCollector.__init__;
     InspectionController.trace := [] |}.

(** A controller with two cameras that capture at the first attempt. *)
Definition world_two_cameras : InspectionController.World :=
  {| InspectionController.cameras :=
       [camera_drawing "CAM_01" 0.5; camera_drawing "CAM_02" 0.5];
     InspectionController.metrics := MetricsCollector.__init__;
     InspectionController.trace := [] |}.

(** That controller after the capture stage. *)
Definition world_two_captured : InspectionController.World :=
  {| InspectionController.cameras :=
       [Camera.after 1 (camera_drawing "CAM_01" 0.5);
        Camera.after 1 (camera_drawing "CAM_02" 0.5)];
     InspectionController.metrics := MetricsCollector.__init__;
     InspectionController.trace := [EvCapture "CAM_01"; EvCapture "CAM_02"] |}.

(** What the collector has recorded of completed cycles. *)
Definition recorded_cycles (m : MetricsCollector.t)
    : list Q * list string * list nat * list Q :=
  (MetricsCollector.cycle_times m, MetricsCollector.decisions m,
   MetricsCollector.defect_counts m, MetricsCollector.quality_scores m).

(** An event of the capture stage. *)
Definition capture_event (ev : Event) : Prop :=
  match ev with
  | EvCapture _ | EvSleep _ => True
  | _ => False
  end.

(** What a stretch of the capture stage leaves of the world: the trace
    grows by capture events, and the failure counter and the recorded
    cycles stay. *)
Definition capture_only (w w' : InspectionController.World) : Prop :=
  (exists evs, InspectionController.trace w' = InspectionController.trace w ++ evs
               /\ Forall capture_event evs)
  /\ MetricsCollector.total_failures (InspectionController.metrics w')
     = MetricsCollector.total_failures (InspectionController.metrics w)
  /\ recorded_cycles (InspectionController.metrics w')
     = recorded_cycles (InspectionController.metrics w).

(** A detection of confidence at least 0.7. *)
Definition confident (d : Detection) : Prop := 0.7 <= confidence d.

#[global] Instance confident_dec (d : Detection) : Decision (confident d) :=
  match Qlt_le_dec (confidence d) 0.7 with
  | left H => right (Qlt_not_le _ _ H)
  | right H => left H
  end.

(** A detection as it was before a severity was attached. *)
Definition without_severity (d : Detection) : Detection :=
  {| detection_id := detection_id d; bbox := bbox d; confidence := confidence d;
     class_ := class_ d; raw_score := raw_score d; severity := None |}.

(** The number of detections the aggregator files under a severity: a
    detection without severity is filed under "minor". *)
Definition count_labelled (sev : string) (detections : list Detection) : nat :=
  length (filter (fun d => default "minor" (severity d) = sev) detections).

(** The sum of a quantity over the entries of a mapping. *)
Definition sum_over {A} (f : A -> nat) (m : gmap string A) : nat :=
  sum_list_with (fun kv => f (snd kv)) (map_to_list m).

(** The penalty a detection costs: the weight of its severity. *)
Definition penalty_of (d : Detection) : Q :=
  match severity d with
  | Some sev => Postprocessor.weight_of sev
  | None => 0
  end.

Definition total_penalty (detections : list Detection) : Q :=
  foldr (fun d acc => penalty_of d + acc) 0 detections.

(** An aggregated result to make a report of. *)
Definition aggregated_09_06 : AggregatedResult :=
  {| ar_aggregated_score := 0.6; ar_decision := "FAIL";
     ar_camera_summaries := ResultAggregator.summary_of <$> results_09_06;
     ar_total_defects := 0;
     ar_severity_counts := ResultAggregator._count_severities [];
     ar_cameras_used := 2 |}.

(** A report with the given decision, elapsed time, defects and score. *)
Definition report_of (decision : string) (time_ms : Q) (defects : nat) (score : Q)
    : Report :=
  {| rp_cycle_id := 1; rp_timestamp := "2024-01-01T00:00:01Z"; rp_cameras := ∅;
     rp_aggregated_score := score; rp_decision := decision;
     rp_defects_found := defects;
     rp_severity_breakdown := ResultAggregator._count_severities [];
     rp_total_time_ms := time_ms; rp_cameras_used := 2 |}.

(** A call on a collector. *)
Inductive MetricsOp : Type :=
  | OpRecordCycle (report : Report)
  | OpRecordCameraFailure (camera_id : string)
  | OpRecordFailure
  | OpReset.

Definition apply_op (self : MetricsCollector.t) (op : MetricsOp) : MetricsCollector.t :=
  match op with
  | OpRecordCycle report => MetricsCollector.record_cycle report self
  | OpRecordCameraFailure camera_id =>
      MetricsCollector.record_camera_failure camera_id self
  | OpRecordFailure => MetricsCollector.record_failure self
  | OpReset => MetricsCollector.reset self
  end.

(** The collector after a sequence of calls on a fresh one. *)
Definition after_ops (ops : list MetricsOp) : MetricsCollector.t :=
  foldl apply_op MetricsCollector.__init__ ops.

(** The calls made since the last [reset]. *)
Definition since_reset (ops : list MetricsOp) : list MetricsOp :=
  foldl (fun acc op => match op with OpReset => [] | _ => acc ++ [op] end) [] ops.

Definition reports_in (ops : list MetricsOp) : list Report :=
  omap (fun op => match op with OpRecordCycle r => Some r | _ => None end) ops.

Definition failures_in (ops : list MetricsOp) : nat :=
  length (omap (fun op => match op with OpRecordFailure => Some tt | _ => None end) ops).

Definition camera_failures_in (camera_id : string) (ops : list MetricsOp) : nat :=
  length (omap (fun op => match op with
                          | OpRecordCameraFailure c =>
                              if decide (c = camera_id) then Some tt else None
                          | _ => None
                          end) ops).

(** The steps a thread still has to take to leave [record_failure]. *)
Definition remaining (pc : MetricsLock.Pc) : nat :=
  match pc with
  | MetricsLock.AtAcquire => 4
  | MetricsLock.AtLoad => 3
  | MetricsLock.AtStore _ => 2
  | MetricsLock.AtRelease => 1
  | MetricsLock.Done => 0
  end.

(** The frames the first [n] calls of [capture] on a camera return. *)
Definition frames_of (camera : Camera.t) (n : nat) : list Frame :=
  omap (fun i => match attempt camera i with Ok f => Some f | Raise _ => None end)
       (seq 0 n).

(** What the retry wrapper, with its default of three attempts, gets
    from a camera. *)
Definition captured (camera : Camera.t) : option Frame :=
  match snd (InspectionController._capture_with_retry camera
               InspectionController.default_max_retries) with
  | Ok o => o
  | Raise _ => None
  end.

(** The ids of the cameras of a controller. *)
Definition camera_ids (w : InspectionController.World) : list string :=
  Camera.camera_id <$> InspectionController.cameras w.

(** The outcome of a pipeline run as an entry of the results, if any. *)
Definition run_entry (r : Result CameraResult) : option CameraResult :=
  match r with
  | Ok result => Some result
  | Raise _ => None
  end.

(** A system as [main] starts it, here with two cameras. *)
Definition system_two_cameras : InspectionSystem.t :=
  {| InspectionSystem.running := true;
     InspectionSystem.controller := world_two_cameras;
     InspectionSystem.printed := [] |}.

(** The two names are names of one logger object. *)
Definition names_logger (m n : string) : bool :=
  bool_decide (m = n) || (Logger.is_root m && Logger.is_root n).

(** The logger of that name is one of the values of [_loggers]. *)
Definition registered (name : string) (st : Logger.State) : bool :=
  existsb (fun m => names_logger m name) (elements (Logger._loggers st)).

(** The handler at that address is held by one of the values of
    [_loggers]. *)
Definition attached (a : nat) (st : Logger.State) : bool :=
  existsb (fun m => bool_decide (a ∈ Logger.lg_handlers (Logger.getLogger m st)))
          (elements (Logger._loggers st)).

(** The handlers a logger holds, as they are in a state. *)
Definition handlers_of (logger : Logger.PyLogger) (st : Logger.State)
    : list Logger.Handler :=
  Logger.handler_at st <$> Logger.lg_handlers logger.

(** The [logging] module before any logger was made, the root logger at
    its level WARNING, and the module as it is imported. *)
Definition logging_at_import : Logger.State :=
  {| Logger.root := {| Logger.lg_level := 30; Logger.lg_handlers := [];
                       Logger.lg_propagate := true |};
     Logger.manager := ∅; Logger.heap := ∅; Logger._loggers := ∅;
     Logger._log_level := Logger.INFO |}.

(** The logger "app" was handed out by [setup_logger]; its one handler,
    at the level ERROR, is also held by the root logger, which was not. *)
Definition logging_shared_handler : Logger.State :=
  {| Logger.root := {| Logger.lg_level := 30; Logger.lg_handlers := [0%nat];
                       Logger.lg_propagate := true |};
     Logger.manager := {["app" := {| Logger.lg_level := 20;
                                     Logger.lg_handlers := [0%nat];
                                     Logger.lg_propagate := false |}]};
     Logger.heap := {[0%nat := {| Logger.h_level := 40 |}]};
     Logger._loggers := {["app"]};
     Logger._log_level := Logger.INFO |}.

(** * Properties *)

(** ** Numerics *)

Lemma Qltb_lt (x y : Q) : Qltb x y = true <-> x < y.
Proof.
  unfold Qltb. rewrite negb_true_iff. split.
  - intros H. apply Qnot_le_lt. intros Hle.
    apply Qle_bool_iff in Hle. congruence.
  - intros H. destruct (Qle_bool y x) eqn:E; [|reflexivity].
    apply Qle_bool_iff in E. lra.
Qed.

Lemma Qltb_ge (x y : Q) : Qltb x y = false <-> y <= x.
Proof.
  unfold Qltb. rewrite negb_false_iff. apply Qle_bool_iff.
Qed.

Lemma Qle_bool_lt (x y : Q) : Qle_bool x y = false <-> y < x.
Proof.
  rewrite <- Qltb_lt. unfold Qltb. rewrite negb_true_iff. reflexivity.
Qed.

Lemma py_min2_spec (a b : Q) :
  (py_min2 a b = a \/ py_min2 a b = b) /\ py_min2 a b <= a /\ py_min2 a b <= b.
Proof.
  unfold py_min2. destruct (Qltb b a) eqn:E.
  - apply Qltb_lt in E. repeat split; [by right | lra | lra].
  - apply Qltb_ge in E. repeat split; [by left | lra | lra].
Qed.

Lemma py_max2_Qmax (a b : Q) : py_max2 a b == Qmax a b.
Proof.
  unfold py_max2. destruct (Qltb a b) eqn:E.
  - apply Qltb_lt in E. symmetry. apply Q.max_r. lra.
  - apply Qltb_ge in E. symmetry. apply Q.max_l. lra.
Qed.

(** [min] returns an element of the list that is below every element. *)
Lemma py_min_elem (x : Q) (xs : list Q) : py_min x xs ∈ x :: xs.
Proof.
  unfold py_min. revert x. induction xs as [|y ys IH]; intros x; simpl.
  - apply list_elem_of_here.
  - pose proof (IH (py_min2 x y)) as H.
    destruct (py_min2_spec x y) as [[E|E] _]; rewrite E in H |- *;
      apply elem_of_cons in H as [H|H].
    + rewrite H. apply list_elem_of_here.
    + do 2 apply list_elem_of_further. exact H.
    + rewrite H. apply list_elem_of_further, list_elem_of_here.
    + do 2 apply list_elem_of_further. exact H.
Qed.

Lemma py_min_acc_le (x : Q) (xs : list Q) : py_min x xs <= x.
Proof.
  unfold py_min. revert x. induction xs as [|y ys IH]; intros x; simpl.
  - lra.
  - specialize (IH (py_min2 x y)). destruct (py_min2_spec x y) as (_ & H & _). lra.
Qed.

Lemma py_min_le (x : Q) (xs : list Q) (y : Q) : y ∈ x :: xs -> py_min x xs <= y.
Proof.
  revert x. induction xs as [|z zs IH]; intros x Hy.
  - apply list_elem_of_singleton in Hy. subst y. apply py_min_acc_le.
  - change (py_min x (z :: zs)) with (py_min (py_min2 x z) zs).
    destruct (py_min2_spec x z) as (_ & Hx & Hz).
    apply elem_of_cons in Hy as [->|Hy].
    + pose proof (py_min_acc_le (py_min2 x z) zs). lra.
    + apply elem_of_cons in Hy as [->|Hy].
      * pose proof (py_min_acc_le (py_min2 x z) zs). lra.
      * apply IH. set_solver.
Qed.

#[global] Instance round_half_even_proper : Proper (Qeq ==> eq) round_half_even.
Proof.
  intros x y E. unfold round_half_even.
  rewrite (Qfloor_comp _ _ E).
  assert (Qcompare (x - inject_Z (Qfloor y)) (1 # 2)
          = Qcompare (y - inject_Z (Qfloor y)) (1 # 2)) as ->; [|reflexivity].
  apply Qcompare_comp; [rewrite E|]; reflexivity.
Qed.

Lemma round_half_even_Z (n : Z) : round_half_even (inject_Z n) = n.
Proof.
  unfold round_half_even. rewrite Qfloor_Z.
  assert (Qcompare (inject_Z n - inject_Z n) (1 # 2) = Lt) as ->; [|reflexivity].
  apply (proj1 (Qlt_alt _ _)). lra.
Qed.

(** Rounding to three decimals leaves a number of three decimals as it is. *)
Lemma py_round3_exact (x : Q) (n : Z) : x * 1000 == inject_Z n -> py_round x 3 == x.
Proof.
  intros E. change (py_round x 3) with (round_half_even (x * inject_Z 1000) # 1000).
  change (inject_Z 1000) with 1000. rewrite E, round_half_even_Z.
  rewrite Qmake_Qdiv, <- E. change (inject_Z (Z.pos 1000)) with 1000. field.
Qed.

(** The rounded value is within half a thousandth of the argument. *)
Lemma round_half_even_near (y : Q) :
  inject_Z (round_half_even y) - 0.5 <= y <= inject_Z (round_half_even y) + 0.5.
Proof.
  unfold round_half_even.
  pose proof (Qfloor_le y) as Hlo. pose proof (Qlt_floor y) as Hhi.
  rewrite inject_Z_plus in Hhi. change (inject_Z 1) with 1 in Hhi.
  destruct (Qcompare (y - inject_Z (Qfloor y)) (1 # 2)) eqn:C.
  - apply (proj2 (Qeq_alt _ _)) in C.
    destruct (Z.even (Qfloor y)); rewrite ?inject_Z_plus;
      change (inject_Z 1) with 1; lra.
  - apply (proj2 (Qlt_alt _ _)) in C. lra.
  - apply (proj2 (Qgt_alt _ _)) in C. rewrite inject_Z_plus.
    change (inject_Z 1) with 1. lra.
Qed.

Lemma py_round3_near (x : Q) : x - 0.0005 <= py_round x 3 <= x + 0.0005.
Proof.
  change (py_round x 3) with (round_half_even (x * inject_Z 1000) # 1000).
  pose proof (round_half_even_near (x * inject_Z 1000)) as H.
  revert H. generalize (round_half_even (x * inject_Z 1000)). intros r H.
  assert (r # 1000 == inject_Z r / 1000) as E.
  { rewrite Qmake_Qdiv. reflexivity. }
  rewrite E. change (inject_Z 1000) with 1000 in H.
  split.
  - apply Qle_shift_div_l; lra.
  - apply Qle_shift_div_r; lra.
Qed.

(** The rounded value has three decimals. *)
Lemma py_round3_grid (x : Q) : exists n : Z, py_round x 3 == inject_Z n / 1000.
Proof.
  exists (round_half_even (x * inject_Z 1000)).
  change (py_round x 3) with (round_half_even (x * inject_Z 1000) # 1000).
  rewrite Qmake_Qdiv. reflexivity.
Qed.

(** The same for [round(x, 2)]. *)
Lemma py_round2_exact (x : Q) (n : Z) : x * 100 == inject_Z n -> py_round x 2 == x.
Proof.
  intros E. change (py_round x 2) with (round_half_even (x * inject_Z 100) # 100).
  change (inject_Z 100) with 100. rewrite E, round_half_even_Z.
  rewrite Qmake_Qdiv, <- E. change (inject_Z (Z.pos 100)) with 100. field.
Qed.

Lemma py_round2_near (x : Q) : x - 0.005 <= py_round x 2 <= x + 0.005.
Proof.
  change (py_round x 2) with (round_half_even (x * inject_Z 100) # 100).
  pose proof (round_half_even_near (x * inject_Z 100)) as H.
  revert H. generalize (round_half_even (x * inject_Z 100)). intros r H.
  assert (r # 100 == inject_Z r / 100) as E.
  { rewrite Qmake_Qdiv. reflexivity. }
  rewrite E. change (inject_Z 100) with 100 in H.
  split.
  - apply Qle_shift_div_l; lra.
  - apply Qle_shift_div_r; lra.
Qed.

Lemma py_round2_grid (x : Q) : exists n : Z, py_round x 2 == inject_Z n / 100.
Proof.
  exists (round_half_even (x * inject_Z 100)).
  change (py_round x 2) with (round_half_even (x * inject_Z 100) # 100).
  rewrite Qmake_Qdiv. reflexivity.
Qed.

(** ** Postprocessor: filtering, severity bands, quality score *)

Section PostprocessorFacts.

Import Postprocessor.

Lemma filter_keeps_confident (detections : list Detection) (d : Detection) :
  d ∈ _filter_detections detections <-> d ∈ detections /\ 0.7 <= confidence d.
Proof.
  unfold _filter_detections. rewrite list_elem_of_filter.
  rewrite Qle_bool_iff. unfold CONFIDENCE_THRESHOLD. tauto.
Qed.

(** The severity the bands give to a confidence, band by band; at 1.0
    and above no band holds the confidence and the default stays. *)
Lemma band_of_bands (c : Q) :
  (c < 0.7 -> band_of SEVERITY_THRESHOLDS c "minor" = "minor")
  /\ (0.7 <= c < 0.8 -> band_of SEVERITY_THRESHOLDS c "minor" = "minor")
  /\ (0.8 <= c < 0.9 -> band_of SEVERITY_THRESHOLDS c "minor" = "major")
  /\ (0.9 <= c < 1.0 -> band_of SEVERITY_THRESHOLDS c "minor" = "critical")
  /\ (1.0 <= c -> band_of SEVERITY_THRESHOLDS c "minor" = "minor").
Proof.
  unfold SEVERITY_THRESHOLDS; cbn [band_of].
  repeat match goal with
  | |- context [Qle_bool ?a ?b] =>
      let E := fresh "E" in
      destruct (Qle_bool a b) eqn:E;
      [apply Qle_bool_iff in E | apply Qle_bool_lt in E]
  | |- context [Qltb ?a ?b] =>
      let E := fresh "E" in
      destruct (Qltb a b) eqn:E; [apply Qltb_lt in E | apply Qltb_ge in E]
  end;
  cbn [andb]; repeat split; intros; try reflexivity; exfalso; lra.
Qed.

Lemma band_of_three (c : Q) :
  band_of SEVERITY_THRESHOLDS c "minor" = "minor"
  \/ band_of SEVERITY_THRESHOLDS c "minor" = "major"
  \/ band_of SEVERITY_THRESHOLDS c "minor" = "critical".
Proof.
  unfold SEVERITY_THRESHOLDS; cbn [band_of].
  repeat match goal with |- context [if ?b then _ else _] => destruct b end; auto.
Qed.

Lemma classify_classified (detections : list Detection) :
  Forall classified (_classify_severity detections).
Proof.
  unfold _classify_severity. apply Forall_forall. intros d Hd.
  apply list_elem_of_fmap in Hd as (d0 & -> & _).
  unfold classified, set_severity; cbn [severity].
  destruct (band_of_three (confidence d0)) as [E|[E|E]]; rewrite E; auto.
Qed.

Lemma count_severity_cons (sev : string) (d : Detection) (ds : list Detection) :
  count_severity sev (d :: ds)
  = ((if decide (severity d = Some sev) then 1 else 0) + count_severity sev ds)%nat.
Proof.
  unfold count_severity. rewrite filter_cons. destruct (decide _); reflexivity.
Qed.

Lemma py_sum_foldr (ws : list Q) (a : Q) : foldl Qplus a ws == a + foldr Qplus 0 ws.
Proof.
  revert a. induction ws as [|w ws IH]; intros a; simpl.
  - ring.
  - rewrite IH. ring.
Qed.

(** The penalties of a classified list: no lookup fails, and they add up
    to a tenth per minor, three per major and six per critical. *)
Lemma penalties_classified (ds : list Detection) :
  Forall classified ds ->
  exists ws,
    penalties ds = Ok ws
    /\ (count_severity "minor" ds + count_severity "major" ds
        + count_severity "critical" ds = length ds)%nat
    /\ py_sum ws == 0.1 * Qnat (count_severity "minor" ds)
                    + 0.3 * Qnat (count_severity "major" ds)
                    + 0.6 * Qnat (count_severity "critical" ds).
Proof.
  induction 1 as [|d ds Hd _ (ws & Hws & Hlen & Hsum)].
  - exists []. split; [reflexivity|]. split; reflexivity.
  - assert (exists sev, severity d = Some sev
              /\ (sev = "minor" \/ sev = "major" \/ sev = "critical"))
      as (sev & E & Hsev).
    { destruct Hd as [E|[E|E]]; eauto 6. }
    exists (weight_of sev :: ws). split.
    { cbn [penalties]. rewrite E. cbn. rewrite Hws. reflexivity. }
    rewrite !count_severity_cons, E.
    unfold py_sum in *. rewrite py_sum_foldr in Hsum. rewrite py_sum_foldr.
    cbn [foldr]. unfold Qnat in *.
    destruct Hsev as [-> | [-> | ->]];
      repeat (destruct (decide _) as [?|?]; try congruence);
      (split; [cbn [length]; lia|]);
      rewrite ?Nat2Z.inj_add, ?inject_Z_plus;
      change (Z.of_nat 1) with 1%Z; change (Z.of_nat 0) with 0%Z;
      change (inject_Z 1) with 1; change (inject_Z 0) with 0;
      change (weight_of "minor") with 0.1; change (weight_of "major") with 0.3;
      change (weight_of "critical") with 0.6; lra.
Qed.

End PostprocessorFacts.

Section QualityScore.

Import Postprocessor.

(** The score of a classified list: one minus the weighted count of its
    severities, not below zero; the rounding to three decimals changes
    nothing, the penalties being tenths. *)
Lemma quality_score_of_classified (ds : list Detection) :
  Forall classified ds ->
  exists q,
    _calculate_quality_score ds = Ok q
    /\ (count_severity "minor" ds + count_severity "major" ds
        + count_severity "critical" ds = length ds)%nat
    /\ q == Qmax 0 (1 - (0.1 * Qnat (count_severity "minor" ds)
                         + 0.3 * Qnat (count_severity "major" ds)
                         + 0.6 * Qnat (count_severity "critical" ds)))
    /\ 0 <= q <= 1.
Proof.
  intros Hcl. destruct (penalties_classified ds Hcl) as (ws & Hws & Hlen & Hsum).
  destruct ds as [|d ds'].
  { exists 1.0. split; [reflexivity|]. split; [reflexivity|].
    split; [|lra]. change (count_severity _ []) with O.
    change (Qnat 0) with 0. rewrite Q.max_r; lra. }
  remember (d :: ds') as l eqn:El.
  assert (_calculate_quality_score l
          = Ok (py_round (py_max2 0.0 (1.0 - py_sum ws)) 3)) as Hq.
  { rewrite El. unfold _calculate_quality_score. rewrite <- El, Hws. reflexivity. }
  clear El d ds'. rename l into ds.
  set (a := count_severity "minor" ds) in *.
  set (b := count_severity "major" ds) in *.
  set (c := count_severity "critical" ds) in *.
  exists (py_round (py_max2 0.0 (1.0 - py_sum ws)) 3).
  split; [exact Hq|]. split; [exact Hlen|].
  assert (0 <= Qnat a /\ 0 <= Qnat b /\ 0 <= Qnat c) as (Ha & Hb & Hc).
  { unfold Qnat. repeat split;
      (change 0 with (inject_Z 0); rewrite <- Zle_Qle; lia). }
  set (k := (Z.of_nat a + 3 * Z.of_nat b + 6 * Z.of_nat c)%Z).
  assert (py_sum ws * 10 == inject_Z k) as Hk.
  { rewrite Hsum. unfold k, Qnat.
    rewrite !inject_Z_plus, !inject_Z_mult.
    change (inject_Z 3) with 3. change (inject_Z 6) with 6. lra. }
  pose proof (py_max2_Qmax 0.0 (1.0 - py_sum ws)) as Hmax.
  assert (py_round (py_max2 0.0 (1.0 - py_sum ws)) 3
          == py_max2 0.0 (1.0 - py_sum ws)) as Hround.
  { destruct (Q.max_spec 0.0 (1.0 - py_sum ws)) as [[Hlt E]|[Hle E]].
    - apply (py_round3_exact _ (1000 - 100 * k)%Z).
      rewrite Hmax, E. unfold Zminus.
      rewrite inject_Z_plus, inject_Z_opp, inject_Z_mult, <- Hk.
      change (inject_Z 1000) with 1000. change (inject_Z 100) with 100. lra.
    - apply (py_round3_exact _ 0%Z). rewrite Hmax, E. reflexivity. }
  rewrite Hround, Hmax. split.
  - rewrite Hsum. apply Q.max_compat; lra.
  - split.
    + apply Q.max_le_iff. left. lra.
    + apply Q.max_lub; lra.
Qed.

(** C2. For every list of detections the Score stage is given, the
    quality score of the surviving, severity-classified detections is
    max(0, 1 - (0.1 per minor + 0.3 per major + 0.6 per critical)),
    every surviving detection counting once; the score lies in [0,1];
    and the empty surviving set scores exactly 1.0. *)
Theorem quality_score_formula (raw : list Detection) :
  let surviving := _classify_severity (_filter_detections raw) in
  exists q,
    _calculate_quality_score surviving = Ok q
    /\ (count_severity "minor" surviving + count_severity "major" surviving
        + count_severity "critical" surviving = length surviving)%nat
    /\ q == Qmax 0 (1 - (0.1 * Qnat (count_severity "minor" surviving)
                         + 0.3 * Qnat (count_severity "major" surviving)
                         + 0.6 * Qnat (count_severity "critical" surviving)))
    /\ 0 <= q <= 1
    /\ _calculate_quality_score [] = Ok 1.0.
Proof.
  intros surviving.
  destruct (quality_score_of_classified surviving) as (q & H1 & H2 & H3 & H4).
  { apply classify_classified. }
  exists q. repeat split; try assumption; apply H4.
Qed.

End QualityScore.

(** What the Score stage does to a detection, band by band. *)
Lemma surviving_severity (raw : list Detection) (d : Detection) :
  d ∈ Postprocessor._classify_severity (Postprocessor._filter_detections raw) ->
  0.7 <= confidence d
  /\ classified d
  /\ (confidence d < 0.8 -> severity d = Some "minor")
  /\ (0.8 <= confidence d < 0.9 -> severity d = Some "major")
  /\ (0.9 <= confidence d < 1.0 -> severity d = Some "critical")
  /\ (1.0 <= confidence d -> severity d = Some "minor").
Proof.
  intros Hd. unfold Postprocessor._classify_severity in Hd.
  apply list_elem_of_fmap in Hd as (d0 & -> & Hd0).
  apply filter_keeps_confident in Hd0 as [_ Hc].
  cbn [set_severity confidence severity].
  destruct (band_of_bands (confidence d0)) as (_ & B1 & B2 & B3 & B4).
  split; [exact Hc|]. split.
  { unfold classified; cbn [severity].
    destruct (band_of_three (confidence d0)) as [E|[E|E]]; rewrite E; auto. }
  repeat split; intros H; f_equal; auto.
Qed.

(** [process] returns the survivors, classified, with their score, as
    soon as the inference result carries its timestamp. *)
Lemma process_scores_survivors (elapsed_ms : Q) (ir : InferenceResult)
    (camera_id ts : string) :
  ir_timestamp ir = Some ts ->
  exists r q,
    Postprocessor.process elapsed_ms ir camera_id = Ok r
    /\ cr_detections r
       = Some (Postprocessor._classify_severity
                 (Postprocessor._filter_detections (default [] (ir_detections ir))))
    /\ cr_quality_score r = Some q
    /\ Postprocessor._calculate_quality_score
         (Postprocessor._classify_severity
            (Postprocessor._filter_detections (default [] (ir_detections ir)))) = Ok q
    /\ 0 <= q <= 1.
Proof.
  intros Hts. unfold Postprocessor.process.
  destruct (quality_score_of_classified
              (Postprocessor._classify_severity
                 (Postprocessor._filter_detections (default [] (ir_detections ir)))))
    as (q & Hq & _ & _ & Hrange).
  { apply classify_classified. }
  rewrite Hq, Hts. cbn. eexists _, q. repeat split; try reflexivity; apply Hrange.
Qed.

(** C3. A detection of confidence exactly 1.0 survives the filter and
    leaves the Score stage as "minor": no band of [SEVERITY_THRESHOLDS]
    holds 1.0, the upper bound of the critical band being exclusive, and
    the default severity stays. *)
Theorem confidence_one_is_minor :
  exists r,
    Postprocessor.process 1 (inference_of [raw_detection 1.0]) "CAM_01" = Ok r
    /\ cr_detections r
       = Some [set_severity (raw_detection 1.0) "minor"]
    /\ (exists q, cr_quality_score r = Some q /\ q == 0.9).
Proof.
  eexists. split; [reflexivity|]. split; [reflexivity|].
  eexists. split; reflexivity.
Qed.

(** ** Aggregator *)

Section AggregatorFacts.

Import ResultAggregator.

Lemma round_half_even_nonpos (y : Q) : y <= 0 -> (round_half_even y <= 0)%Z.
Proof.
  intros Hy. pose proof (round_half_even_near y) as [Hlo _].
  destruct (Z_le_gt_dec (round_half_even y) 0) as [H|H]; [exact H|].
  assert (1 <= round_half_even y)%Z as H1 by lia.
  rewrite Zle_Qle in H1. change (inject_Z 1) with 1 in H1. lra.
Qed.

Lemma py_round3_nonpos (x : Q) : x <= 0 -> py_round x 3 <= 0.
Proof.
  intros Hx. change (py_round x 3) with (round_half_even (x * inject_Z 1000) # 1000).
  assert (round_half_even (x * inject_Z 1000) <= 0)%Z as H.
  { apply round_half_even_nonpos. change (inject_Z 1000) with 1000. lra. }
  unfold Qle; simpl. lia.
Qed.

Lemma scores_of_elem (m : gmap string CameraResult) (q : Q) :
  q ∈ scores_of m <-> exists k res, m !! k = Some res /\ score_of res = q.
Proof.
  unfold scores_of. rewrite list_elem_of_fmap. split.
  - intros ([k res] & -> & H). apply elem_of_map_to_list in H. eauto.
  - intros (k & res & H & <-). exists (k, res). split; [reflexivity|].
    by apply elem_of_map_to_list.
Qed.

Lemma scores_of_nonempty (m : gmap string CameraResult) :
  m ≠ ∅ -> scores_of m ≠ [].
Proof.
  intros Hm E. apply Hm. apply map_to_list_empty_iff.
  unfold scores_of in E. by apply fmap_nil_inv in E.
Qed.

Lemma aggregated_score_lowest (m : gmap string CameraResult) :
  m ≠ ∅ -> lowest_score m (_calculate_aggregated_score (scores_of m)).
Proof.
  intros Hm. pose proof (scores_of_nonempty m Hm) as Hne.
  pose proof (scores_of_elem m) as Hel.
  destruct (scores_of m) as [|x xs]; [congruence|].
  cbn [_calculate_aggregated_score]. split.
  - apply Hel, py_min_elem.
  - intros k res Hk. apply py_min_le, Hel. eauto.
Qed.

(** The record [aggregate] returns for a non-empty mapping. *)
Lemma aggregate_nonempty (m : gmap string CameraResult) :
  m ≠ ∅ ->
  exists r,
    aggregate m = Ok r
    /\ ar_aggregated_score r = py_round (_calculate_aggregated_score (scores_of m)) 3
    /\ ar_decision r
       = (if Qle_bool PASS_THRESHOLD (_calculate_aggregated_score (scores_of m))
          then "PASS" else "FAIL")
    /\ ar_camera_summaries r = summary_of <$> m
    /\ ar_cameras_used r = size m.
Proof.
  intros Hm. unfold aggregate. destruct (decide (m = ∅)) as [E|_]; [done|].
  eexists. split; [reflexivity|]. repeat split.
Qed.

End AggregatorFacts.

Section AggregatorClaims.

Import ResultAggregator.

(** C1. For every non-empty mapping the aggregator takes the smallest
    of the per-device scores: the returned aggregated_score is that
    minimum rounded to three decimals, that is a number of three decimals
    at most 0.0005 away from the minimum, and the minimum itself when it
    has no more than three decimals (which neighbour is returned for a
    minimum that lies exactly halfway between two is left open); the
    decision is PASS exactly when the minimum, before rounding, is at
    least 0.75; otherwise it is FAIL. *)
Theorem aggregate_minimum_and_decision (m : gmap string CameraResult) :
  m ≠ ∅ ->
  exists r lowest,
    aggregate m = Ok r
    /\ lowest_score m lowest
    /\ (exists n : Z, ar_aggregated_score r == inject_Z n / 1000)
    /\ lowest - 0.0005 <= ar_aggregated_score r <= lowest + 0.0005
    /\ (forall n : Z, lowest * 1000 == inject_Z n -> ar_aggregated_score r == lowest)
    /\ (ar_decision r = "PASS" <-> 0.75 <= lowest)
    /\ (ar_decision r = "FAIL" <-> lowest < 0.75).
Proof.
  intros Hm.
  destruct (aggregate_nonempty m Hm) as (r & Hr & Hscore & Hdec & _).
  exists r, (_calculate_aggregated_score (scores_of m)).
  split; [exact Hr|]. split; [by apply aggregated_score_lowest|].
  rewrite Hscore, Hdec. split; [apply py_round3_grid|].
  split; [apply py_round3_near|].
  split; [intros n Hn; by apply (py_round3_exact _ n)|].
  unfold PASS_THRESHOLD.
  destruct (Qle_bool 0.75 (_calculate_aggregated_score (scores_of m))) eqn:E.
  - apply Qle_bool_iff in E. split; split; try done. intros; lra.
  - apply Qle_bool_lt in E. split; split; try done. intros; lra.
Qed.

Lemma aggregate_minimum_and_decision_witness :
  results_09_06 ≠ ∅
  /\ exists r lowest,
      aggregate results_09_06 = Ok r
      /\ lowest_score results_09_06 lowest
      /\ (exists n : Z, ar_aggregated_score r == inject_Z n / 1000)
      /\ lowest - 0.0005 <= ar_aggregated_score r <= lowest + 0.0005
      /\ (forall n : Z, lowest * 1000 == inject_Z n -> ar_aggregated_score r == lowest)
      /\ (ar_decision r = "PASS" <-> 0.75 <= lowest)
      /\ (ar_decision r = "FAIL" <-> lowest < 0.75).
Proof.
  assert (results_09_06 ≠ ∅) as H by (unfold results_09_06; apply insert_non_empty).
  split; [exact H|]. exact (aggregate_minimum_and_decision results_09_06 H).
Defined.

(** A lone device scoring 0.74999: the minimum is 0.74999 and the cycle
    fails, yet the aggregated_score handed back is 0.75. *)
Lemma aggregate_returns_rounded_score :
  exists r,
    aggregate results_074999 = Ok r
    /\ lowest_score results_074999 0.74999
    /\ ar_aggregated_score r == 0.75
    /\ ~ ar_aggregated_score r == 0.74999
    /\ ar_decision r = "FAIL".
Proof.
  eexists. split; [vm_compute; reflexivity|]. split.
  { split.
    - exists "CAM_01", (camera_result "CAM_01" (Some 0.74999) []).
      split; [apply lookup_singleton_eq | reflexivity].
    - intros k res H. unfold results_074999 in H.
      apply lookup_singleton_Some in H as [_ <-].
      cbn. lra. }
  split; [reflexivity|]. split; [|reflexivity].
  intros H. vm_compute in H. discriminate H.
Qed.

(** C6. [aggregate] raises its [ValueError] exactly on the empty mapping
    and returns a result exactly on the non-empty ones. *)
Theorem aggregate_raises_iff_empty (m : gmap string CameraResult) :
  (aggregate m = Raise (ValueError "No camera results to aggregate") <-> m = ∅)
  /\ ((exists e, aggregate m = Raise e) <-> m = ∅)
  /\ (is_Ok (aggregate m) <-> m ≠ ∅).
Proof.
  unfold aggregate, is_Ok. destruct (decide (m = ∅)) as [E|E].
  - repeat split; try done; eauto.
    + intros [a Ha]. discriminate Ha.
  - repeat split; try done; eauto.
    + intros [e He]. discriminate He.
Qed.

(** C9. In a non-empty mapping an entry without "quality_score" counts
    as the score 0.0: no error is raised, the summary of that device
    shows the score 0.0, the decision is FAIL and the overall score is
    not above 0.0; it is 0.0, the minimum, when no other entry carries a
    negative score. *)
Theorem missing_score_counts_as_zero (m : gmap string CameraResult)
    (k : string) (res : CameraResult) :
  m !! k = Some res ->
  cr_quality_score res = None ->
  exists r,
    aggregate m = Ok r
    /\ cs_score <$> (ar_camera_summaries r !! k) = Some 0.0
    /\ ar_decision r = "FAIL"
    /\ ar_aggregated_score r <= 0
    /\ ((forall k' res', m !! k' = Some res' -> 0 <= score_of res') ->
        ar_aggregated_score r == 0 /\ lowest_score m 0.0).
Proof.
  intros Hk Hnone.
  assert (m ≠ ∅) as Hm.
  { intros ->. by rewrite lookup_empty in Hk. }
  assert (score_of res = 0.0) as Hzero.
  { unfold score_of. by rewrite Hnone. }
  destruct (aggregate_nonempty m Hm) as (r & Hr & Hscore & Hdec & Hsum & _).
  destruct (aggregated_score_lowest m Hm) as [(k0 & res0 & Hk0 & Hlow0) Hlow].
  pose proof (Hlow k res Hk) as Hle. rewrite Hzero in Hle.
  exists r. split; [exact Hr|]. split.
  { rewrite Hsum, lookup_fmap, Hk. cbn. by rewrite Hzero. }
  split.
  { rewrite Hdec. unfold PASS_THRESHOLD.
    destruct (Qle_bool 0.75 _) eqn:E; [|reflexivity].
    apply Qle_bool_iff in E. lra. }
  split.
  { rewrite Hscore. apply py_round3_nonpos. lra. }
  intros Hpos. pose proof (Hpos k0 res0 Hk0) as H0. rewrite Hlow0 in H0.
  assert (_calculate_aggregated_score (scores_of m) == 0) as E by lra.
  split.
  - rewrite Hscore.
    rewrite (py_round3_exact _ 0%Z); [exact E|]. rewrite E. reflexivity.
  - split.
    + exists k, res. split; [exact Hk | exact Hzero].
    + intros k' res' Hk'. pose proof (Hpos k' res' Hk'). lra.
Qed.

Lemma missing_score_counts_as_zero_witness :
  results_unscored !! "CAM_01" = Some (camera_result "CAM_01" None [])
  /\ cr_quality_score (camera_result "CAM_01" None []) = None
  /\ exists r,
      aggregate results_unscored = Ok r
      /\ cs_score <$> (ar_camera_summaries r !! "CAM_01") = Some 0.0
      /\ ar_decision r = "FAIL"
      /\ ar_aggregated_score r <= 0
      /\ ((forall k' res', results_unscored !! k' = Some res' -> 0 <= score_of res') ->
          ar_aggregated_score r == 0 /\ lowest_score results_unscored 0.0).
Proof.
  assert (results_unscored !! "CAM_01" = Some (camera_result "CAM_01" None []))
    as H by (unfold results_unscored; apply lookup_insert_eq).
  split; [exact H|]. split; [reflexivity|].
  exact (missing_score_counts_as_zero results_unscored "CAM_01" _ H eq_refl).
Defined.

(** Beside a device that scores -0.5, the device without a score still
    counts as 0.0 in its summary, but the overall score is -0.5, the
    minimum, and not 0.0. *)
Lemma missing_score_beside_negative_score :
  results_unscored_negative !! "CAM_01" = Some (camera_result "CAM_01" None [])
  /\ cr_quality_score (camera_result "CAM_01" None []) = None
  /\ exists r,
      aggregate results_unscored_negative = Ok r
      /\ cs_score <$> (ar_camera_summaries r !! "CAM_01") = Some 0.0
      /\ ar_aggregated_score r == -0.5
      /\ ~ ar_aggregated_score r == 0.0
      /\ lowest_score results_unscored_negative (-0.5)
      /\ ar_decision r = "FAIL".
Proof.
  split; [unfold results_unscored_negative; apply lookup_insert_eq|].
  split; [reflexivity|].
  eexists. split; [vm_compute; reflexivity|].
  split; [vm_compute; reflexivity|].
  split; [reflexivity|]. split; [intros H; vm_compute in H; discriminate H|].
  split; [|reflexivity]. split.
  - exists "CAM_02", (camera_result "CAM_02" (Some (-0.5)) []). split; [|reflexivity].
    unfold results_unscored_negative. rewrite lookup_insert_ne by done.
    apply lookup_singleton_eq.
  - intros k res H. unfold results_unscored_negative in H.
    apply lookup_insert_Some in H as [[_ <-]|[_ H]].
    + cbn. lra.
    + apply lookup_singleton_Some in H as [_ <-]. cbn. lra.
Qed.

End AggregatorClaims.

(** ** Metrics *)

Section MetricsFacts.

Import MetricsCollector.

Lemma record_failures_total (n : nat) (self : t) :
  total_failures (record_failures n self) = (total_failures self + n)%nat
  /\ decisions (record_failures n self) = decisions self.
Proof.
  unfold record_failures. induction n as [|n [IH1 IH2]]; simpl.
  - split; [lia | reflexivity].
  - rewrite IH1. split; [lia | exact IH2].
Qed.

Lemma count_pass_fail (ds : list string) :
  Forall (fun d => d = "PASS" \/ d = "FAIL") ds ->
  (count "PASS" ds + count "FAIL" ds = length ds)%nat.
Proof.
  unfold count. induction 1 as [|d ds Hd _ IH]; [reflexivity|].
  rewrite !filter_cons.
  destruct Hd as [-> | ->];
    repeat (destruct (decide _) as [?|?]; try congruence); simpl; lia.
Qed.

(** Once a cycle has been recorded the summary is consistent: every
    recorded cycle counts as successful, the cycles split into PASS and
    FAIL, and failed_cycles is the number of recorded failures, which
    enter neither total_cycles nor the pass rate. *)
Lemma summary_after_a_cycle (self : t) :
  decisions self <> [] ->
  Forall (fun d => d = "PASS" \/ d = "FAIL") (decisions self) ->
  let s := get_summary self in
  sm_total_cycles s = length (decisions self)
  /\ sm_successful_cycles s = sm_total_cycles s
  /\ (sm_pass_count s + sm_fail_count s = sm_total_cycles s)%nat
  /\ sm_failed_cycles s = total_failures self
  /\ (forall n, let s' := get_summary (record_failures n self) in
        sm_failed_cycles s' = (sm_failed_cycles s + n)%nat
        /\ sm_total_cycles s' = sm_total_cycles s
        /\ sm_successful_cycles s' = sm_successful_cycles s
        /\ sm_pass_rate s' = sm_pass_rate s).
Proof.
  intros Hne Hpf. unfold get_summary.
  destruct (decisions self) as [|d ds] eqn:E; [done|].
  cbn [length]. cbn -[count].
  split; [reflexivity|]. split; [reflexivity|].
  split; [exact (count_pass_fail (d :: ds) Hpf)|].
  split; [reflexivity|].
  intros n. destruct (record_failures_total n self) as [H1 H2].
  rewrite H2, E. cbn -[count]. rewrite H1. repeat split.
Qed.

(** C10. On a collector that has recorded failures but no completed
    cycle, the summary shows failed_cycles = 0: [get_summary] returns
    the empty summary as soon as there is no decision, whatever the
    number of failures recorded. *)
Theorem failures_lost_without_cycles (n : nat) :
  total_failures (record_failures n __init__) = n
  /\ get_summary (record_failures n __init__) = _empty_summary
  /\ sm_failed_cycles (get_summary (record_failures n __init__)) = O.
Proof.
  destruct (record_failures_total n __init__) as [H1 H2].
  split; [exact H1|].
  assert (get_summary (record_failures n __init__) = _empty_summary) as E.
  { unfold get_summary. rewrite H2. reflexivity. }
  rewrite E. split; reflexivity.
Qed.

End MetricsFacts.

(** ** [record_failure] under threads *)

Section MetricsLockFacts.

Import MetricsLock.

Lemma sum_list_with_insert {A} (f : A -> nat) (l : list A) (i : nat) (x y : A) :
  l !! i = Some x ->
  (sum_list_with f (<[i := y]> l) + f x = sum_list_with f l + f y)%nat.
Proof.
  revert i. induction l as [|a l IH]; intros [|i] H; simpl in *; try done.
  - injection H as ->. lia.
  - specialize (IH i H). lia.
Qed.

Lemma sum_list_with_two {A} (f : A -> nat) (l : list A) (i j : nat) (x y : A) :
  i <> j -> l !! i = Some x -> l !! j = Some y ->
  (f x + f y <= sum_list_with f l)%nat.
Proof.
  revert i j. induction l as [|a l IH]; intros [|i] [|j] Hij Hi Hj;
    simpl in *; try done.
  - injection Hi as ->. apply list_elem_of_lookup_2 in Hj.
    pose proof (sum_list_with_in _ f _ Hj). lia.
  - injection Hj as ->. apply list_elem_of_lookup_2 in Hi.
    pose proof (sum_list_with_in _ f _ Hi). lia.
  - assert (i <> j) as Hij' by lia. specialize (IH i j Hij' Hi Hj). lia.
Qed.

Lemma sum_list_with_all_done (ths : list Pc) :
  Forall (fun pc => pc = Done) ths -> sum_list_with written ths = length ths.
Proof.
  induction 1 as [|pc ths -> _ IH]; simpl; [reflexivity | by rewrite IH].
Qed.

Lemma step_length (i : nat) (st : State) : length (snd (step i st)) = length (snd st).
Proof.
  unfold step. destruct (snd st !! i) as [pc|]; [|reflexivity].
  destruct (thread_step (fst st) pc) as [[s' pc']|]; [|reflexivity].
  simpl. apply length_insert.
Qed.

Lemma run_length (schedule : list nat) (st : State) :
  length (snd (run schedule st)) = length (snd st).
Proof.
  unfold run. revert st. induction schedule as [|i sch IH]; intros st; simpl.
  - reflexivity.
  - rewrite IH. apply step_length.
Qed.

Lemma init_invariant (n P : nat) : invariant n (init n P).
Proof.
  unfold invariant, init; simpl. split; [|split].
  - induction P as [|P IH]; simpl; lia.
  - induction P as [|P IH]; simpl; [reflexivity | exact IH].
  - intros j tmp H. apply lookup_replicate in H as [H _]. discriminate H.
Qed.

(** Whichever thread runs next, the invariant stays. *)
Lemma step_invariant (n i : nat) (st : State) :
  invariant n st -> invariant n (step i st).
Proof.
  destruct st as [s ths]. intros (Htot & Hin & Hst). simpl in *.
  unfold step; simpl. destruct (ths !! i) as [pc|] eqn:Hi; [|by repeat split].
  pose proof (sum_list_with_insert written ths i pc) as Hw.
  pose proof (sum_list_with_insert inside ths i pc) as Hc.
  assert (inside pc = 1%nat -> lock_held s = true) as Hheld.
  { intros Hpc. pose proof (sum_list_with_in _ inside _ (list_elem_of_lookup_2 _ _ _ Hi)).
    destruct (lock_held s); [reflexivity | lia]. }
  assert (forall j tmp, inside pc = 1%nat -> ths !! j = Some (AtStore tmp) -> j = i)
    as Halone.
  { intros j tmp Hpc Hj. destruct (decide (j = i)) as [|Hne]; [done|].
    pose proof (sum_list_with_two inside ths j i _ _ Hne Hj Hi) as H2.
    simpl in H2. destruct (lock_held s); lia. }
  assert (forall pc' j tmp,
            pc' <> AtStore tmp ->
            <[i := pc']> ths !! j = Some (AtStore tmp) ->
            ths !! j = Some (AtStore tmp)) as Hother.
  { intros pc' j tmp Hpc' Hj. destruct (decide (j = i)) as [->|Hne].
    - rewrite list_lookup_insert_eq in Hj by (by eapply lookup_lt_Some). congruence.
    - rewrite list_lookup_insert_ne in Hj by done. auto. }
  destruct pc as [| |tmp| |]; simpl.
  - destruct (lock_held s) eqn:Hl; unfold invariant; simpl.
    { rewrite Hl. by repeat split. }
    specialize (Hw AtLoad Hi). specialize (Hc AtLoad Hi). simpl in *.
    split; [lia|]. split; [lia|].
    intros j tmp Hj. apply Hother in Hj; [eauto | done].
  - specialize (Hw (AtStore (total_failures s)) Hi).
    specialize (Hc (AtStore (total_failures s)) Hi).
    unfold invariant; simpl in *.
    split; [lia|]. split; [lia|].
    intros j tmp Hj. destruct (decide (j = i)) as [->|Hne].
    + rewrite list_lookup_insert_eq in Hj by (by eapply lookup_lt_Some).
      by injection Hj as <-.
    + rewrite list_lookup_insert_ne in Hj by done. eauto.
  - specialize (Hw AtRelease Hi). specialize (Hc AtRelease Hi).
    pose proof (Hst i tmp Hi) as ->.
    unfold invariant; simpl in *.
    split; [lia|]. split; [lia|].
    intros j tmp' Hj. destruct (decide (j = i)) as [->|Hne].
    + rewrite list_lookup_insert_eq in Hj by (by eapply lookup_lt_Some). done.
    + rewrite list_lookup_insert_ne in Hj by done.
      exfalso. apply Hne. by eapply Halone.
  - specialize (Hw Done Hi). specialize (Hc Done Hi).
    unfold invariant; simpl in *.
    rewrite (Hheld eq_refl) in Hin.
    split; [lia|]. split; [lia|].
    intros j tmp Hj. apply Hother in Hj; [eauto | done].
  - unfold invariant; simpl. by repeat split.
Qed.

Lemma run_invariant (n : nat) (schedule : list nat) (st : State) :
  invariant n st -> invariant n (run schedule st).
Proof.
  unfold run. revert st. induction schedule as [|i sch IH]; intros st H; simpl.
  - exact H.
  - apply IH, step_invariant, H.
Qed.

End MetricsLockFacts.

Section MetricsLockClaims.

Import MetricsLock.

Lemma step_middle (s : Shared) (before after : list Pc) (pc : Pc) :
  step (length before) (s, before ++ pc :: after)
  = match thread_step s pc with
    | Some (s', pc') => (s', before ++ pc' :: after)
    | None => (s, before ++ pc :: after)
    end.
Proof.
  unfold step; simpl. rewrite list_lookup_middle by reflexivity.
  destruct (thread_step s pc) as [[s' pc']|]; [|reflexivity].
  f_equal. induction before as [|b before IH]; simpl; [reflexivity|].
  by rewrite IH.
Qed.

(** One thread, left alone, goes through the whole of [record_failure]. *)
Lemma run_one_thread (t : nat) (before after : list Pc) :
  run (replicate 4 (length before))
      ({| lock_held := false; total_failures := t |}, before ++ AtAcquire :: after)
  = ({| lock_held := false; total_failures := t + 1 |}, before ++ Done :: after).
Proof.
  unfold run; cbn [replicate foldl].
  do 4 (rewrite step_middle; cbn [thread_step lock_held total_failures]).
  reflexivity.
Qed.

Lemma run_app (sch1 sch2 : list nat) (st : State) :
  run (sch1 ++ sch2) st = run sch2 (run sch1 st).
Proof. unfold run. apply foldl_app. Qed.

Lemma run_sequential_from (j : nat) (t : nat) (before : list Pc) :
  run (flat_map (fun i => [i; i; i; i]) (seq (length before) j))
      ({| lock_held := false; total_failures := t |}, before ++ replicate j AtAcquire)
  = ({| lock_held := false; total_failures := t + j |}, before ++ replicate j Done).
Proof.
  revert t before. induction j as [|j IH]; intros t before.
  - simpl. by rewrite Nat.add_0_r.
  - cbn [seq flat_map replicate]. rewrite run_app.
    pose proof (run_one_thread t before (replicate j AtAcquire)) as H1.
    cbn [replicate] in H1. rewrite H1.
    specialize (IH (t + 1)%nat (before ++ [Done])).
    rewrite length_app, Nat.add_1_r in IH. rewrite <- !app_assoc in IH.
    cbn [app] in IH. rewrite IH. do 2 f_equal. lia.
Qed.

Lemma run_sequential (n P : nat) :
  run (sequential P) (init n P)
  = ({| lock_held := false; total_failures := n + P |}, replicate P Done).
Proof. exact (run_sequential_from P n []). Qed.

(** C8. [P] threads call [record_failure] at once on a collector.
    Whatever the order in which their steps interleave, once all [P]
    calls have returned the counter has grown by exactly [P], as after
    [P] calls made one after the other; on a fresh collector it reads
    [P].  Some interleaving lets all of them return. *)
Theorem no_failure_count_lost (c : MetricsCollector.t) (P : nat) :
  (forall schedule,
      all_done (run schedule (init (MetricsCollector.total_failures c) P)) ->
      total_failures (fst (run schedule (init (MetricsCollector.total_failures c) P)))
      = (MetricsCollector.total_failures c + P)%nat
      /\ total_failures (fst (run schedule (init (MetricsCollector.total_failures c) P)))
         = MetricsCollector.total_failures (MetricsCollector.record_failures P c))
  /\ (forall schedule,
        all_done (run schedule (init O P)) ->
        total_failures (fst (run schedule (init O P))) = P)
  /\ (exists schedule,
        all_done (run schedule (init (MetricsCollector.total_failures c) P))).
Proof.
  assert (forall n schedule,
            all_done (run schedule (init n P)) ->
            total_failures (fst (run schedule (init n P))) = (n + P)%nat) as Hmain.
  { intros n schedule Hdone.
    destruct (run_invariant n schedule (init n P) (init_invariant n P)) as (Htot & _).
    rewrite Htot, (sum_list_with_all_done _ Hdone), run_length.
    unfold init; simpl. by rewrite length_replicate. }
  split; [|split].
  - intros schedule Hdone. rewrite (Hmain _ _ Hdone).
    split; [reflexivity|].
    by destruct (record_failures_total P c) as [-> _].
  - intros schedule Hdone. by rewrite (Hmain _ _ Hdone).
  - exists (sequential P). rewrite run_sequential. unfold all_done; simpl.
    apply Forall_forall. intros pc Hpc.
    by apply elem_of_replicate in Hpc as [-> _].
Qed.

(** Two threads whose steps alternate; the second waits while the first
    holds the lock. *)
Lemma no_failure_count_lost_witness :
  all_done (run [0; 1; 0; 1; 0; 1; 0; 1; 1; 1; 1]%nat
                (init (MetricsCollector.total_failures MetricsCollector.__init__) 2))
  /\ total_failures
       (fst (run [0; 1; 0; 1; 0; 1; 0; 1; 1; 1; 1]%nat
                 (init (MetricsCollector.total_failures MetricsCollector.__init__) 2)))
     = (MetricsCollector.total_failures MetricsCollector.__init__ + 2)%nat.
Proof.
  assert (all_done (run [0; 1; 0; 1; 0; 1; 0; 1; 1; 1; 1]%nat
                        (init (MetricsCollector.total_failures
                                 MetricsCollector.__init__) 2))) as H.
  { vm_compute. repeat constructor. }
  split; [exact H|].
  exact (proj1 (proj1 (no_failure_count_lost MetricsCollector.__init__ 2) _ H)).
Defined.

(** Without the lock the same two threads can both read the counter
    before either writes it, and one increment is lost. *)
Lemma unlocked_increment_loses_a_count :
  run_unlocked [0; 0; 1; 1; 0; 0; 1; 1]%nat (init O 2)
  = ({| lock_held := false; total_failures := 1 |}, [Done; Done]).
Proof. reflexivity. Qed.

End MetricsLockClaims.

(** ** Retry wrapper *)

Section RetryWrapper.

Import InspectionController.

Lemma capture_camera_id (camera : Camera.t) :
  Camera.camera_id (fst (Camera.capture camera)) = Camera.camera_id camera.
Proof. unfold Camera.capture. destruct (Qltb _ _); reflexivity. Qed.

Lemma capture_calls (camera : Camera.t) :
  Camera.calls (fst (Camera.capture camera)) = S (Camera.calls camera).
Proof. unfold Camera.capture. destruct (Qltb _ _); reflexivity. Qed.

Lemma after_succ_r (n : nat) (camera : Camera.t) :
  Camera.after (S n) camera = Camera.after n (fst (Camera.capture camera)).
Proof. unfold Camera.after. by rewrite Nat.iter_succ_r. Qed.

Lemma after_calls (n : nat) (camera : Camera.t) :
  Camera.calls (Camera.after n camera) = (Camera.calls camera + n)%nat
  /\ Camera.camera_id (Camera.after n camera) = Camera.camera_id camera.
Proof.
  induction n as [|n [IH1 IH2]]; [split; [simpl; lia | reflexivity]|].
  change (Camera.after (S n) camera)
    with (fst (Camera.capture (Camera.after n camera))).
  rewrite capture_calls, capture_camera_id, IH1, IH2. split; [lia | reflexivity].
Qed.

Lemma attempt_succ (camera : Camera.t) (i : nat) :
  attempt (fst (Camera.capture camera)) i = attempt camera (S i).
Proof. unfold attempt. by rewrite after_succ_r. Qed.

Lemma attempts_succ (camera_id : string) (n : nat) :
  attempts camera_id (S (S n))
  = EvCapture camera_id :: EvSleep 0.05 :: attempts camera_id (S n).
Proof. reflexivity. Qed.

(** The loop with [n] turns left when the first [k] attempts fail and
    the next one captures. *)
Lemma retry_loop_succeeds (max_retries : Z) (frame : Frame) (k : nat) :
  forall (n : nat) (attempt_no : Z) (camera : Camera.t),
    (Z.of_nat n + attempt_no = max_retries)%Z ->
    (k < n)%nat ->
    (forall i, (i < k)%nat -> fails camera i) ->
    attempt camera k = Ok frame ->
    retry_loop n attempt_no max_retries camera
    = (Camera.after (S k) camera, attempts (Camera.camera_id camera) (S k),
       Ok (Some frame)).
Proof.
  induction k as [|k IH]; intros n attempt_no camera Hn Hk Hfail Hok;
    destruct n as [|n]; try lia; cbn [retry_loop].
  - unfold attempt in Hok. cbn in Hok.
    change (Camera.after 1 camera) with (fst (Camera.capture camera)).
    destruct (Camera.capture camera) as [camera' r]; cbn in *. by subst r.
  - destruct (Hfail O ltac:(lia)) as [e He]. unfold attempt in He. cbn in He.
    pose proof (capture_camera_id camera) as Hid.
    rewrite after_succ_r. destruct (Camera.capture camera) as [camera' r] eqn:Ecap.
    cbn in He, Hid |- *. subst r.
    assert ((attempt_no <? max_retries - 1)%Z = true) as -> by lia.
    rewrite (IH n (attempt_no + 1)%Z camera').
    + rewrite Hid. reflexivity.
    + lia.
    + lia.
    + intros i Hi. unfold fails.
      replace camera' with (fst (Camera.capture camera)) by by rewrite Ecap.
      rewrite attempt_succ. apply Hfail. lia.
    + replace camera' with (fst (Camera.capture camera)) by by rewrite Ecap.
      by rewrite attempt_succ.
Qed.

(** The loop with [n] turns left when every attempt fails. *)
Lemma retry_loop_exhausted (max_retries : Z) :
  forall (n : nat) (attempt_no : Z) (camera : Camera.t),
    (Z.of_nat n + attempt_no = max_retries)%Z ->
    (forall i, (i < n)%nat -> fails camera i) ->
    retry_loop n attempt_no max_retries camera
    = (Camera.after n camera, attempts (Camera.camera_id camera) n, Ok None).
Proof.
  induction n as [|n IH]; intros attempt_no camera Hn Hfail; cbn [retry_loop].
  - reflexivity.
  - destruct (Hfail O ltac:(lia)) as [e He]. unfold attempt in He. cbn in He.
    pose proof (capture_camera_id camera) as Hid.
    rewrite after_succ_r. destruct (Camera.capture camera) as [camera' r] eqn:Ecap.
    cbn in He, Hid |- *. subst r.
    destruct n as [|n].
    + assert ((attempt_no <? max_retries - 1)%Z = false) as -> by lia.
      reflexivity.
    + assert ((attempt_no <? max_retries - 1)%Z = true) as -> by lia.
      rewrite (IH (attempt_no + 1)%Z camera').
      * rewrite Hid. reflexivity.
      * lia.
      * intros i Hi. unfold fails.
        replace camera' with (fst (Camera.capture camera)) by by rewrite Ecap.
        rewrite attempt_succ. apply Hfail. lia.
Qed.

End RetryWrapper.

Section RetryWrapperClaims.

Import InspectionController.

Lemma attempts_shape (camera_id : string) (n : nat) :
  captures_in (attempts camera_id n) = n
  /\ sleeps_in (attempts camera_id n) = replicate (n - 1) 0.05.
Proof.
  induction n as [|[|n] [IH1 IH2]]; [by split | by split |].
  rewrite attempts_succ. unfold captures_in, sleeps_in in *.
  cbn [omap list_omap length]. rewrite IH1. split; [reflexivity|].
  rewrite IH2. cbn [Nat.sub]. by rewrite Nat.sub_0_r.
Qed.

(** C4. A camera whose attempts 1..k-1 fail and whose attempt k
    captures, k being within the maximum, gives that capture after k
    calls; a camera whose every attempt fails is called the maximum
    number of times and gives None, not an exception.  In both cases
    two consecutive calls are separated by one sleep of 50 ms. *)
Theorem capture_with_retry_bounded (camera : Camera.t) (max_retries : Z) :
  (forall (k : nat) (frame : Frame),
      (1 <= k)%nat -> (Z.of_nat k <= max_retries)%Z ->
      (forall i, (i < k - 1)%nat -> fails camera i) ->
      attempt camera (k - 1) = Ok frame ->
      _capture_with_retry camera max_retries
      = (Camera.after k camera, attempts (Camera.camera_id camera) k,
         Ok (Some frame)))
  /\ ((forall i, (Z.of_nat i < max_retries)%Z -> fails camera i) ->
      _capture_with_retry camera max_retries
      = (Camera.after (Z.to_nat max_retries) camera,
         attempts (Camera.camera_id camera) (Z.to_nat max_retries), Ok None)
      /\ Camera.calls (Camera.after (Z.to_nat max_retries) camera)
         = (Camera.calls camera + Z.to_nat max_retries)%nat
      /\ captures_in (attempts (Camera.camera_id camera) (Z.to_nat max_retries))
         = Z.to_nat max_retries
      /\ sleeps_in (attempts (Camera.camera_id camera) (Z.to_nat max_retries))
         = replicate (Z.to_nat max_retries - 1) 0.05).
Proof.
  unfold _capture_with_retry. split.
  - intros k frame Hk Hmax Hfail Hok. destruct k as [|k]; [lia|].
    cbn [Nat.sub] in *. rewrite Nat.sub_0_r in *.
    apply retry_loop_succeeds; [lia | lia | exact Hfail | exact Hok].
  - intros Hfail. split; [|split; [apply after_calls | apply attempts_shape]].
    destruct (Z_le_gt_dec max_retries 0) as [Hle|Hgt].
    + replace (Z.to_nat max_retries) with O by lia. reflexivity.
    + apply retry_loop_exhausted; [lia|]. intros i Hi. apply Hfail. lia.
Qed.

(** With the default of three attempts: a camera that fails twice and
    then captures, and a camera that always fails. *)
Lemma capture_with_retry_bounded_witness :
  _capture_with_retry (camera_third_time "CAM_01") default_max_retries
  = (Camera.after 3 (camera_third_time "CAM_01"),
     [EvCapture "CAM_01"; EvSleep 0.05; EvCapture "CAM_01"; EvSleep 0.05;
      EvCapture "CAM_01"],
     Ok (Some {| fr_camera_id := "CAM_01"; fr_timestamp := "2024-01-01T00:00:00Z";
                 fr_frame_number := 1; fr_resolution := (1920, 1080)%Z |}))
  /\ _capture_with_retry (camera_drawing "CAM_02" 0.01) default_max_retries
     = (Camera.after 3 (camera_drawing "CAM_02" 0.01),
        [EvCapture "CAM_02"; EvSleep 0.05; EvCapture "CAM_02"; EvSleep 0.05;
         EvCapture "CAM_02"],
        Ok None).
Proof.
  split.
  - apply (proj1 (capture_with_retry_bounded (camera_third_time "CAM_01")
                    default_max_retries) 3%nat).
    + lia.
    + unfold default_max_retries; lia.
    + intros [|[|i]] Hi; [eexists; reflexivity | eexists; reflexivity | simpl in Hi; lia].
    + reflexivity.
  - apply (proj2 (capture_with_retry_bounded (camera_drawing "CAM_02" 0.01)
                    default_max_retries)).
    intros [|[|[|i]]] Hi; [eexists; reflexivity | eexists; reflexivity
                           | eexists; reflexivity
                           | unfold default_max_retries in Hi; lia].
Defined.

End RetryWrapperClaims.

(** ** Pipeline stage *)

Section PipelineStage.

Import InspectionController.

Context (preprocessor_process : Frame -> Result Preprocessed).
Context (inference_engine_infer : Preprocessed -> string -> Result InferenceResult).
Context (env : Env).

#[local] Abbreviation single_frame :=
  (_process_single_frame preprocessor_process inference_engine_infer env).
#[local] Abbreviation collect :=
  (collect_result preprocessor_process inference_engine_infer env).

(** Whatever the schedule, [as_completed] yields every item once. *)
Lemma as_completed_perm {A} (schedule : list nat) (pending : list A) :
  as_completed schedule pending ≡ₚ pending.
Proof.
  revert pending. induction schedule as [|i schedule IH]; intros pending; simpl.
  - reflexivity.
  - destruct (pending !! (i mod length pending)%nat) as [x|] eqn:E; [|reflexivity].
    rewrite IH. symmetry. by apply delete_Permutation.
Qed.

(** A device that is not among the tasks keeps the entry it had. *)
Lemma collect_other (tasks : list (string * Frame)) (acc : gmap string CameraResult)
    (k : string) :
  k ∉ tasks.*1 -> foldl collect acc tasks !! k = acc !! k.
Proof.
  revert acc. induction tasks as [|[k' f'] tasks IH]; intros acc Hk; simpl.
  - reflexivity.
  - apply not_elem_of_cons in Hk as [Hne Hk]. simpl in Hne.
    rewrite IH by exact Hk. unfold collect_result; simpl.
    destruct (single_frame k' f'); [|reflexivity].
    by rewrite lookup_insert_ne.
Qed.

(** A device among the tasks has its result if its run returned one, and
    keeps what it had if its run raised. *)
Lemma collect_task (tasks : list (string * Frame)) (acc : gmap string CameraResult)
    (k : string) (frame : Frame) :
  NoDup tasks.*1 -> (k, frame) ∈ tasks ->
  foldl collect acc tasks !! k
  = match single_frame k frame with
    | Ok result => Some result
    | Raise _ => acc !! k
    end.
Proof.
  revert acc. induction tasks as [|[k' f'] tasks IH]; intros acc Hnd Hin.
  - by apply elem_of_nil in Hin.
  - rewrite fmap_cons in Hnd. apply NoDup_cons in Hnd as [Hk' Hnd]. simpl in Hk'.
    apply elem_of_cons in Hin as [Heq|Hin]; simpl.
    + injection Heq as -> ->. rewrite collect_other by exact Hk'.
      unfold collect_result; simpl.
      destruct (single_frame k' f'); [by rewrite lookup_insert_eq | reflexivity].
    + assert (k <> k') as Hne.
      { intros ->. apply Hk'. apply list_elem_of_fmap. by exists (k', frame). }
      rewrite (IH _ Hnd Hin). destruct (single_frame k frame); [reflexivity|].
      unfold collect_result; simpl.
      destruct (single_frame k' f'); [|reflexivity].
      by rewrite lookup_insert_ne.
Qed.

(** The mapping the collecting loop builds, entry by entry. *)
Lemma collect_all (schedule : list nat) (frames : gmap string Frame) (k : string) :
  foldl collect ∅ (as_completed schedule (map_to_list frames)) !! k
  = match frames !! k with
    | Some frame =>
        match single_frame k frame with
        | Ok result => Some result
        | Raise _ => None
        end
    | None => None
    end.
Proof.
  pose proof (as_completed_perm schedule (map_to_list frames)) as Hperm.
  assert (NoDup (as_completed schedule (map_to_list frames)).*1) as Hnd.
  { rewrite Hperm. apply NoDup_fst_map_to_list. }
  destruct (frames !! k) as [frame|] eqn:Hk.
  - rewrite (collect_task _ _ k frame Hnd).
    + destruct (single_frame k frame); [reflexivity | apply lookup_empty].
    + rewrite Hperm. by apply elem_of_map_to_list.
  - rewrite collect_other; [apply lookup_empty|].
    rewrite Hperm. intros Hin. apply list_elem_of_fmap in Hin as ([k' f] & -> & Hin).
    apply elem_of_map_to_list in Hin. simpl in Hk. congruence.
Qed.

(** The pipeline stage on a non-empty mapping, in whatever order the
    runs complete: a device whose run raises has no entry, every device
    whose run returns has that result as its entry, and the stage does
    not raise. *)
Lemma process_frames_entries (frames : gmap string Frame) (w : World) :
  frames ≠ ∅ ->
  exists (results : gmap string CameraResult) (w' : World),
    _process_frames preprocessor_process inference_engine_infer env frames w
    = (w', Ok results)
    /\ dom results ⊆ dom frames
    /\ (forall k frame e,
          frames !! k = Some frame -> single_frame k frame = Raise e ->
          results !! k = None)
    /\ (forall k frame result,
          frames !! k = Some frame -> single_frame k frame = Ok result ->
          results !! k = Some result)
    /\ metrics w' = metrics w
    /\ cameras w' = cameras w.
Proof.
  intros Hne. unfold _process_frames. destruct (decide (frames = ∅)) as [|_]; [done|].
  eexists _, _. split; [reflexivity|].
  split; [|split; [|split; [|split; reflexivity]]].
  - intros k Hk. apply elem_of_dom in Hk as [r Hr]. apply elem_of_dom.
    rewrite collect_all in Hr. destruct (frames !! k); [eauto | discriminate].
  - intros k frame e Hk He. by rewrite collect_all, Hk, He.
  - intros k frame result Hk Hr. by rewrite collect_all, Hk, Hr.
Qed.

End PipelineStage.

Section PipelineStageExample.

Import InspectionController.

(** The run of CAM_02 raises, and the stage returns the entry of CAM_01
    alone. *)
Lemma pipeline_failure_excludes_device :
  exists results w',
    _process_frames (preprocess_failing_on "CAM_02") infer_nothing quiet_env
      two_frames world_one_dead_camera = (w', Ok results)
    /\ results !! "CAM_02" = None
    /\ (exists r q, results !! "CAM_01" = Some r
                    /\ cr_quality_score r = Some q /\ q == 1).
Proof.
  assert (two_frames ≠ ∅) as Hne by (unfold two_frames; apply insert_non_empty).
  unfold _process_frames. destruct (decide (two_frames = ∅)) as [|_]; [done|].
  eexists _, _. split; [reflexivity|]. rewrite !collect_all. split.
  - unfold two_frames. rewrite lookup_insert_ne by done.
    rewrite lookup_singleton_eq. reflexivity.
  - unfold two_frames. rewrite lookup_insert_eq.
    eexists _, _. split; [reflexivity|]. split; reflexivity.
Qed.

End PipelineStageExample.

(** ** Capture stage and the abandoned cycle *)

Section CaptureStage.

Import InspectionController.

Context (env : Env).

(** The retry wrapper calls the camera and sleeps, nothing else, and never
    raises. *)
Lemma retry_loop_events (max_retries : Z) (n : nat) :
  forall (attempt_no : Z) (camera : Camera.t),
    Forall capture_event (snd (fst (retry_loop n attempt_no max_retries camera)))
    /\ exists o, snd (retry_loop n attempt_no max_retries camera) = Ok o.
Proof.
  induction n as [|n IH]; intros attempt_no camera; cbn [retry_loop].
  - split; [constructor | by eexists].
  - destruct (Camera.capture camera) as [camera' [frame|e]].
    + split; [by repeat constructor | by eexists].
    + destruct (attempt_no <? max_retries - 1)%Z.
      * specialize (IH (attempt_no + 1)%Z camera').
        destruct (retry_loop n (attempt_no + 1) max_retries camera')
          as [[camera'' evs] res]. cbn in IH |- *. destruct IH as [IH1 IH2].
        split; [by repeat constructor | exact IH2].
      * split; [by repeat constructor | by eexists].
Qed.

Lemma capture_only_refl (w : World) : capture_only w w.
Proof.
  split; [|by split]. exists []. split; [by rewrite app_nil_r | constructor].
Qed.

Lemma capture_only_trans (w1 w2 w3 : World) :
  capture_only w1 w2 -> capture_only w2 w3 -> capture_only w1 w3.
Proof.
  intros ((e1 & T1 & F1) & M1 & R1) ((e2 & T2 & F2) & M2 & R2).
  split; [|split; congruence].
  exists (e1 ++ e2). split; [by rewrite T2, T1, app_assoc | by apply Forall_app].
Qed.

Lemma collect_capture_only (i : nat) (frames : gmap string Frame) (w : World) :
  capture_only w (fst (collect_capture i frames w))
  /\ exists frames', snd (collect_capture i frames w) = Ok frames'.
Proof.
  unfold collect_capture. destruct (cameras w !! i) as [camera|].
  - pose proof (retry_loop_events default_max_retries
                  (Z.to_nat default_max_retries) 0%Z camera) as [Hev [o Ho]].
    unfold _capture_with_retry.
    destruct (retry_loop _ _ _ camera) as [[camera' evs] r]. cbn in Hev, Ho. subst r.
    destruct o as [frame|]; cbn.
    + split; [|by eexists]. split; [by exists evs | by split].
    + split; [|by eexists]. split; [by exists evs | by split].
  - cbn. split; [apply capture_only_refl | by eexists].
Qed.

Lemma foldM_collect_capture_only (order : list nat) :
  forall (frames : gmap string Frame) (w : World),
    capture_only w (fst (foldM collect_capture order frames w))
    /\ exists frames', snd (foldM collect_capture order frames w) = Ok frames'.
Proof.
  induction order as [|i order IH]; intros frames w; cbn [foldM].
  - cbn. split; [apply capture_only_refl | by eexists].
  - unfold bind. destruct (collect_capture_only i frames w) as [H1 [frames1 H2]].
    destruct (collect_capture i frames w) as [w1 r1]. cbn in H1, H2. subst r1.
    destruct (IH frames1 w1) as [H3 H4].
    split; [by eapply capture_only_trans | exact H4].
Qed.

Lemma parallel_capture_only (w : World) :
  capture_only w (fst (_parallel_capture env w)).
Proof.
  unfold _parallel_capture. destruct (cameras w) as [|c cs] eqn:E.
  - apply capture_only_refl.
  - apply foldM_collect_capture_only.
Qed.

End CaptureStage.

Section AbandonedCycle.

Import InspectionController.

Context (preprocessor_process : Frame -> Result Preprocessed).
Context (inference_engine_infer : Preprocessed -> string -> Result InferenceResult).
Context (env : Env).

(** C5. When the capture stage hands back the empty mapping,
    [execute_cycle] raises "No frames captured from any camera" to its
    caller instead of returning a report; the world it leaves is the one
    the capture stage left with one more recorded failure: the failure
    counter is one above its value before the cycle, no cycle is recorded,
    and the trace has grown by capture events only, so neither a pipeline
    run nor the aggregator nor the reporter was called. *)
Theorem execute_cycle_without_frames (cycle_id : Z) (w w1 : World) :
  _parallel_capture env w = (w1, Ok ∅) ->
  execute_cycle preprocessor_process inference_engine_infer env cycle_id w
  = ({| cameras := cameras w1;
        metrics := MetricsCollector.record_failure (metrics w1);
        trace := trace w1 |},
     Raise (Exception "No frames captured from any camera"))
  /\ MetricsCollector.total_failures (MetricsCollector.record_failure (metrics w1))
     = S (MetricsCollector.total_failures (metrics w))
  /\ recorded_cycles (MetricsCollector.record_failure (metrics w1))
     = recorded_cycles (metrics w)
  /\ exists evs, trace w1 = trace w ++ evs /\ Forall capture_event evs.
Proof.
  intros Hcap. pose proof (parallel_capture_only env w) as Honly.
  rewrite Hcap in Honly. destruct Honly as (Hevs & Htot & Hrec). cbn in *.
  split; [|split; [|split]].
  - unfold execute_cycle, try_except, bind. rewrite Hcap.
    destruct (decide (∅ = ∅)) as [_|Hne]; [reflexivity | done].
  - by rewrite <- Htot.
  - by rewrite <- Hrec.
  - exact Hevs.
Qed.

End AbandonedCycle.

Section AbandonedCycleExample.

Import InspectionController.

(** One camera whose three attempts fail: the capture stage returns the
    empty mapping and the cycle is abandoned. *)
Lemma execute_cycle_without_frames_witness :
  _parallel_capture quiet_env world_one_dead_camera
  = ({| cameras := [Camera.after 3 (camera_drawing "CAM_01" 0.01)];
        metrics := MetricsCollector.__init__;
        trace := attempts "CAM_01" 3 |}, Ok ∅)
  /\ snd (execute_cycle (Preprocessor.process 30) infer_nothing quiet_env 1
            world_one_dead_camera)
     = Raise (Exception "No frames captured from any camera")
  /\ MetricsCollector.total_failures
       (metrics (fst (execute_cycle (Preprocessor.process 30) infer_nothing
                        quiet_env 1 world_one_dead_camera)))
     = 1%nat.
Proof.
  assert (_parallel_capture quiet_env world_one_dead_camera
          = ({| cameras := [Camera.after 3 (camera_drawing "CAM_01" 0.01)];
                metrics := MetricsCollector.__init__;
                trace := attempts "CAM_01" 3 |}, Ok ∅)) as H by reflexivity.
  split; [exact H|].
  destruct (execute_cycle_without_frames (Preprocessor.process 30) infer_nothing
              quiet_env 1 _ _ H) as (-> & Htot & _).
  split; [reflexivity | exact Htot].
Defined.

End AbandonedCycleExample.

Section WholeCycleExample.

Import InspectionController.

(** Two devices capture at once and nothing is detected: the cycle
    returns a report with score 1.0, PASS and no defect, records it, and
    calls the stages in order. *)
Lemma cycle_two_clean_devices :
  exists w' report,
    execute_cycle (Preprocessor.process 30) infer_nothing quiet_env 1
      world_two_cameras = (w', Ok report)
    /\ rp_decision report = "PASS"
    /\ rp_aggregated_score report == 1
    /\ rp_defects_found report = O
    /\ rp_cameras_used report = 2%nat
    /\ MetricsCollector.decisions (metrics w') = ["PASS"]
    /\ MetricsCollector.total_failures (metrics w') = O
    /\ trace w' = [EvCapture "CAM_01"; EvCapture "CAM_02"; EvPipeline "CAM_01";
                   EvPipeline "CAM_02"; EvAggregate; EvReport].
Proof.
  eexists _, _. split; [vm_compute; reflexivity|].
  repeat split.
Qed.

End WholeCycleExample.

(** * Further properties of the stages *)

(** ** Postprocessor *)

Section PostprocessorMore.

Import Postprocessor.

(** The detections the filter keeps. *)
Lemma filter_detections_confident (detections : list Detection) :
  _filter_detections detections = filter confident detections.
Proof.
  unfold _filter_detections. apply list_filter_iff. intros d.
  unfold confident, CONFIDENCE_THRESHOLD. apply Qle_bool_iff.
Qed.

(** X1. [process] hands back exactly the detections of confidence at
    least 0.7: all of them, each as often as it occurs, in the order of
    the input and unchanged but for the severity attached to each, which
    is one of the three; [filtered_detections] is their number,
    [total_detections] the number of detections received, and the first
    never exceeds the second. *)
Theorem process_reports_survivors (elapsed_ms : Q) (ir : InferenceResult)
    (camera_id : string) (r : CameraResult) :
  process elapsed_ms ir camera_id = Ok r ->
  exists survivors,
    cr_detections r = Some survivors
    /\ map without_severity survivors
       = map without_severity (filter confident (default [] (ir_detections ir)))
    /\ Forall classified survivors
    /\ cr_filtered_detections r = length survivors
    /\ cr_filtered_detections r
       = length (filter confident (default [] (ir_detections ir)))
    /\ cr_total_detections r = length (default [] (ir_detections ir))
    /\ (cr_filtered_detections r <= cr_total_detections r)%nat
    /\ cr_camera_id r = camera_id.
Proof.
  unfold process. set (raw := default [] (ir_detections ir)).
  destruct (_calculate_quality_score _) as [q|e]; [|discriminate].
  destruct (ir_timestamp ir) as [ts|]; [|discriminate]. cbn.
  intros [= <-]. cbn.
  exists (_classify_severity (_filter_detections raw)).
  assert (map without_severity (_classify_severity (_filter_detections raw))
          = map without_severity (_filter_detections raw)) as Estrip.
  { unfold _classify_severity. rewrite <- list_fmap_compose.
    apply list_fmap_ext. intros i d _. reflexivity. }
  split; [reflexivity|].
  split; [by rewrite Estrip, filter_detections_confident|].
  split; [apply classify_classified|].
  split; [reflexivity|].
  split.
  { unfold _classify_severity. by rewrite length_fmap, filter_detections_confident. }
  split; [reflexivity|].
  split; [|reflexivity].
  unfold _classify_severity, _filter_detections. rewrite length_fmap.
  apply length_filter.
Qed.

Lemma process_reports_survivors_witness :
  process 1 (inference_of [raw_detection 0.85; raw_detection 0.5; raw_detection 0.85])
    "CAM_01"
  = Ok {| cr_camera_id := "CAM_01"; cr_timestamp := "2024-01-01T00:00:00";
          cr_detections := Some [set_severity (raw_detection 0.85) "major";
                                 set_severity (raw_detection 0.85) "major"];
          cr_quality_score := Some (py_round (py_max2 0.0 (1.0 - py_sum [0.3; 0.3])) 3);
          cr_total_detections := 3; cr_filtered_detections := 2;
          cr_postprocessing_time_ms := 1; cr_pipeline_time_ms := None |}
  /\ exists survivors,
      Some [set_severity (raw_detection 0.85) "major";
            set_severity (raw_detection 0.85) "major"] = Some survivors
      /\ map without_severity survivors
         = map without_severity
             (filter confident
                [raw_detection 0.85; raw_detection 0.5; raw_detection 0.85])
      /\ Forall classified survivors
      /\ 2%nat = length survivors
      /\ 2%nat
         = length (filter confident
                     [raw_detection 0.85; raw_detection 0.5; raw_detection 0.85])
      /\ 3%nat = 3%nat
      /\ (2 <= 3)%nat
      /\ "CAM_01" = "CAM_01".
Proof.
  assert (process 1
            (inference_of [raw_detection 0.85; raw_detection 0.5; raw_detection 0.85])
            "CAM_01"
          = Ok {| cr_camera_id := "CAM_01"; cr_timestamp := "2024-01-01T00:00:00";
                  cr_detections := Some [set_severity (raw_detection 0.85) "major";
                                         set_severity (raw_detection 0.85) "major"];
                  cr_quality_score :=
                    Some (py_round (py_max2 0.0 (1.0 - py_sum [0.3; 0.3])) 3);
                  cr_total_detections := 3; cr_filtered_detections := 2;
                  cr_postprocessing_time_ms := 1; cr_pipeline_time_ms := None |})
    as H by reflexivity.
  split; [exact H|].
  exact (process_reports_survivors 1 _ "CAM_01" _ H).
Defined.

(** X2. [process] raises exactly when the inference result has no
    "timestamp", and then it is [KeyError('timestamp')]; a missing
    "detections" key is read as no detection: nothing survives and the
    score is 1.0. *)
Theorem process_missing_keys (elapsed_ms : Q) (ir : InferenceResult)
    (camera_id : string) :
  ((exists e, process elapsed_ms ir camera_id = Raise e) <-> ir_timestamp ir = None)
  /\ (process elapsed_ms ir camera_id = Raise (KeyError "timestamp")
      <-> ir_timestamp ir = None)
  /\ (forall r, ir_detections ir = None ->
                process elapsed_ms ir camera_id = Ok r ->
                cr_detections r = Some [] /\ cr_quality_score r = Some 1.0
                /\ cr_total_detections r = O).
Proof.
  unfold process.
  destruct (quality_score_of_classified
              (_classify_severity (_filter_detections (default [] (ir_detections ir)))))
    as (q & Hq & _).
  { apply classify_classified. }
  rewrite Hq. cbn. destruct (ir_timestamp ir) as [ts|] eqn:Ets; cbn.
  - split; [|split].
    + split; [intros [e He]; discriminate He | discriminate].
    + split; discriminate.
    + intros r Hnone [= <-]. cbn. rewrite Hnone in Hq |- *. cbn in Hq |- *.
      injection Hq as <-. by repeat split.
  - split; [|split].
    + split; [reflexivity | by eexists].
    + split; reflexivity.
    + intros r _ Hr. discriminate Hr.
Qed.

Lemma process_missing_keys_witness :
  cr_detections
    {| cr_camera_id := "CAM_01"; cr_timestamp := "t"; cr_detections := Some [];
       cr_quality_score := Some 1.0; cr_total_detections := 0;
       cr_filtered_detections := 0; cr_postprocessing_time_ms := 1;
       cr_pipeline_time_ms := None |} = Some []
  /\ Some 1.0 = Some 1.0 /\ O = O.
Proof.
  apply (proj2 (proj2 (process_missing_keys 1
                         {| ir_camera_id := "CAM_01"; ir_timestamp := Some "t";
                            ir_detections := None; ir_inference_time_ms := 150 |}
                         "CAM_01"))); reflexivity.
Defined.

End PostprocessorMore.

Section QualityScoreMore.

Import Postprocessor.

(** Every weight is a positive number of tenths: 0.1, 0.3 or 0.6 for the
    three severities and 0.2 for any other string. *)
Lemma weight_of_cases (sev : string) :
  (sev = "minor" /\ weight_of sev = 0.1) \/ (sev = "major" /\ weight_of sev = 0.3)
  \/ (sev = "critical" /\ weight_of sev = 0.6)
  \/ (sev <> "minor" /\ sev <> "major" /\ sev <> "critical" /\ weight_of sev = 0.2).
Proof.
  unfold weight_of, severity_weights. cbn [List.find fst snd].
  destruct (String.eqb_spec "minor" sev) as [<-|H1]; [by left|].
  destruct (String.eqb_spec "major" sev) as [<-|H2]; [by right; left|].
  destruct (String.eqb_spec "critical" sev) as [<-|H3]; [by right; right; left|].
  right; right; right. repeat split; congruence.
Qed.

Lemma weight_of_tenths (sev : string) :
  exists n : Z, (1 <= n)%Z /\ weight_of sev * 10 == inject_Z n.
Proof.
  destruct (weight_of_cases sev) as [[_ ->]|[[_ ->]|[[_ ->]|(_ & _ & _ & ->)]]];
    [exists 1%Z | exists 3%Z | exists 6%Z | exists 2%Z]; split; (lia || reflexivity).
Qed.

(** The generator of penalties either runs to its end or stops at the
    first detection without severity. *)
Lemma penalties_cases (ds : list Detection) :
  (Forall (fun d => is_Some (severity d)) ds
   /\ exists ws, penalties ds = Ok ws /\ py_sum ws == total_penalty ds
                 /\ exists n : Z, (0 <= n)%Z /\ total_penalty ds * 10 == inject_Z n)
  \/ (Exists (fun d => severity d = None) ds
      /\ penalties ds = Raise (KeyError "severity")).
Proof.
  induction ds as [|d ds IH].
  - left. split; [constructor|]. exists []. split; [reflexivity|].
    split; [reflexivity|]. exists 0%Z. split; [lia | reflexivity].
  - cbn [penalties]. destruct (severity d) as [sev|] eqn:Esev; cbn.
    + destruct IH as [(Hall & ws & -> & Hsum & n & Hn & Hten)|[Hex ->]]; cbn.
      * left. split; [constructor; [by rewrite Esev | exact Hall]|].
        eexists. split; [reflexivity|].
        unfold py_sum in *. rewrite py_sum_foldr in Hsum. rewrite py_sum_foldr.
        unfold total_penalty, penalty_of in *. cbn [foldr]. rewrite ?Esev.
        split; [lra|].
        destruct (weight_of_tenths sev) as (k & Hk & Hw).
        exists (k + n)%Z. split; [lia|]. rewrite inject_Z_plus, <- Hw, <- Hten.
        ring.
      * right. split; [by apply Exists_cons_tl | reflexivity].
    + right. split; [by apply Exists_cons_hd | reflexivity].
Qed.

(** The score of a list that the generator runs through. *)
Lemma quality_score_value (ds : list Detection) (q : Q) :
  _calculate_quality_score ds = Ok q ->
  q == Qmax 0 (1 - total_penalty ds) /\ 0 <= q <= 1.
Proof.
  destruct ds as [|d0 ds0] eqn:Eds.
  { intros [= <-]. cbn. split; [rewrite Q.max_r; lra | lra]. }
  rewrite <- Eds.
  assert (_calculate_quality_score ds
          = (ws ← penalties ds;
             Ok (py_round (py_max2 0.0 (1.0 - py_sum ws)) 3))) as Hdef.
  { rewrite Eds. reflexivity. }
  rewrite Hdef. clear Hdef Eds d0 ds0.
  destruct (penalties_cases ds) as [(Hall & ws & -> & Hsum & n & Hn & Hten)|[Hex ->]];
    cbn; [|discriminate].
  intros [= <-].
  pose proof (py_max2_Qmax 0.0 (1.0 - py_sum ws)) as Hmax.
  assert (0 <= total_penalty ds) as Hpos.
  { assert (0 <= total_penalty ds * 10) as H; [|lra].
    rewrite Hten. change 0 with (inject_Z 0). rewrite <- Zle_Qle. lia. }
  assert (py_round (py_max2 0.0 (1.0 - py_sum ws)) 3
          == py_max2 0.0 (1.0 - py_sum ws)) as Hround.
  { destruct (Q.max_spec 0.0 (1.0 - py_sum ws)) as [[Hlt E]|[Hle E]].
    - apply (py_round3_exact _ (1000 - 100 * n)%Z).
      rewrite Hmax, E, Hsum. unfold Zminus.
      rewrite inject_Z_plus, inject_Z_opp, inject_Z_mult, <- Hten.
      change (inject_Z 1000) with 1000. change (inject_Z 100) with 100. lra.
    - apply (py_round3_exact _ 0%Z). rewrite Hmax, E. reflexivity. }
  rewrite Hround, Hmax. split.
  - rewrite Hsum. apply Q.max_compat; lra.
  - split; [apply Q.max_le_iff; left; lra | apply Q.max_lub; lra].
Qed.

(** The score is an error exactly when a severity is missing. *)
Lemma quality_score_raises (ds : list Detection) :
  (_calculate_quality_score ds = Raise (KeyError "severity")
   \/ exists q, _calculate_quality_score ds = Ok q)
  /\ (_calculate_quality_score ds = Raise (KeyError "severity")
      <-> Exists (fun d => severity d = None) ds).
Proof.
  destruct ds as [|d0 ds0] eqn:Eds.
  { split; [right; by eexists|]. split; [discriminate | intros H; inversion H]. }
  rewrite <- Eds.
  assert (_calculate_quality_score ds
          = (ws ← penalties ds;
             Ok (py_round (py_max2 0.0 (1.0 - py_sum ws)) 3))) as Hdef.
  { rewrite Eds. reflexivity. }
  rewrite Hdef. clear Hdef Eds d0 ds0.
  destruct (penalties_cases ds) as [(Hall & ws & -> & _)|[Hex ->]]; cbn.
  - split; [right; by eexists|]. split; [discriminate|].
    intros Hex. apply Exists_exists in Hex as (d & Hd & Hnone).
    rewrite Forall_forall in Hall. destruct (Hall d Hd) as [sev Hs]. congruence.
  - split; [by left|]. split; done.
Qed.

(** X3. [_calculate_quality_score] raises exactly when some detection of
    the list has no "severity", and then it is [KeyError('severity')].
    Otherwise it returns max(0, 1 - the sum of the weights), whatever the
    severities are: 0.1, 0.3 and 0.6 for minor, major and critical and 0.2
    for any other; the rounding to three decimals changes nothing, and the
    score lies in [0,1]. *)
Theorem quality_score_any_severity (ds : list Detection) :
  ((exists e, _calculate_quality_score ds = Raise e)
   <-> Exists (fun d => severity d = None) ds)
  /\ (_calculate_quality_score ds = Raise (KeyError "severity")
      <-> Exists (fun d => severity d = None) ds)
  /\ (forall q, _calculate_quality_score ds = Ok q ->
                q == Qmax 0 (1 - total_penalty ds) /\ 0 <= q <= 1)
  /\ (forall d sev, d ∈ ds -> severity d = Some sev ->
        penalty_of d = (if decide (sev = "minor") then 0.1
                        else if decide (sev = "major") then 0.3
                        else if decide (sev = "critical") then 0.6 else 0.2)).
Proof.
  destruct (quality_score_raises ds) as [Hcases Hiff].
  split; [|split; [exact Hiff|split; [apply quality_score_value|]]].
  - rewrite <- Hiff. split; [|by eexists].
    intros [e He]. destruct Hcases as [H|[q Hq]]; [exact H | congruence].
  - intros d sev _ Hsev. unfold penalty_of. rewrite Hsev.
    destruct (weight_of_cases sev) as [[-> ->]|[[-> ->]|[[-> ->]|(H1 & H2 & H3 & ->)]]];
      repeat (destruct (decide _) as [?|?]; try congruence).
Qed.

Lemma quality_score_any_severity_witness :
  _calculate_quality_score [set_severity (raw_detection 0.9) "unknown"]
  = Ok (py_round (py_max2 0.0 (1.0 - py_sum [0.2])) 3)
  /\ py_round (py_max2 0.0 (1.0 - py_sum [0.2])) 3
     == Qmax 0 (1 - total_penalty [set_severity (raw_detection 0.9) "unknown"])
  /\ 0 <= py_round (py_max2 0.0 (1.0 - py_sum [0.2])) 3 <= 1.
Proof.
  split; [reflexivity|].
  apply (proj1 (proj2 (proj2 (quality_score_any_severity
                                [set_severity (raw_detection 0.9) "unknown"])))).
  reflexivity.
Defined.

(** X4. One more detection never raises the score, and lowers it as long
    as it is above zero. *)
Theorem more_detections_lower_score (d : Detection) (ds : list Detection) (q' : Q) :
  _calculate_quality_score (d :: ds) = Ok q' ->
  exists q,
    _calculate_quality_score ds = Ok q
    /\ q' <= q
    /\ (0 < q -> q' < q).
Proof.
  intros Hq'. destruct (quality_score_raises ds) as [[Hr|[q Hq]] Hiff].
  { apply Hiff in Hr.
    destruct (quality_score_raises (d :: ds)) as [_ Hiff'].
    assert (_calculate_quality_score (d :: ds) = Raise (KeyError "severity")) as H.
    { apply Hiff'. by apply Exists_cons_tl. }
    congruence. }
  exists q. split; [exact Hq|].
  destruct (quality_score_value _ _ Hq') as [E' _].
  destruct (quality_score_value _ _ Hq) as [E _].
  change (total_penalty (d :: ds)) with (penalty_of d + total_penalty ds) in E'.
  assert (0 < penalty_of d) as Hpos.
  { destruct (quality_score_raises (d :: ds)) as [_ Hiff'].
    unfold penalty_of. destruct (severity d) as [sev|] eqn:Esev.
    - destruct (weight_of_cases sev)
        as [[_ ->]|[[_ ->]|[[_ ->]|(_ & _ & _ & ->)]]]; reflexivity.
    - assert (_calculate_quality_score (d :: ds) = Raise (KeyError "severity")) as H.
      { apply Hiff'. by apply Exists_cons_hd. }
      congruence. }
  rewrite E', E.
  destruct (Q.max_spec 0 (1 - total_penalty ds)) as [[H1 ->]|[H1 ->]];
    destruct (Q.max_spec 0 (1 - (penalty_of d + total_penalty ds))) as [[H2 ->]|[H2 ->]];
    split; intros; lra.
Qed.

Lemma more_detections_lower_score_witness :
  _calculate_quality_score
    [set_severity (raw_detection 0.85) "major"; set_severity (raw_detection 0.7) "minor"]
  = Ok (py_round (py_max2 0.0 (1.0 - py_sum [0.3; 0.1])) 3)
  /\ exists q,
      _calculate_quality_score [set_severity (raw_detection 0.7) "minor"] = Ok q
      /\ py_round (py_max2 0.0 (1.0 - py_sum [0.3; 0.1])) 3 <= q
      /\ (0 < q -> py_round (py_max2 0.0 (1.0 - py_sum [0.3; 0.1])) 3 < q).
Proof.
  split; [reflexivity|].
  apply (more_detections_lower_score
           (set_severity (raw_detection 0.85) "major")
           [set_severity (raw_detection 0.7) "minor"]).
  reflexivity.
Defined.

(** X5. The score of the survivors reaches the pass threshold of the
    aggregator, 0.75, exactly when they are at most two and all minor. *)
Theorem score_passes_iff_two_minors (raw : list Detection) :
  let surviving := _classify_severity (_filter_detections raw) in
  exists q,
    _calculate_quality_score surviving = Ok q
    /\ (ResultAggregator.PASS_THRESHOLD <= q
        <-> count_severity "major" surviving = O
            /\ count_severity "critical" surviving = O
            /\ (count_severity "minor" surviving <= 2)%nat).
Proof.
  intros surviving.
  destruct (quality_score_of_classified surviving) as (q & Hq & _ & E & _).
  { apply classify_classified. }
  exists q. split; [exact Hq|]. unfold ResultAggregator.PASS_THRESHOLD.
  set (a := count_severity "minor" surviving) in *.
  set (b := count_severity "major" surviving) in *.
  set (c := count_severity "critical" surviving) in *.
  assert (0 <= Qnat a /\ 0 <= Qnat b /\ 0 <= Qnat c) as (Ha & Hb & Hc).
  { unfold Qnat. repeat split;
      (change 0 with (inject_Z 0); rewrite <- Zle_Qle; lia). }
  assert (0.75 <= q <-> 2 * Qnat a + 6 * Qnat b + 12 * Qnat c <= 5) as ->.
  { rewrite E.
    destruct (Q.max_spec 0 (1 - (0.1 * Qnat a + 0.3 * Qnat b + 0.6 * Qnat c)))
      as [[H ->]|[H ->]]; split; intros; lra. }
  assert (2 * Qnat a + 6 * Qnat b + 12 * Qnat c
          == inject_Z (2 * Z.of_nat a + 6 * Z.of_nat b + 12 * Z.of_nat c)) as ->.
  { unfold Qnat. rewrite !inject_Z_plus, !inject_Z_mult. reflexivity. }
  change 5 with (inject_Z 5). rewrite <- Zle_Qle. lia.
Qed.


End QualityScoreMore.

(** ** Aggregator *)

Section AggregatorMore.

Import ResultAggregator.

Lemma count_labelled_cons (sev : string) (d : Detection) (ds : list Detection) :
  count_labelled sev (d :: ds)
  = ((if decide (default "minor" (severity d) = sev) then 1 else 0)
     + count_labelled sev ds)%nat.
Proof.
  unfold count_labelled. rewrite filter_cons. destruct (decide _); reflexivity.
Qed.

Lemma count_labelled_app (sev : string) (l1 l2 : list Detection) :
  count_labelled sev (l1 ++ l2) = (count_labelled sev l1 + count_labelled sev l2)%nat.
Proof.
  unfold count_labelled. by rewrite filter_app, length_app.
Qed.

(** The counting loop adds, under each key the dict has, the number of
    detections filed under that key, and adds no key. *)
Lemma count_loop (ds : list Detection) (counts : gmap string nat) (sev : string) :
  foldl count_one counts ds !! sev
  = (fun n => (n + count_labelled sev ds)%nat) <$> counts !! sev.
Proof.
  revert counts. induction ds as [|d ds IH]; intros counts.
  - cbn. destruct (counts !! sev); cbn; [f_equal; lia | reflexivity].
  - cbn [foldl]. rewrite IH, count_labelled_cons. unfold count_one.
    destruct (counts !! default "minor" (severity d)) as [n|] eqn:E.
    + destruct (decide (default "minor" (severity d) = sev)) as [Heq|Hne].
      * rewrite Heq in E |- *. rewrite lookup_insert_eq, E. cbn. f_equal. lia.
      * rewrite lookup_insert_ne by done. destruct (counts !! sev); cbn; [f_equal|]; done.
    + destruct (decide (default "minor" (severity d) = sev)) as [Heq|Hne].
      * rewrite Heq in E. by rewrite E.
      * destruct (counts !! sev); cbn; [f_equal|]; done.
Qed.

Lemma count_severities_lookup (ds : list Detection) (sev : string) :
  _count_severities ds !! sev
  = if decide (sev = "minor" \/ sev = "major" \/ sev = "critical")
    then Some (count_labelled sev ds) else None.
Proof.
  unfold _count_severities. rewrite count_loop.
  destruct (decide (sev = "minor")) as [->|H1]; [reflexivity|].
  rewrite lookup_insert_ne by done.
  destruct (decide (sev = "major")) as [->|H2]; [reflexivity|].
  rewrite lookup_insert_ne by done.
  destruct (decide (sev = "critical")) as [->|H3]; [reflexivity|].
  rewrite lookup_insert_ne by done. rewrite lookup_empty.
  destruct (decide _) as [[?|[?|?]]|?]; done.
Qed.

(** X6. [_count_severities] returns a dict with the three keys minor,
    major and critical and no other: each holds the number of detections
    of that severity, a detection without "severity" counting as minor and
    a detection of any other severity not counting at all; so the three
    counts never add up to more than the number of detections. *)
Theorem count_severities_counts (ds : list Detection) :
  _count_severities ds !! "minor" = Some (count_labelled "minor" ds)
  /\ _count_severities ds !! "major" = Some (count_labelled "major" ds)
  /\ _count_severities ds !! "critical" = Some (count_labelled "critical" ds)
  /\ (forall sev, sev <> "minor" -> sev <> "major" -> sev <> "critical" ->
                 _count_severities ds !! sev = None)
  /\ (count_labelled "minor" ds + count_labelled "major" ds
      + count_labelled "critical" ds <= length ds)%nat.
Proof.
  rewrite !count_severities_lookup.
  split; [reflexivity|]. split; [reflexivity|]. split; [reflexivity|]. split.
  - intros sev H1 H2 H3. rewrite count_severities_lookup.
    destruct (decide _) as [[?|[?|?]]|?]; done.
  - induction ds as [|d ds IH]; [reflexivity|].
    rewrite !count_labelled_cons. cbn [length].
    repeat (destruct (decide _) as [?|?]); try congruence; lia.
Qed.

Lemma count_severities_counts_witness :
  "other" <> "minor" /\ "other" <> "major" /\ "other" <> "critical"
  /\ _count_severities [raw_detection 0.9; set_severity (raw_detection 0.9) "other";
                        set_severity (raw_detection 0.9) "critical"] !! "other" = None.
Proof.
  split; [discriminate|]. split; [discriminate|]. split; [discriminate|].
  apply (proj1 (proj2 (proj2 (proj2 (count_severities_counts _))))); discriminate.
Defined.

Lemma sum_over_fmap {A B} (f : B -> nat) (g : A -> B) (m : gmap string A) :
  sum_over f (g <$> m) = sum_over (fun a => f (g a)) m.
Proof.
  unfold sum_over. rewrite map_to_list_fmap.
  induction (map_to_list m) as [|[k a] l IH]; [reflexivity|].
  cbn. by rewrite IH.
Qed.

Lemma length_concat_sum {A} (ls : list (list A)) :
  length (concat ls) = sum_list_with length ls.
Proof.
  induction ls as [|l ls IH]; [reflexivity|]. cbn. by rewrite length_app, IH.
Qed.

Lemma count_labelled_concat (sev : string) (ls : list (list Detection)) :
  count_labelled sev (concat ls) = sum_list_with (count_labelled sev) ls.
Proof.
  induction ls as [|l ls IH]; [reflexivity|]. cbn [concat].
  by rewrite count_labelled_app, IH.
Qed.

Lemma sum_list_with_fmap {A B} (f : B -> nat) (g : A -> B) (l : list A) :
  sum_list_with f (map g l) = sum_list_with (fun a => f (g a)) l.
Proof.
  induction l as [|a l IH]; [reflexivity|]. cbn. by rewrite IH.
Qed.

(** X7. The totals of an aggregated result are the sums of the entries
    of its per-device summaries: one summary per device of the input,
    [cameras_used] their number, [total_defects] the sum of their defect
    counts, and each severity count the sum of theirs. *)
Theorem aggregate_totals (m : gmap string CameraResult) (r : AggregatedResult) :
  aggregate m = Ok r ->
  dom (ar_camera_summaries r) = dom m
  /\ ar_cameras_used r = size (ar_camera_summaries r)
  /\ (forall k res, m !! k = Some res ->
        exists s, ar_camera_summaries r !! k = Some s
                  /\ cs_defects s = length (detections_of res)
                  /\ cs_score s = score_of res)
  /\ ar_total_defects r = sum_over cs_defects (ar_camera_summaries r)
  /\ (forall sev, sev = "minor" \/ sev = "major" \/ sev = "critical" ->
        ar_severity_counts r !! sev
        = Some (sum_over (fun s => default O (cs_severities s !! sev))
                         (ar_camera_summaries r))).
Proof.
  unfold aggregate. destruct (decide (m = ∅)) as [|Hne]; [discriminate|].
  intros [= <-]. cbn.
  split; [apply dom_fmap_L|]. split; [by rewrite map_size_fmap|]. split.
  { intros k res Hk. exists (summary_of res). rewrite lookup_fmap, Hk. by repeat split. }
  split.
  - rewrite sum_over_fmap. unfold sum_over. cbn.
    by rewrite length_concat_sum, sum_list_with_fmap.
  - intros sev Hsev. rewrite sum_over_fmap. unfold sum_over. cbn.
    assert (forall ds, default O (_count_severities ds !! sev) = count_labelled sev ds
                       /\ _count_severities ds !! sev = Some (count_labelled sev ds))
      as Hcount.
    { intros ds. rewrite count_severities_lookup.
      destruct (decide _) as [?|?]; [by split | done]. }
    rewrite (proj2 (Hcount _)), count_labelled_concat, sum_list_with_fmap.
    f_equal. induction (map_to_list m) as [|[k res] l IH]; [reflexivity|].
    cbn. by rewrite (proj1 (Hcount _)), IH.
Qed.

Lemma aggregate_totals_witness :
  exists r,
    aggregate results_09_06 = Ok r
    /\ dom (ar_camera_summaries r) = dom results_09_06
    /\ ar_cameras_used r = size (ar_camera_summaries r)
    /\ (forall k res, results_09_06 !! k = Some res ->
          exists s, ar_camera_summaries r !! k = Some s
                    /\ cs_defects s = length (detections_of res)
                    /\ cs_score s = score_of res)
    /\ ar_total_defects r = sum_over cs_defects (ar_camera_summaries r)
    /\ (forall sev, sev = "minor" \/ sev = "major" \/ sev = "critical" ->
          ar_severity_counts r !! sev
          = Some (sum_over (fun s => default O (cs_severities s !! sev))
                           (ar_camera_summaries r))).
Proof.
  destruct (aggregate_nonempty results_09_06) as (r & Hr & _).
  { unfold results_09_06. apply insert_non_empty. }
  exists r. split; [exact Hr|]. exact (aggregate_totals _ _ Hr).
Defined.

(** X8. The strictest device decides: the decision is PASS exactly when
    every device of the mapping scores at least 0.75 (a device without a
    score counting as 0.0), FAIL exactly when some device scores below
    0.75, and never anything else. *)
Theorem aggregate_passes_iff_all_pass (m : gmap string CameraResult)
    (r : AggregatedResult) :
  aggregate m = Ok r ->
  (ar_decision r = "PASS"
   <-> forall k res, m !! k = Some res -> 0.75 <= score_of res)
  /\ (ar_decision r = "FAIL"
      <-> exists k res, m !! k = Some res /\ score_of res < 0.75)
  /\ (ar_decision r = "PASS" \/ ar_decision r = "FAIL").
Proof.
  intros Hr.
  assert (m ≠ ∅) as Hm.
  { intros ->. discriminate Hr. }
  destruct (aggregate_nonempty m Hm) as (r' & Hr' & _ & Hdec & _).
  assert (r' = r) as -> by congruence.
  destruct (aggregated_score_lowest m Hm) as [(k0 & res0 & Hk0 & Hlow0) Hlow].
  rewrite Hdec. unfold PASS_THRESHOLD.
  destruct (Qle_bool 0.75 (_calculate_aggregated_score (scores_of m))) eqn:E.
  - apply Qle_bool_iff in E. split; [|split; [|by left]].
    + split; [|done]. intros _ k res Hk. pose proof (Hlow k res Hk). lra.
    + split; [discriminate|]. intros (k & res & Hk & Hlt).
      pose proof (Hlow k res Hk). lra.
  - apply Qle_bool_lt in E. split; [|split; [|by right]].
    + split; [discriminate|]. intros Hall.
      pose proof (Hall k0 res0 Hk0) as H. rewrite Hlow0 in H. lra.
    + split; [|done]. intros _. exists k0, res0. split; [exact Hk0|].
      rewrite Hlow0. exact E.
Qed.

Lemma aggregate_passes_iff_all_pass_witness :
  exists r,
    aggregate results_09_06 = Ok r
    /\ (ar_decision r = "PASS"
        <-> forall k res, results_09_06 !! k = Some res -> 0.75 <= score_of res)
    /\ (ar_decision r = "FAIL"
        <-> exists k res, results_09_06 !! k = Some res /\ score_of res < 0.75)
    /\ (ar_decision r = "PASS" \/ ar_decision r = "FAIL").
Proof.
  destruct (aggregate_nonempty results_09_06) as (r & Hr & _).
  { unfold results_09_06. apply insert_non_empty. }
  exists r. split; [exact Hr|]. exact (aggregate_passes_iff_all_pass _ _ Hr).
Defined.

End AggregatorMore.

(** ** Reporter *)

Section ReporterMore.

Import InspectionReporter.

Lemma defect_details_cases (ds : list Detection) :
  (Forall (fun d => is_Some (severity d)) ds
   /\ exists l, defect_details ds = Ok l /\ length l = length ds)
  \/ (Exists (fun d => severity d = None) ds
      /\ defect_details ds = Raise (KeyError "severity")).
Proof.
  induction ds as [|d ds IH].
  - left. split; [constructor|]. by exists [].
  - cbn [defect_details]. destruct (severity d) as [sev|] eqn:Esev; cbn.
    + destruct IH as [(Hall & l & -> & Hlen)|[Hex ->]]; cbn.
      * left. split; [constructor; [by rewrite Esev | exact Hall]|].
        eexists. split; [reflexivity|]. cbn. by rewrite Hlen.
      * right. split; [by apply Exists_cons_tl | reflexivity].
    + right. split; [by apply Exists_cons_hd | reflexivity].
Qed.

Lemma camera_detail_cases (result : CameraResult) :
  (Forall (fun d => is_Some (severity d)) (ResultAggregator.detections_of result)
   /\ exists cd, camera_detail result = Ok cd
                 /\ cd_quality_score cd = ResultAggregator.score_of result
                 /\ cd_defects_found cd = length (ResultAggregator.detections_of result)
                 /\ length (cd_defect_details cd) = cd_defects_found cd
                 /\ cd_processing_time_ms cd = default 0.0 (cr_pipeline_time_ms result))
  \/ (Exists (fun d => severity d = None) (ResultAggregator.detections_of result)
      /\ camera_detail result = Raise (KeyError "severity")).
Proof.
  unfold camera_detail, ResultAggregator.detections_of, ResultAggregator.score_of.
  destruct (defect_details_cases (default [] (cr_detections result)))
    as [(Hall & l & -> & Hlen)|[Hex ->]]; cbn.
  - left. split; [exact Hall|]. eexists. split; [reflexivity|]. cbn. by repeat split.
  - right. by split.
Qed.

(** The loop over the cameras: it fills one entry per camera, or stops at
    the first camera with a detection without severity. *)
Lemma camera_details_cases (items : list (string * CameraResult))
    (acc : gmap string CameraDetail) :
  NoDup items.*1 ->
  (exists cams,
      camera_details items acc = Ok cams
      /\ (forall k result, (k, result) ∈ items ->
            exists cd, camera_detail result = Ok cd /\ cams !! k = Some cd)
      /\ (forall k, k ∉ items.*1 -> cams !! k = acc !! k))
  \/ (camera_details items acc = Raise (KeyError "severity")
      /\ exists k result d, (k, result) ∈ items
                            /\ d ∈ ResultAggregator.detections_of result
                            /\ severity d = None).
Proof.
  revert acc. induction items as [|[k0 r0] items IH]; intros acc Hnd.
  - left. exists acc. split; [reflexivity|]. split; [|done].
    intros k result Hin. by apply elem_of_nil in Hin.
  - rewrite fmap_cons in Hnd. apply NoDup_cons in Hnd as [Hk0 Hnd]. cbn in Hk0.
    cbn [camera_details].
    destruct (camera_detail_cases r0) as [(_ & cd0 & Hcd0 & _)|[Hex Hraise]].
    + rewrite Hcd0. cbn.
      destruct (IH (<[k0 := cd0]> acc) Hnd)
        as [(cams & Hcams & Hin & Hout)|(Hr & k & result & d & Hk & Hd & Hnone)].
      * left. exists cams. split; [exact Hcams|]. split.
        -- intros k result Hkr. apply elem_of_cons in Hkr as [[= -> ->]|Hkr].
           ++ exists cd0. split; [exact Hcd0|].
              rewrite (Hout k0 Hk0). apply lookup_insert_eq.
           ++ by apply Hin.
        -- intros k Hk. apply not_elem_of_cons in Hk as [Hne Hk]. cbn in Hne.
           rewrite (Hout k Hk). by rewrite lookup_insert_ne.
      * right. split; [exact Hr|]. exists k, result, d.
        split; [by apply list_elem_of_further | by split].
    + rewrite Hraise. cbn. right. split; [reflexivity|].
      apply Exists_exists in Hex as (d & Hd & Hnone).
      exists k0, r0, d. split; [apply list_elem_of_here | by split].
Qed.

(** X9. [generate_report] raises only when some detection of some camera
    has no "severity", and then [KeyError('severity')].  A report it
    returns has one entry per camera of the results, with the score of
    the camera, the number of its detections and as many defect details;
    it carries the cycle id and the reading of the clock with a "Z"
    appended, copies score, decision, defect total, severity counts and
    number of cameras from the aggregated result, and carries the elapsed
    time rounded to two decimals: a number of two decimals at most 0.005
    away from the elapsed time, and the elapsed time itself when it has
    no more than two decimals (which neighbour it is for a time exactly
    halfway between two is left open). *)
Theorem generate_report_contents (utcnow : string) (cycle_id : Z)
    (camera_results : gmap string CameraResult) (aggregated : AggregatedResult)
    (total_time_ms : Q) :
  (forall e, generate_report utcnow cycle_id camera_results aggregated total_time_ms
             = Raise e ->
     e = KeyError "severity"
     /\ exists k result d, camera_results !! k = Some result
                           /\ d ∈ ResultAggregator.detections_of result
                           /\ severity d = None)
  /\ (forall report,
        generate_report utcnow cycle_id camera_results aggregated total_time_ms
        = Ok report ->
        dom (rp_cameras report) = dom camera_results
        /\ (forall k result, camera_results !! k = Some result ->
              exists cd, rp_cameras report !! k = Some cd
                         /\ cd_quality_score cd = ResultAggregator.score_of result
                         /\ cd_defects_found cd
                            = length (ResultAggregator.detections_of result)
                         /\ length (cd_defect_details cd) = cd_defects_found cd)
        /\ rp_cycle_id report = cycle_id
        /\ rp_timestamp report = String.append utcnow "Z"
        /\ rp_aggregated_score report = ar_aggregated_score aggregated
        /\ rp_decision report = ar_decision aggregated
        /\ rp_defects_found report = ar_total_defects aggregated
        /\ rp_severity_breakdown report = ar_severity_counts aggregated
        /\ rp_cameras_used report = ar_cameras_used aggregated
        /\ (exists n : Z, rp_total_time_ms report == inject_Z n / 100)
        /\ total_time_ms - 0.005 <= rp_total_time_ms report <= total_time_ms + 0.005
        /\ (forall n : Z, total_time_ms * 100 == inject_Z n ->
                          rp_total_time_ms report == total_time_ms)).
Proof.
  unfold generate_report. cbn zeta.
  destruct (camera_details_cases (map_to_list camera_results) ∅
              (NoDup_fst_map_to_list _))
    as [(cams & -> & Hin & Hout)|(-> & k & result & d & Hk & Hd & Hnone)]; cbn.
  - split; [intros e He; discriminate He|].
    intros report [= <-]. cbn -[py_round String.append].
    split; [|split; [|do 7 (split; [reflexivity|]);
                      split; [apply py_round2_grid|];
                      split; [apply py_round2_near|];
                      intros n Hn; by apply (py_round2_exact _ n)]].
    + apply set_eq. intros k. rewrite !elem_of_dom. split.
      * intros [cd Hcd]. destruct (camera_results !! k) as [result|] eqn:Hk; [eauto|].
        rewrite Hout, lookup_empty in Hcd; [discriminate|].
        intros Hin'. apply list_elem_of_fmap in Hin' as ([k' r'] & -> & Hin').
        apply elem_of_map_to_list in Hin'. cbn in Hk. congruence.
      * intros [result Hk]. apply elem_of_map_to_list in Hk.
        destruct (Hin k result Hk) as (cd & _ & Hcd). eauto.
    + intros k result Hk. apply elem_of_map_to_list in Hk.
      destruct (Hin k result Hk) as (cd & Hcd & Hlook).
      exists cd. split; [exact Hlook|].
      destruct (camera_detail_cases result)
        as [(_ & cd' & Hcd' & H1 & H2 & H3 & _)|[_ Hraise]]; [|congruence].
      assert (cd' = cd) as -> by congruence. by repeat split.
  - split; [|intros report Hr; discriminate Hr].
    intros e [= <-]. split; [reflexivity|]. exists k, result, d.
    split; [by apply elem_of_map_to_list | by split].
Qed.

Lemma generate_report_contents_witness :
  exists report,
    generate_report "2024-01-01T00:00:01" 1 results_09_06 aggregated_09_06 350.129
    = Ok report
    /\ dom (rp_cameras report) = dom results_09_06
    /\ rp_decision report = "FAIL"
    /\ rp_timestamp report = "2024-01-01T00:00:01Z"
    /\ 350.129 - 0.005 <= rp_total_time_ms report <= 350.129 + 0.005.
Proof.
  assert (exists report,
             generate_report "2024-01-01T00:00:01" 1 results_09_06 aggregated_09_06
               350.129 = Ok report) as [report H].
  { eexists. vm_compute. reflexivity. }
  exists report. split; [exact H|].
  destruct (proj2 (generate_report_contents _ _ _ _ _) report H)
    as (H1 & _ & _ & Hts & _ & H5 & _ & _ & _ & _ & Hnear & _).
  split; [exact H1|]. split; [exact H5|]. split; [exact Hts | exact Hnear].
Defined.

End ReporterMore.

(** ** Metrics collector *)

Section MetricsMore.

Import MetricsCollector.

Lemma record_failures_state (n : nat) (self : t) :
  record_failures n self
  = {| cycle_times := cycle_times self; decisions := decisions self;
       defect_counts := defect_counts self; quality_scores := quality_scores self;
       camera_failures := camera_failures self;
       total_failures := (n + total_failures self)%nat |}.
Proof.
  unfold record_failures. induction n as [|n IH]; simpl.
  - by destruct self.
  - rewrite IH. reflexivity.
Qed.

(** X10. Once a cycle has been recorded, calls of [record_failure]
    change one entry of the summary only: failed_cycles grows by the
    number of calls, while total_cycles, successful_cycles, the pass
    rate and every other entry stay as they were, so that a failed cycle
    is never counted among the cycles. *)
Theorem failures_only_move_failed_cycles (n : nat) (self : t) :
  decisions self <> [] ->
  let s := get_summary self in
  get_summary (record_failures n self)
  = {| sm_total_cycles := sm_total_cycles s;
       sm_successful_cycles := sm_successful_cycles s;
       sm_failed_cycles := (n + sm_failed_cycles s)%nat;
       sm_pass_count := sm_pass_count s;
       sm_fail_count := sm_fail_count s;
       sm_pass_rate := sm_pass_rate s;
       sm_avg_cycle_time := sm_avg_cycle_time s;
       sm_min_cycle_time := sm_min_cycle_time s;
       sm_max_cycle_time := sm_max_cycle_time s;
       sm_avg_quality_score := sm_avg_quality_score s;
       sm_total_defects := sm_total_defects s;
       sm_avg_defects_per_cycle := sm_avg_defects_per_cycle s;
       sm_camera_failures := sm_camera_failures s |}
  /\ sm_total_cycles s = length (decisions self)
  /\ sm_failed_cycles s = total_failures self.
Proof.
  intros Hne. cbn zeta. rewrite record_failures_state. unfold get_summary.
  cbn [decisions cycle_times defect_counts quality_scores camera_failures
       total_failures].
  destruct (decisions self) as [|d ds]; [done|].
  cbn [length]. by repeat split.
Qed.

Lemma failures_only_move_failed_cycles_witness :
  decisions (record_cycle (report_of "PASS" 350 0 1) __init__) <> []
  /\ sm_failed_cycles
       (get_summary (record_failures 3 (record_cycle (report_of "PASS" 350 0 1) __init__)))
     = 3%nat
  /\ sm_total_cycles
       (get_summary (record_failures 3 (record_cycle (report_of "PASS" 350 0 1) __init__)))
     = 1%nat.
Proof.
  assert (decisions (record_cycle (report_of "PASS" 350 0 1) __init__) <> []) as H1
    by discriminate.
  split; [exact H1|].
  destruct (failures_only_move_failed_cycles 3
              (record_cycle (report_of "PASS" 350 0 1) __init__) H1) as (H & _ & _).
  rewrite H. split; reflexivity.
Defined.

Lemma since_reset_snoc (ops : list MetricsOp) (op : MetricsOp) :
  since_reset (ops ++ [op])
  = match op with OpReset => [] | _ => since_reset ops ++ [op] end.
Proof. unfold since_reset. by rewrite foldl_app. Qed.

Lemma after_ops_snoc (ops : list MetricsOp) (op : MetricsOp) :
  after_ops (ops ++ [op]) = apply_op (after_ops ops) op.
Proof. unfold after_ops. by rewrite foldl_app. Qed.

Lemma reports_in_snoc (ops : list MetricsOp) (op : MetricsOp) :
  reports_in (ops ++ [op])
  = reports_in ops ++ match op with OpRecordCycle r => [r] | _ => [] end.
Proof. unfold reports_in. rewrite omap_app. by destruct op. Qed.

Lemma failures_in_snoc (ops : list MetricsOp) (op : MetricsOp) :
  failures_in (ops ++ [op])
  = (failures_in ops + match op with OpRecordFailure => 1 | _ => 0 end)%nat.
Proof. unfold failures_in. rewrite omap_app, length_app. by destruct op. Qed.

Lemma camera_failures_in_snoc (camera_id : string) (ops : list MetricsOp)
    (op : MetricsOp) :
  camera_failures_in camera_id (ops ++ [op])
  = (camera_failures_in camera_id ops
     + match op with
       | OpRecordCameraFailure c => if decide (c = camera_id) then 1 else 0
       | _ => 0
       end)%nat.
Proof.
  unfold camera_failures_in. rewrite omap_app, length_app.
  destruct op as [r|c| |]; try reflexivity. cbn. by destruct (decide _).
Qed.

(** The state of a collector as the record of the calls since the last
    [reset]. *)
Lemma collector_history (ops : list MetricsOp) :
  cycle_times (after_ops ops) = map rp_total_time_ms (reports_in (since_reset ops))
  /\ decisions (after_ops ops) = map rp_decision (reports_in (since_reset ops))
  /\ defect_counts (after_ops ops) = map rp_defects_found (reports_in (since_reset ops))
  /\ quality_scores (after_ops ops)
     = map rp_aggregated_score (reports_in (since_reset ops))
  /\ total_failures (after_ops ops) = failures_in (since_reset ops)
  /\ (forall camera_id,
        camera_failures (after_ops ops) !! camera_id
        = match camera_failures_in camera_id (since_reset ops) with
          | O => None
          | S n => Some (S n)
          end).
Proof.
  induction ops as [|op ops IH] using rev_ind.
  - do 5 (split; [reflexivity|]). intros camera_id. apply lookup_empty.
  - destruct IH as (H1 & H2 & H3 & H4 & H5 & H6).
    rewrite after_ops_snoc, since_reset_snoc.
    destruct op as [report|cam| |]; cbn [apply_op].
    + rewrite reports_in_snoc, failures_in_snoc, !map_app. cbn.
      rewrite H1, H2, H3, H4, H5, Nat.add_0_r.
      do 5 (split; [reflexivity|]). intros camera_id.
      rewrite camera_failures_in_snoc, Nat.add_0_r. apply H6.
    + rewrite reports_in_snoc, failures_in_snoc, app_nil_r. cbn.
      rewrite H1, H2, H3, H4, H5, Nat.add_0_r.
      do 5 (split; [reflexivity|]). intros camera_id.
      rewrite camera_failures_in_snoc.
      destruct (decide (cam = camera_id)) as [->|Hne].
      * rewrite lookup_insert_eq, H6, Nat.add_1_r.
        by destruct (camera_failures_in camera_id (since_reset ops)).
      * rewrite lookup_insert_ne by done. by rewrite H6, Nat.add_0_r.
    + rewrite reports_in_snoc, failures_in_snoc, app_nil_r. cbn.
      rewrite H1, H2, H3, H4, H5.
      do 4 (split; [reflexivity|]). split; [lia|]. intros camera_id.
      rewrite camera_failures_in_snoc, Nat.add_0_r. apply H6.
    + do 5 (split; [reflexivity|]). intros camera_id. apply lookup_empty.
Qed.

(** X11. Whatever calls were made on a collector, its state is the
    record of the calls since the last [reset]: the four lists hold, in
    order, the time, decision, defect count and score of the reports
    recorded, so they always have the same length; [total_failures] is
    the number of [record_failure] calls and the count kept for a camera
    the number of [record_camera_failure] calls for it (no entry when
    there was none). *)
Theorem collector_state_is_history (ops : list MetricsOp) :
  let self := after_ops ops in
  let reports := reports_in (since_reset ops) in
  cycle_times self = map rp_total_time_ms reports
  /\ decisions self = map rp_decision reports
  /\ defect_counts self = map rp_defects_found reports
  /\ quality_scores self = map rp_aggregated_score reports
  /\ total_failures self = failures_in (since_reset ops)
  /\ (forall camera_id,
        camera_failures self !! camera_id
        = match camera_failures_in camera_id (since_reset ops) with
          | O => None
          | S n => Some (S n)
          end)
  /\ length (cycle_times self) = length (decisions self)
  /\ length (defect_counts self) = length (decisions self)
  /\ length (quality_scores self) = length (decisions self).
Proof.
  cbn zeta. destruct (collector_history ops) as (H1 & H2 & H3 & H4 & H5 & H6).
  do 5 (split; [assumption|]). split; [exact H6|].
  rewrite H1, H2, H3, H4, !length_fmap. by repeat split.
Qed.









End MetricsMore.

(** ** The lock of the collector *)

Section MetricsLockMore.

Import MetricsLock.

Lemma sum_list_with_pos {A} (f : A -> nat) (l : list A) :
  (0 < sum_list_with f l)%nat -> exists i x, l !! i = Some x /\ (0 < f x)%nat.
Proof.
  induction l as [|a l IH]; cbn; [lia|]. intros H.
  destruct (f a) as [|n] eqn:E.
  - destruct IH as (i & x & Hi & Hx); [lia|]. by exists (S i), x.
  - exists O, a. split; [reflexivity | lia].
Qed.

Lemma remaining_zero_done (ths : list Pc) :
  sum_list_with remaining ths = O -> Forall (fun pc => pc = Done) ths.
Proof.
  induction ths as [|pc ths IH]; cbn; [constructor|]. intros H.
  constructor; [destruct pc; cbn in H; (reflexivity || lia) | apply IH; lia].
Qed.

(** X13. Under every schedule the lock keeps the threads apart: two
    threads are never both between taking and releasing the lock, the
    lock is held exactly when one thread is there, and the counter never
    runs ahead of the increments written: it stays between its initial
    value and that value plus the number of threads. *)
Theorem lock_mutual_exclusion (n P : nat) (schedule : list nat) :
  let st := run schedule (init n P) in
  (forall i j pci pcj,
      snd st !! i = Some pci -> snd st !! j = Some pcj ->
      inside pci = 1%nat -> inside pcj = 1%nat -> i = j)
  /\ (lock_held (fst st) = true
      <-> exists i pc, snd st !! i = Some pc /\ inside pc = 1%nat)
  /\ (n <= total_failures (fst st) <= n + P)%nat.
Proof.
  cbn zeta.
  destruct (run_invariant n schedule (init n P) (init_invariant n P))
    as (Htot & Hin & _).
  pose proof (run_length schedule (init n P)) as Hlen.
  unfold init in Hlen at 2. cbn in Hlen. rewrite length_replicate in Hlen.
  set (st := run schedule (init n P)) in *.
  split; [|split].
  - intros i j pci pcj Hi Hj Hci Hcj. destruct (decide (i = j)) as [|Hne]; [done|].
    pose proof (sum_list_with_two inside _ i j _ _ Hne Hi Hj) as H.
    destruct (lock_held (fst st)); lia.
  - split.
    + intros Hheld. rewrite Hheld in Hin.
      destruct (sum_list_with_pos inside (snd st)) as (i & pc & Hi & Hpc); [lia|].
      exists i, pc. split; [exact Hi|]. destruct pc; cbn in Hpc |- *; (reflexivity || lia).
    + intros (i & pc & Hi & Hpc).
      pose proof (sum_list_with_in _ inside _ (list_elem_of_lookup_2 _ _ _ Hi)) as H.
      destruct (lock_held (fst st)); [reflexivity | lia].
  - rewrite Htot. split; [lia|].
    assert (sum_list_with written (snd st) <= length (snd st))%nat as H; [|lia].
    clear. induction (snd st) as [|pc ths IH]; cbn; [lia|].
    destruct pc; cbn; lia.
Qed.

(** From a state the threads can reach, some thread can always take a
    step that brings it nearer to its end. *)
Lemma step_progress (n : nat) (st : State) :
  invariant n st ->
  (0 < sum_list_with remaining (snd st))%nat ->
  exists i, (sum_list_with remaining (snd (step i st))
             < sum_list_with remaining (snd st))%nat.
Proof.
  destruct st as [s ths]. intros (_ & Hin & _) Hpos. cbn in *.
  assert (exists i pc, ths !! i = Some pc
                       /\ exists s' pc', thread_step s pc = Some (s', pc')
                                          /\ (remaining pc' < remaining pc)%nat)
    as (i & pc & Hi & s' & pc' & Hstep & Hlt).
  { destruct (lock_held s) eqn:Hheld.
    - destruct (sum_list_with_pos inside ths) as (i & pc & Hi & Hpc); [lia|].
      exists i, pc. split; [exact Hi|].
      destruct pc; cbn in Hpc; try lia; cbn; eexists _, _; (split; [reflexivity|]);
        cbn; lia.
    - destruct (sum_list_with_pos remaining ths Hpos) as (i & pc & Hi & Hpc).
      exists i, pc. split; [exact Hi|].
      pose proof (sum_list_with_in _ inside _ (list_elem_of_lookup_2 _ _ _ Hi)) as H.
      destruct pc; cbn in Hpc, H; try lia.
      cbn. rewrite Hheld. eexists _, _. split; [reflexivity|]. cbn. lia. }
  exists i. unfold step; cbn. rewrite Hi, Hstep. cbn.
  pose proof (sum_list_with_insert remaining ths i pc pc' Hi). lia.
Qed.

Lemma completion (n : nat) (k : nat) :
  forall st, invariant n st -> (sum_list_with remaining (snd st) <= k)%nat ->
             exists more, all_done (run more st).
Proof.
  induction k as [|k IH]; intros st Hinv Hk.
  - exists []. apply remaining_zero_done. cbn. lia.
  - destruct (sum_list_with remaining (snd st)) as [|m] eqn:E.
    + exists []. by apply remaining_zero_done.
    + destruct (step_progress n st Hinv) as [i Hi]; [lia|].
      destruct (IH (step i st)) as [more Hmore].
      * by apply step_invariant.
      * lia.
      * exists (i :: more). exact Hmore.
Qed.

(** X14. The threads never block each other for good: after any
    interleaving of their steps, some continuation lets every call of
    [record_failure] return, and the counter then reads its initial value
    plus the number of threads. *)
Theorem lock_deadlock_free (n P : nat) (schedule : list nat) :
  exists more,
    all_done (run (schedule ++ more) (init n P))
    /\ total_failures (fst (run (schedule ++ more) (init n P))) = (n + P)%nat.
Proof.
  pose proof (run_invariant n schedule (init n P) (init_invariant n P)) as Hinv.
  destruct (completion n _ _ Hinv (Nat.le_refl _)) as [more Hdone].
  exists more. rewrite run_app. split; [exact Hdone|].
  destruct (run_invariant n more _ Hinv) as (Htot & _).
  rewrite Htot, (sum_list_with_all_done _ Hdone), !run_length.
  unfold init; cbn. by rewrite length_replicate.
Qed.

End MetricsLockMore.

(** ** Camera and retry wrapper *)

Section CameraMore.

Import InspectionController.

Lemma frames_of_succ (camera : Camera.t) (n : nat) :
  frames_of camera (S n)
  = frames_of camera n
    ++ match attempt camera n with Ok f => [f] | Raise _ => [] end.
Proof.
  unfold frames_of. rewrite seq_S, omap_app. cbn. by destruct (attempt camera n).
Qed.

(** X15. A camera numbers the frames it delivers consecutively: after
    any number of calls of [capture], [frame_count] has grown by the
    number of frames delivered, the frames carry the numbers that follow
    the old [frame_count] one by one, a failed call taking no number, and
    each frame carries the id and resolution of the camera. *)
Theorem camera_numbers_frames (camera : Camera.t) (n : nat) :
  Camera.frame_count (Camera.after n camera)
  = (Camera.frame_count camera + length (frames_of camera n))%nat
  /\ map fr_frame_number (frames_of camera n)
     = seq (S (Camera.frame_count camera)) (length (frames_of camera n))
  /\ Forall (fun f => fr_camera_id f = Camera.camera_id camera
                      /\ fr_resolution f = Camera.resolution camera)
            (frames_of camera n)
  /\ (length (frames_of camera n) <= n)%nat.
Proof.
  induction n as [|n (IH1 & IH2 & IH3 & IH4)].
  - cbn. rewrite Nat.add_0_r. repeat split; (constructor || lia).
  - rewrite frames_of_succ.
    change (Camera.after (S n) camera)
      with (fst (Camera.capture (Camera.after n camera))).
    unfold attempt.
    assert (Camera.camera_id (Camera.after n camera) = Camera.camera_id camera
            /\ Camera.resolution (Camera.after n camera) = Camera.resolution camera)
      as [Hid Hres].
    { clear. induction n as [|n [IHa IHb]]; [by split|].
      change (Camera.after (S n) camera)
        with (fst (Camera.capture (Camera.after n camera))).
      unfold Camera.capture. destruct (Qltb _ _); cbn; by split. }
    unfold Camera.capture.
    destruct (Qltb (dr_failure _) Camera.FAILURE_RATE); cbn [fst snd].
    + rewrite app_nil_r. cbn [Camera.frame_count].
      split; [exact IH1|]. split; [exact IH2|]. split; [exact IH3 | lia].
    + cbn [Camera.frame_count]. rewrite length_app, map_app, seq_app. cbn [length].
      rewrite IH1, IH2. split; [lia|]. split.
      { cbn. reflexivity. }
      split; [|lia].
      apply Forall_app. split; [exact IH3|]. constructor; [|constructor].
      unfold Camera._generate_mock_frame; cbn. by split.
Qed.

(** Among the first [n] attempts either all fail or there is a first one
    that captures. *)
Lemma first_capture (camera : Camera.t) (n : nat) :
  (forall i, (i < n)%nat -> fails camera i)
  \/ exists k frame, (k < n)%nat /\ (forall i, (i < k)%nat -> fails camera i)
                     /\ attempt camera k = Ok frame.
Proof.
  induction n as [|n [IH|(k & frame & Hk & Hfail & Hok)]].
  - left. intros i Hi. lia.
  - destruct (attempt camera n) as [frame|e] eqn:E.
    + right. exists n, frame. split; [lia|]. split; [exact IH | exact E].
    + left. intros i Hi. destruct (decide (i = n)) as [->|Hne].
      * by exists e.
      * apply IH. lia.
  - right. exists k, frame. split; [lia|]. by split.
Qed.

(** X16. Whatever the camera does, the retry wrapper returns and never
    raises: it calls [capture] until the first call that captures or
    until the maximum is reached, sleeps 50 ms between two calls, hands
    back the frame of the first capture, and hands back None exactly when
    all the attempts it was allowed have failed. *)
Theorem capture_with_retry_total (camera : Camera.t) (max_retries : Z) :
  exists (k : nat) (o : option Frame),
    _capture_with_retry camera max_retries
    = (Camera.after k camera, attempts (Camera.camera_id camera) k, Ok o)
    /\ (k <= Z.to_nat max_retries)%nat
    /\ captures_in (attempts (Camera.camera_id camera) k) = k
    /\ sleeps_in (attempts (Camera.camera_id camera) k) = replicate (k - 1) 0.05
    /\ (forall i, (S i < k)%nat -> fails camera i)
    /\ match o with
       | Some frame => (1 <= k)%nat /\ attempt camera (k - 1) = Ok frame
       | None => k = Z.to_nat max_retries /\ forall i, (i < k)%nat -> fails camera i
       end.
Proof.
  unfold _capture_with_retry.
  destruct (Z_le_gt_dec max_retries 0) as [Hle|Hgt].
  { exists O, None. replace (Z.to_nat max_retries) with O by lia.
    do 4 (split; [reflexivity|]). split; [intros; lia|]. split; [reflexivity|].
    intros; lia. }
  destruct (first_capture camera (Z.to_nat max_retries))
    as [Hfail|(k & frame & Hk & Hfail & Hok)].
  - exists (Z.to_nat max_retries), None.
    rewrite (retry_loop_exhausted max_retries _ 0%Z camera) by (lia || done).
    destruct (attempts_shape (Camera.camera_id camera) (Z.to_nat max_retries))
      as [H1 H2].
    split; [reflexivity|]. split; [lia|]. split; [exact H1|]. split; [exact H2|].
    split; [intros i Hi; apply Hfail; lia|]. split; [reflexivity | exact Hfail].
  - exists (S k), (Some frame).
    rewrite (retry_loop_succeeds max_retries frame k _ 0%Z camera)
      by (lia || done).
    destruct (attempts_shape (Camera.camera_id camera) (S k)) as [H1 H2].
    split; [reflexivity|]. split; [lia|]. split; [exact H1|]. split; [exact H2|].
    split; [intros i Hi; apply Hfail; lia|].
    cbn [Nat.sub]. rewrite Nat.sub_0_r. split; [lia | exact Hok].
Qed.

End CameraMore.

(** ** Capture stage *)

Section CaptureStageMore.

Import InspectionController.

Lemma retry_loop_camera_id (max_retries : Z) (n : nat) :
  forall (attempt_no : Z) (camera : Camera.t),
    Camera.camera_id (fst (fst (retry_loop n attempt_no max_retries camera)))
    = Camera.camera_id camera.
Proof.
  induction n as [|n IH]; intros attempt_no camera; cbn [retry_loop].
  - reflexivity.
  - pose proof (capture_camera_id camera) as Hid.
    destruct (Camera.capture camera) as [camera' [frame|e]]; cbn in Hid |- *.
    + exact Hid.
    + destruct (attempt_no <? max_retries - 1)%Z; [|exact Hid].
      specialize (IH (attempt_no + 1)%Z camera').
      destruct (retry_loop n (attempt_no + 1) max_retries camera')
        as [[camera'' evs] res]. cbn in IH |- *. congruence.
Qed.

(** One turn of the collecting loop, for a camera that is there. *)
Lemma collect_capture_step (i : nat) (frames : gmap string Frame) (w : World)
    (c : Camera.t) :
  cameras w !! i = Some c ->
  exists c' evs,
    collect_capture i frames w
    = ({| cameras := <[i := c']> (cameras w); metrics := metrics w;
          trace := trace w ++ evs |},
       Ok (match captured c with
           | Some f => <[Camera.camera_id c := f]> frames
           | None => frames
           end))
    /\ Camera.camera_id c' = Camera.camera_id c.
Proof.
  intros Hi. unfold collect_capture, captured. rewrite Hi.
  pose proof (retry_loop_events default_max_retries
                (Z.to_nat default_max_retries) 0%Z c) as [_ [o Ho]].
  pose proof (retry_loop_camera_id default_max_retries
                (Z.to_nat default_max_retries) 0%Z c) as Hid.
  unfold _capture_with_retry.
  destruct (retry_loop _ _ _ c) as [[c' evs] r]. cbn in Ho, Hid. subst r.
  exists c', evs. split; [|exact Hid]. by destruct o.
Qed.

Lemma camera_ids_insert (cams : list Camera.t) (i : nat) (c c' : Camera.t) :
  cams !! i = Some c -> Camera.camera_id c' = Camera.camera_id c ->
  Camera.camera_id <$> <[i := c']> cams = Camera.camera_id <$> cams.
Proof.
  intros Hi Hid. rewrite list_fmap_insert, Hid. apply list_insert_id.
  by rewrite list_lookup_fmap, Hi.
Qed.

Lemma distinct_ids (cams : list Camera.t) (i j : nat) (ci cj : Camera.t) :
  NoDup (Camera.camera_id <$> cams) ->
  cams !! i = Some ci -> cams !! j = Some cj ->
  Camera.camera_id ci = Camera.camera_id cj -> i = j.
Proof.
  intros Hnd Hi Hj Hid.
  eapply (NoDup_lookup _ i j (Camera.camera_id ci) Hnd);
    rewrite list_lookup_fmap; [by rewrite Hi | by rewrite Hj, Hid].
Qed.

(** The collecting loop over distinct positions of cameras with distinct
    ids: each camera met sets its own entry, if it delivered a frame. *)
Lemma foldM_collect_frames (order : list nat) :
  forall (frames : gmap string Frame) (w : World),
    NoDup order -> NoDup (camera_ids w) ->
    exists w' frames',
      foldM collect_capture order frames w = (w', Ok frames')
      /\ camera_ids w' = camera_ids w
      /\ metrics w' = metrics w
      /\ (forall i c, i ∈ order -> cameras w !! i = Some c ->
            frames' !! Camera.camera_id c
            = match captured c with
              | Some f => Some f
              | None => frames !! Camera.camera_id c
              end)
      /\ (forall id, (forall i c, i ∈ order -> cameras w !! i = Some c ->
                                  Camera.camera_id c <> id) ->
                     frames' !! id = frames !! id).
Proof.
  induction order as [|i order IH]; intros frames w Hnd Hids.
  - exists w, frames. split; [reflexivity|]. split; [reflexivity|].
    split; [reflexivity|]. split; [|done].
    intros i c Hi. by apply elem_of_nil in Hi.
  - apply NoDup_cons in Hnd as [Hi Hnd]. cbn [foldM]. unfold bind.
    destruct (cameras w !! i) as [c|] eqn:Hc.
    + destruct (collect_capture_step i frames w c Hc) as (c' & evs & -> & Hid).
      set (w1 := {| cameras := <[i := c']> (cameras w); metrics := metrics w;
                    trace := trace w ++ evs |}).
      assert (camera_ids w1 = camera_ids w) as Hids1.
      { unfold camera_ids, w1; cbn. by eapply camera_ids_insert. }
      assert (forall j, j <> i -> cameras w1 !! j = cameras w !! j) as Hsame.
      { intros j Hj. unfold w1; cbn. by rewrite list_lookup_insert_ne. }
      destruct (IH (match captured c with
                    | Some f => <[Camera.camera_id c := f]> frames
                    | None => frames
                    end) w1 Hnd) as (w' & frames' & Hrun & Hids' & Hm & Hin & Hout).
      { by rewrite Hids1. }
      exists w', frames'. split; [exact Hrun|]. split; [congruence|].
      split; [exact Hm|]. split.
      * intros j cj Hj Hcj. apply elem_of_cons in Hj as [->|Hj].
        -- assert (cj = c) as -> by congruence.
           rewrite Hout.
           ++ destruct (captured c); [apply lookup_insert_eq | reflexivity].
           ++ intros j cj Hj Hcj' Heq.
              assert (j <> i) as Hne by (intros ->; done).
              rewrite Hsame in Hcj' by done.
              apply Hne. by eapply (distinct_ids (cameras w)).
        -- assert (j <> i) as Hne by (intros ->; done).
           rewrite (Hin j cj Hj) by (by rewrite Hsame).
           destruct (captured cj); [reflexivity|].
           destruct (captured c); [|reflexivity].
           rewrite lookup_insert_ne; [reflexivity|].
           intros Heq. apply Hne. symmetry. by eapply (distinct_ids (cameras w)).
      * intros id Hid'. rewrite Hout.
        -- destruct (captured c); [|reflexivity].
           rewrite lookup_insert_ne; [reflexivity|].
           apply (Hid' i c); [apply list_elem_of_here | exact Hc].
        -- intros j cj Hj Hcj.
           assert (j <> i) as Hne by (intros ->; done).
           rewrite Hsame in Hcj by done.
           apply (Hid' j cj); [by apply list_elem_of_further | exact Hcj].
    + assert (collect_capture i frames w = (w, Ok frames)) as ->.
      { unfold collect_capture. by rewrite Hc. }
      destruct (IH frames w Hnd Hids) as (w' & frames' & Hrun & Hids' & Hm & Hin & Hout).
      exists w', frames'. split; [exact Hrun|]. split; [exact Hids'|].
      split; [exact Hm|]. split.
      * intros j cj Hj Hcj. apply elem_of_cons in Hj as [->|Hj]; [congruence|].
        by apply (Hin j cj).
      * intros id Hid'. apply Hout. intros j cj Hj Hcj.
        apply (Hid' j cj); [by apply list_elem_of_further | exact Hcj].
Qed.

(** The collecting loop never raises and leaves the collector alone. *)
Lemma foldM_collect_metrics (order : list nat) :
  forall (frames : gmap string Frame) (w : World),
    exists w' frames',
      foldM collect_capture order frames w = (w', Ok frames')
      /\ metrics w' = metrics w
      /\ length (cameras w') = length (cameras w).
Proof.
  induction order as [|i order IH]; intros frames w.
  - by exists w, frames.
  - cbn [foldM]. unfold bind. destruct (cameras w !! i) as [c|] eqn:Hc.
    + destruct (collect_capture_step i frames w c Hc) as (c' & evs & -> & _).
      destruct (IH (match captured c with
                    | Some f => <[Camera.camera_id c := f]> frames
                    | None => frames
                    end)
                   {| cameras := <[i := c']> (cameras w); metrics := metrics w;
                      trace := trace w ++ evs |})
        as (w' & frames' & -> & Hm & Hlen).
      exists w', frames'. split; [reflexivity|]. split; [exact Hm|].
      cbn in Hlen. by rewrite length_insert in Hlen.
    + assert (collect_capture i frames w = (w, Ok frames)) as ->.
      { unfold collect_capture. by rewrite Hc. }
      apply IH.
Qed.

(** The capture stage over cameras of distinct ids. *)
Lemma parallel_capture_distinct (env : Env) (w : World) :
  cameras w <> [] -> NoDup (camera_ids w) ->
  exists w' frames,
    _parallel_capture env w = (w', Ok frames)
    /\ (forall c, c ∈ cameras w -> frames !! Camera.camera_id c = captured c)
    /\ (forall id, id ∉ camera_ids w -> frames !! id = None)
    /\ metrics w' = metrics w
    /\ camera_ids w' = camera_ids w.
Proof.
  intros Hne Hids. unfold _parallel_capture.
  destruct (cameras w) as [|c0 cs] eqn:Ecams; [done|]. rewrite <- Ecams in *.
  set (order := as_completed (capture_order env) (seq 0 (length (cameras w)))).
  assert (order ≡ₚ seq 0 (length (cameras w))) as Hperm by apply as_completed_perm.
  destruct (foldM_collect_frames order ∅ w)
    as (w' & frames & Hrun & Hids' & Hm & Hin & Hout).
  { rewrite Hperm. apply NoDup_seq. }
  { exact Hids. }
  exists w', frames. split; [exact Hrun|]. split; [|split; [|by split]].
  - intros c Hc. apply list_elem_of_lookup in Hc as [i Hi].
    rewrite (Hin i c).
    + destruct (captured c); [reflexivity | apply lookup_empty].
    + rewrite Hperm. apply elem_of_seq. apply lookup_lt_Some in Hi. lia.
    + exact Hi.
  - intros id Hid. rewrite Hout; [apply lookup_empty|].
    intros i c _ Hi Heq. apply Hid. unfold camera_ids.
    apply list_elem_of_fmap. exists c. split; [done|].
    by eapply list_elem_of_lookup_2.
Qed.

(** X17. The capture stage of a controller without cameras raises
    [ValueError]; with cameras of distinct ids it returns, in whatever
    order the futures complete, the mapping that holds for each camera
    what its retry wrapper delivered: the frame under the id of the
    camera, or no entry when the wrapper gave up.  It leaves the metrics
    as they are: a camera that gives up is not recorded as a camera
    failure. *)
Theorem parallel_capture_frames (env : Env) (w : World) :
  (cameras w = [] ->
   _parallel_capture env w
   = (w, Raise (ValueError "max_workers must be greater than 0")))
  /\ (cameras w <> [] -> NoDup (camera_ids w) ->
      exists w' frames,
        _parallel_capture env w = (w', Ok frames)
        /\ (forall c, c ∈ cameras w -> frames !! Camera.camera_id c = captured c)
        /\ (forall id, id ∉ camera_ids w -> frames !! id = None)
        /\ metrics w' = metrics w
        /\ camera_ids w' = camera_ids w).
Proof.
  split.
  - intros Hnil. unfold _parallel_capture. by rewrite Hnil.
  - apply parallel_capture_distinct.
Qed.

Lemma parallel_capture_frames_witness :
  cameras world_two_cameras <> [] /\ NoDup (camera_ids world_two_cameras)
  /\ exists w' frames,
      _parallel_capture quiet_env world_two_cameras = (w', Ok frames)
      /\ (forall c, c ∈ cameras world_two_cameras ->
            frames !! Camera.camera_id c = captured c)
      /\ (forall id, id ∉ camera_ids world_two_cameras -> frames !! id = None)
      /\ metrics w' = metrics world_two_cameras
      /\ camera_ids w' = camera_ids world_two_cameras.
Proof.
  assert (cameras world_two_cameras <> []) as H1 by discriminate.
  assert (NoDup (camera_ids world_two_cameras)) as H2.
  { unfold camera_ids; cbn. apply NoDup_cons. split.
    - intros H. apply list_elem_of_singleton in H. discriminate H.
    - apply NoDup_singleton. }
  split; [exact H1|]. split; [exact H2|].
  exact (proj2 (parallel_capture_frames quiet_env world_two_cameras) H1 H2).
Defined.

End CaptureStageMore.

(** ** The cycle *)

Section CycleMore.

Import InspectionController.

Context (preprocessor_process : Frame -> Result Preprocessed).
Context (inference_engine_infer : Preprocessed -> string -> Result InferenceResult).
Context (env : Env).

#[local] Abbreviation single_frame :=
  (_process_single_frame preprocessor_process inference_engine_infer env).
#[local] Abbreviation collect :=
  (collect_result preprocessor_process inference_engine_infer env).

(** What a pipeline run returns comes from the postprocessor: classified
    detections, a score in [0,1], the id it was run for. *)
Lemma single_frame_result (camera_id : string) (frame : Frame) (r : CameraResult) :
  single_frame camera_id frame = Ok r ->
  exists ds q,
    cr_detections r = Some ds /\ Forall classified ds
    /\ cr_quality_score r = Some q /\ 0 <= q <= 1
    /\ cr_camera_id r = camera_id
    /\ cr_pipeline_time_ms r = Some (pipeline_ms env camera_id).
Proof.
  unfold _process_single_frame.
  destruct (preprocessor_process frame) as [pre|e]; [|discriminate]. cbn.
  destruct (inference_engine_infer pre camera_id) as [ir|e]; [|discriminate]. cbn.
  unfold Postprocessor.process.
  destruct (quality_score_of_classified
              (Postprocessor._classify_severity
                 (Postprocessor._filter_detections (default [] (ir_detections ir)))))
    as (q & Hq & _ & _ & Hrange).
  { apply classify_classified. }
  rewrite Hq. cbn. destruct (ir_timestamp ir) as [ts|]; [|discriminate]. cbn.
  intros [= <-]. cbn. eexists _, q. split; [reflexivity|].
  split; [apply classify_classified|]. split; [reflexivity|].
  split; [exact Hrange|]. split; reflexivity.
Qed.

(** The results of the pipeline stage are results of pipeline runs. *)
Lemma pipeline_results_classified (schedule : list nat) (frames : gmap string Frame)
    (k : string) (r : CameraResult) :
  foldl collect ∅ (as_completed schedule (map_to_list frames)) !! k = Some r ->
  Forall (fun d => is_Some (severity d)) (ResultAggregator.detections_of r)
  /\ exists q, cr_quality_score r = Some q /\ 0 <= q <= 1.
Proof.
  rewrite (collect_all preprocessor_process inference_engine_infer env).
  destruct (frames !! k) as [frame|]; [|discriminate].
  destruct (single_frame k frame) as [r'|e] eqn:E; [|discriminate].
  intros [= ->]. destruct (single_frame_result _ _ _ E) as (ds & q & Hds & Hcl & Hq & Hr & _).
  split; [|by exists q].
  unfold ResultAggregator.detections_of. rewrite Hds. cbn.
  eapply Forall_impl; [exact Hcl|]. intros d [H|[H|H]]; rewrite H; by eexists.
Qed.

(** The reporter never fails on results whose detections all carry a
    severity. *)
Lemma report_of_severities (utcnow : string) (cycle_id : Z)
    (results : gmap string CameraResult) (aggregated : AggregatedResult) (t : Q) :
  (forall k r, results !! k = Some r ->
     Forall (fun d => is_Some (severity d)) (ResultAggregator.detections_of r)) ->
  exists report,
    InspectionReporter.generate_report utcnow cycle_id results aggregated t = Ok report
    /\ rp_decision report = ar_decision aggregated
    /\ rp_cameras_used report = ar_cameras_used aggregated
    /\ rp_cycle_id report = cycle_id
    /\ (forall k, is_Some (rp_cameras report !! k) <-> is_Some (results !! k)).
Proof.
  intros Hsev. unfold InspectionReporter.generate_report.
  destruct (camera_details_cases (map_to_list results) ∅ (NoDup_fst_map_to_list _))
    as [(cams & -> & Hin & Hout)|(_ & k & r & d & Hk & Hd & Hnone)].
  - cbn. eexists. split; [reflexivity|]. cbn. do 3 (split; [reflexivity|]).
    intros k. split.
    + intros [cd Hcd]. destruct (results !! k) as [r|] eqn:Hk; [by eexists|].
      rewrite Hout, lookup_empty in Hcd; [discriminate|].
      intros Hin'. apply list_elem_of_fmap in Hin' as ([k' r'] & -> & Hin').
      apply elem_of_map_to_list in Hin'. cbn in Hk. congruence.
    + intros [r Hk]. apply elem_of_map_to_list in Hk.
      destruct (Hin k r Hk) as (cd & _ & Hcd). by eexists.
  - apply elem_of_map_to_list in Hk. specialize (Hsev k r Hk).
    rewrite Forall_forall in Hsev. destruct (Hsev d Hd) as [sev Hs]. congruence.
Qed.

(** X19. A cycle ends in one of two ways.  Either it returns a report,
    and then the only change to the metrics is that report recorded as
    one cycle; its decision is PASS or FAIL and at least one camera
    contributed.  Or it raises, and then the only change to the metrics
    is one more failure; the error is one of three: the [ValueError] of
    a controller without cameras, "No frames captured from any camera",
    or the aggregator's "No camera results to aggregate" when every
    pipeline run failed.  In neither case is a camera failure recorded. *)
Theorem execute_cycle_outcomes (cycle_id : Z) (w : World) :
  (exists w' report,
      execute_cycle preprocessor_process inference_engine_infer env cycle_id w
      = (w', Ok report)
      /\ metrics w' = MetricsCollector.record_cycle report (metrics w)
      /\ (rp_decision report = "PASS" \/ rp_decision report = "FAIL")
      /\ (1 <= rp_cameras_used report)%nat
      /\ rp_cycle_id report = cycle_id)
  \/ (exists w' e,
        execute_cycle preprocessor_process inference_engine_infer env cycle_id w
        = (w', Raise e)
        /\ metrics w' = MetricsCollector.record_failure (metrics w)
        /\ ((e = ValueError "max_workers must be greater than 0" /\ cameras w = [])
            \/ e = Exception "No frames captured from any camera"
            \/ e = ValueError "No camera results to aggregate")).
Proof.
  unfold execute_cycle, try_except, bind.
  destruct (cameras w) as [|c0 cs] eqn:Ecams.
  { right. unfold _parallel_capture. rewrite Ecams. cbn.
    eexists _, _. split; [reflexivity|]. split; [reflexivity|]. by left. }
  assert (exists w1 frames, _parallel_capture env w = (w1, Ok frames)
                            /\ metrics w1 = metrics w) as (w1 & frames & -> & Hm1).
  { unfold _parallel_capture. rewrite Ecams. rewrite <- Ecams.
    destruct (foldM_collect_metrics
                (as_completed (capture_order env) (seq 0 (length (cameras w)))) ∅ w)
      as (w1 & frames & H & Hm & _).
    by exists w1, frames. }
  destruct (decide (frames = ∅)) as [Hempty|Hne].
  { right. cbn. eexists _, _. split; [reflexivity|]. cbn. rewrite Hm1.
    split; [reflexivity|]. right. by left. }
  unfold _process_frames. destruct (decide (frames = ∅)) as [|_]; [done|].
  unfold emit, ret, lift, with_metrics, raise. cbn.
  set (results := foldl collect ∅ (as_completed (pipeline_order env) (map_to_list frames))).
  destruct (decide (results = ∅)) as [Hres|Hres].
  { right. unfold ResultAggregator.aggregate.
    destruct (decide (results = ∅)) as [_|]; [|done]. cbn.
    eexists _, _. split; [reflexivity|]. cbn. rewrite Hm1.
    split; [reflexivity|]. right. by right. }
  left. destruct (aggregate_nonempty results Hres) as (agg & -> & _ & Hdec & _ & Hused).
  cbn.
  destruct (report_of_severities (report_utcnow env) cycle_id results agg (cycle_ms env))
    as (report & -> & Hd & Hu & Hc & _).
  { intros k r Hk. by destruct (pipeline_results_classified _ _ _ _ Hk). }
  cbn. eexists _, report. split; [reflexivity|]. cbn. rewrite Hm1.
  split; [reflexivity|]. split.
  { rewrite Hd, Hdec. destruct (Qle_bool _ _); [by left | by right]. }
  split; [|exact Hc]. rewrite Hu, Hused.
  destruct (decide (size results = O)) as [Hz|Hz]; [|lia].
  apply map_size_empty_iff in Hz. done.
Qed.

(** The results of the pipeline stage as a mapping: the frames whose run
    returned, each with its result. *)
Lemma pipeline_results_map (schedule : list nat) (frames : gmap string Frame) :
  foldl collect ∅ (as_completed schedule (map_to_list frames))
  = map_imap (fun k frame => run_entry (single_frame k frame)) frames.
Proof.
  apply map_eq. intros k.
  rewrite (collect_all preprocessor_process inference_engine_infer env).
  rewrite map_lookup_imap. destruct (frames !! k) as [frame|]; [|reflexivity].
  cbn. by destruct (single_frame k frame).
Qed.

(** The cycle after a capture stage that delivered frames, step by step. *)
Lemma execute_cycle_after_capture (cycle_id : Z) (w w1 : World)
    (frames : gmap string Frame) :
  _parallel_capture env w = (w1, Ok frames) -> frames <> ∅ ->
  let results := map_imap (fun k frame => run_entry (single_frame k frame)) frames in
  let submitted :=
    map (fun task => EvPipeline (fst task))
        (as_completed (pipeline_order env) (map_to_list frames)) in
  execute_cycle preprocessor_process inference_engine_infer env cycle_id w
  = match ResultAggregator.aggregate results with
    | Raise e =>
        ({| cameras := cameras w1;
            metrics := MetricsCollector.record_failure (metrics w1);
            trace := (trace w1 ++ submitted) ++ [EvAggregate] |}, Raise e)
    | Ok aggregated =>
        match InspectionReporter.generate_report (report_utcnow env) cycle_id
                results aggregated (cycle_ms env) with
        | Raise e =>
            ({| cameras := cameras w1;
                metrics := MetricsCollector.record_failure (metrics w1);
                trace := ((trace w1 ++ submitted) ++ [EvAggregate]) ++ [EvReport] |},
             Raise e)
        | Ok report =>
            ({| cameras := cameras w1;
                metrics := MetricsCollector.record_cycle report (metrics w1);
                trace := ((trace w1 ++ submitted) ++ [EvAggregate]) ++ [EvReport] |},
             Ok report)
        end
    end.
Proof.
  intros Hcap Hne. cbn zeta.
  unfold execute_cycle, try_except, bind. rewrite Hcap.
  destruct (decide (frames = ∅)) as [|_]; [done|].
  unfold _process_frames. destruct (decide (frames = ∅)) as [|_]; [done|].
  unfold emit, ret, lift, with_metrics, raise, bind. cbn.
  rewrite pipeline_results_map.
  destruct (ResultAggregator.aggregate _) as [agg|e]; cbn; [|reflexivity].
  destruct (InspectionReporter.generate_report _ _ _ _ _) as [report|e]; reflexivity.
Qed.

(** X18. After a capture stage that delivered frames, the report covers
    exactly the devices whose pipeline run returned: they are its entries
    and [cameras_used] is their number.  When every run raised there is
    no report: the aggregator is called on the empty mapping, its
    "No camera results to aggregate" is what the cycle raises, one
    failure is recorded and the reporter is not called. *)
Theorem cycle_reports_successful_runs (cycle_id : Z) (w w1 : World)
    (frames : gmap string Frame) :
  _parallel_capture env w = (w1, Ok frames) -> frames <> ∅ ->
  let results := map_imap (fun k frame => run_entry (single_frame k frame)) frames in
  (results = ∅ ->
   exists w',
     execute_cycle preprocessor_process inference_engine_infer env cycle_id w
     = (w', Raise (ValueError "No camera results to aggregate"))
     /\ metrics w' = MetricsCollector.record_failure (metrics w1)
     /\ EvAggregate ∈ trace w' /\ EvReport ∉ drop (length (trace w1)) (trace w'))
  /\ (results <> ∅ ->
      exists w' report,
        execute_cycle preprocessor_process inference_engine_infer env cycle_id w
        = (w', Ok report)
        /\ metrics w' = MetricsCollector.record_cycle report (metrics w1)
        /\ (forall k, is_Some (rp_cameras report !! k)
                      <-> exists frame r, frames !! k = Some frame
                                          /\ single_frame k frame = Ok r)
        /\ rp_cameras_used report = size results
        /\ (1 <= rp_cameras_used report <= size frames)%nat).
Proof.
  intros Hcap Hne results.
  pose proof (execute_cycle_after_capture cycle_id w w1 frames Hcap Hne) as Hrun.
  cbn zeta in Hrun. fold results in Hrun. split.
  - intros Hempty. rewrite Hempty in Hrun. cbn in Hrun.
    eexists. split; [exact Hrun|]. cbn. split; [reflexivity|]. split.
    + apply elem_of_app. right. apply list_elem_of_here.
    + rewrite <- app_assoc, drop_app_length. intros Hin.
      apply elem_of_app in Hin as [Hin|Hin].
      * apply list_elem_of_fmap in Hin as (task & Heq & _). discriminate Heq.
      * apply list_elem_of_singleton in Hin. discriminate Hin.
  - intros Hres.
    destruct (aggregate_nonempty results Hres) as (agg & Hagg & _ & _ & _ & Hused).
    rewrite Hagg in Hrun.
    destruct (report_of_severities (report_utcnow env) cycle_id results agg
                (cycle_ms env)) as (report & Hrep & _ & Hu & _ & Hdom).
    { intros k r Hk. unfold results in Hk.
      rewrite <- (pipeline_results_map (pipeline_order env)) in Hk.
      by destruct (pipeline_results_classified (pipeline_order env) _ _ _ Hk). }
    rewrite Hrep in Hrun. eexists _, report. split; [exact Hrun|]. cbn.
    split; [reflexivity|]. split; [|split].
    + intros k. rewrite Hdom. unfold results. rewrite map_lookup_imap.
      destruct (frames !! k) as [frame|]; cbn.
      * destruct (single_frame k frame) as [r|e] eqn:E; cbn.
        -- split; [intros _; by exists frame, r | by eexists].
        -- split; [intros [? H]; discriminate H|].
           intros (f & r & [= <-] & Hr). congruence.
      * split; [intros [? H]; discriminate H|]. intros (f & r & H & _). discriminate H.
    + by rewrite Hu, Hused.
    + rewrite Hu, Hused. split.
      * destruct (decide (size results = O)) as [Hz|Hz]; [|lia].
        apply map_size_empty_iff in Hz. done.
      * unfold results. rewrite <- !size_dom. apply subseteq_size.
        intros k Hk. apply elem_of_dom in Hk as [r Hr]. apply elem_of_dom.
        rewrite map_lookup_imap in Hr. destruct (frames !! k); [by eexists|].
        discriminate Hr.
Qed.

End CycleMore.

(** ** Pipeline failures and the cycle *)

Section PipelineAndCycle.

Import InspectionController.

Context (preprocessor_process : Frame -> Result Preprocessed).
Context (inference_engine_infer : Preprocessed -> string -> Result InferenceResult).
Context (env : Env).

#[local] Abbreviation single_frame :=
  (_process_single_frame preprocessor_process inference_engine_infer env).

(** C7. Given a non-empty mapping of the capture stage, the pipeline
    stage returns, in whatever order the runs complete, a mapping whose
    keys are among those of the capture stage: a device whose run raises
    has no entry, every device whose run returns has that result as its
    entry, and no failure makes the stage raise or touches another
    device's entry.  The cycle then goes on to a report over the devices
    that have an entry, as long as there is one; when there is none,
    every run having raised, the cycle is aborted with the aggregator's
    [ValueError] and counted as a failure. *)
Theorem process_frames_partial (cycle_id : Z) (w w1 : World)
    (frames : gmap string Frame) :
  _parallel_capture env w = (w1, Ok frames) -> frames <> ∅ ->
  exists (results : gmap string CameraResult) (w2 : World),
    _process_frames preprocessor_process inference_engine_infer env frames w1
    = (w2, Ok results)
    /\ dom results ⊆ dom frames
    /\ (forall k frame e,
          frames !! k = Some frame -> single_frame k frame = Raise e ->
          results !! k = None)
    /\ (forall k frame result,
          frames !! k = Some frame -> single_frame k frame = Ok result ->
          results !! k = Some result)
    /\ metrics w2 = metrics w1
    /\ (results <> ∅ ->
        exists w' report,
          execute_cycle preprocessor_process inference_engine_infer env cycle_id w
          = (w', Ok report)
          /\ (forall k, is_Some (rp_cameras report !! k) <-> is_Some (results !! k))
          /\ rp_cameras_used report = size results
          /\ metrics w' = MetricsCollector.record_cycle report (metrics w1))
    /\ (results = ∅ ->
        exists w',
          execute_cycle preprocessor_process inference_engine_infer env cycle_id w
          = (w', Raise (ValueError "No camera results to aggregate"))
          /\ metrics w' = MetricsCollector.record_failure (metrics w1)).
Proof.
  intros Hcap Hne.
  pose proof (execute_cycle_after_capture preprocessor_process inference_engine_infer
                env cycle_id w w1 frames Hcap Hne) as Hrun.
  cbn zeta in Hrun.
  rewrite <- (pipeline_results_map preprocessor_process inference_engine_infer env
                (pipeline_order env)) in Hrun.
  destruct (process_frames_entries preprocessor_process inference_engine_infer env
              frames w1 Hne) as (results & w2 & Hstage & Hdom & Hraise & Hok & Hm & _).
  assert (results = foldl (collect_result preprocessor_process inference_engine_infer env)
                      ∅ (as_completed (pipeline_order env) (map_to_list frames)))
    as Hresults.
  { unfold _process_frames in Hstage.
    destruct (decide (frames = ∅)) as [|_]; [done|].
    unfold bind, emit, ret in Hstage. cbn in Hstage. congruence. }
  rewrite <- Hresults in Hrun.
  exists results, w2. split; [exact Hstage|]. split; [exact Hdom|].
  split; [exact Hraise|]. split; [exact Hok|]. split; [exact Hm|]. split.
  - intros Hres.
    destruct (aggregate_nonempty results Hres) as (agg & Hagg & _ & _ & _ & Hused).
    rewrite Hagg in Hrun.
    destruct (report_of_severities (report_utcnow env) cycle_id results agg
                (cycle_ms env)) as (report & Hrep & _ & Hu & _ & Hcams).
    { intros k r Hk. rewrite Hresults in Hk.
      by destruct (pipeline_results_classified preprocessor_process
                     inference_engine_infer env (pipeline_order env) _ _ _ Hk). }
    rewrite Hrep in Hrun. eexists _, report. split; [exact Hrun|].
    split; [exact Hcams|]. split; [by rewrite Hu, Hused | reflexivity].
  - intros Hres. rewrite Hres in Hrun. cbn in Hrun.
    eexists. split; [exact Hrun | reflexivity].
Qed.

End PipelineAndCycle.

Section PipelineAndCycleExamples.

Import InspectionController.

Lemma process_frames_partial_witness :
  _parallel_capture quiet_env world_two_cameras = (world_two_captured, Ok two_frames)
  /\ two_frames <> ∅
  /\ exists (results : gmap string CameraResult) (report : Report),
      snd (_process_frames (preprocess_failing_on "CAM_02") infer_nothing quiet_env
             two_frames world_two_captured) = Ok results
      /\ results !! "CAM_02" = None
      /\ is_Some (results !! "CAM_01")
      /\ snd (execute_cycle (preprocess_failing_on "CAM_02") infer_nothing quiet_env 1
                world_two_cameras) = Ok report
      /\ rp_cameras_used report = size results.
Proof.
  assert (_parallel_capture quiet_env world_two_cameras
          = (world_two_captured, Ok two_frames)) as Hcap by (vm_compute; reflexivity).
  assert (two_frames <> ∅) as Hne by (unfold two_frames; apply insert_non_empty).
  split; [exact Hcap|]. split; [exact Hne|].
  destruct (process_frames_partial (preprocess_failing_on "CAM_02") infer_nothing
              quiet_env 1 _ _ _ Hcap Hne)
    as (results & w2 & Hstage & _ & Hraise & Hok & _ & Hreport & _).
  assert (exists r, _process_single_frame (preprocess_failing_on "CAM_02") infer_nothing
                      quiet_env "CAM_01" (frame_of "CAM_01") = Ok r) as [r Hr]
    by (eexists; reflexivity).
  assert (results !! "CAM_01" = Some r) as H1.
  { apply (Hok "CAM_01" (frame_of "CAM_01")); [|exact Hr].
    unfold two_frames. apply lookup_insert_eq. }
  assert (results !! "CAM_02" = None) as H2.
  { apply (Hraise "CAM_02" (frame_of "CAM_02") (KeyError "resolution")); [|reflexivity].
    unfold two_frames. rewrite lookup_insert_ne by done. apply lookup_singleton_eq. }
  destruct Hreport as (w' & report & Hrun & _ & Hused & _).
  { intros E. rewrite E, lookup_empty in H1. discriminate H1. }
  exists results, report. rewrite Hstage, Hrun.
  split; [reflexivity|]. split; [exact H2|]. split; [by exists r|].
  split; [reflexivity | exact Hused].
Defined.

(** A lone device whose pipeline run raises: the capture stage delivers
    its frame, the pipeline stage returns the empty mapping, and the
    cycle is aborted with the [ValueError] of the aggregator and counted
    as a failure.  And on the empty mapping the pipeline stage itself
    raises. *)
Lemma lone_pipeline_failure_aborts_cycle :
  (exists w1,
      _parallel_capture quiet_env world_one_camera
      = (w1, Ok {["CAM_01" := frame_of "CAM_01"]})
      /\ _process_single_frame (preprocess_failing_on "CAM_01") infer_nothing
           quiet_env "CAM_01" (frame_of "CAM_01") = Raise (KeyError "resolution")
      /\ snd (_process_frames (preprocess_failing_on "CAM_01") infer_nothing quiet_env
                {["CAM_01" := frame_of "CAM_01"]} w1) = Ok ∅)
  /\ snd (execute_cycle (preprocess_failing_on "CAM_01") infer_nothing quiet_env 1
            world_one_camera)
     = Raise (ValueError "No camera results to aggregate")
  /\ MetricsCollector.total_failures
       (metrics (fst (execute_cycle (preprocess_failing_on "CAM_01") infer_nothing
                        quiet_env 1 world_one_camera))) = 1%nat
  /\ MetricsCollector.decisions
       (metrics (fst (execute_cycle (preprocess_failing_on "CAM_01") infer_nothing
                        quiet_env 1 world_one_camera))) = []
  /\ snd (_process_frames (preprocess_failing_on "CAM_01") infer_nothing quiet_env
            ∅ world_one_camera)
     = Raise (ValueError "max_workers must be greater than 0").
Proof.
  split.
  { eexists. split; [vm_compute; reflexivity|]. split; [reflexivity|].
    vm_compute; reflexivity. }
  split; [vm_compute; reflexivity|]. split; [vm_compute; reflexivity|].
  split; [vm_compute; reflexivity|]. reflexivity.
Qed.

End PipelineAndCycleExamples.

Section CycleExamples.

Import InspectionController.

Lemma cycle_reports_successful_runs_witness :
  exists w1 frames,
    _parallel_capture quiet_env world_two_cameras = (w1, Ok frames)
    /\ frames <> ∅
    /\ map_imap (fun k frame =>
                   run_entry (_process_single_frame (preprocess_failing_on "CAM_02")
                                infer_nothing quiet_env k frame)) frames <> ∅
    /\ exists w' report,
        execute_cycle (preprocess_failing_on "CAM_02") infer_nothing quiet_env 1
          world_two_cameras = (w', Ok report)
        /\ rp_cameras_used report
           = size (map_imap (fun k frame =>
                               run_entry (_process_single_frame
                                            (preprocess_failing_on "CAM_02")
                                            infer_nothing quiet_env k frame)) frames).
Proof.
  destruct (parallel_capture_distinct quiet_env world_two_cameras)
    as (w1 & frames & Hcap & Hin & _).
  { discriminate. }
  { unfold camera_ids; cbn. apply NoDup_cons. split.
    - intros H. apply list_elem_of_singleton in H. discriminate H.
    - apply NoDup_singleton. }
  assert (frames !! "CAM_01" = captured (camera_drawing "CAM_01" 0.5)) as H1.
  { apply (Hin (camera_drawing "CAM_01" 0.5)). apply list_elem_of_here. }
  assert (frames <> ∅) as Hne.
  { intros ->. rewrite lookup_empty in H1. discriminate H1. }
  assert (map_imap (fun k frame =>
                      run_entry (_process_single_frame (preprocess_failing_on "CAM_02")
                                   infer_nothing quiet_env k frame)) frames <> ∅) as Hres.
  { intros H. apply (f_equal (fun m => m !! "CAM_01")) in H.
    rewrite map_lookup_imap, H1, lookup_empty in H. discriminate H. }
  exists w1, frames. split; [exact Hcap|]. split; [exact Hne|]. split; [exact Hres|].
  destruct (proj2 (cycle_reports_successful_runs (preprocess_failing_on "CAM_02")
                     infer_nothing quiet_env 1 _ _ _ Hcap Hne) Hres)
    as (w' & report & Hrun & _ & _ & Hused & _).
  exists w', report. split; [exact Hrun | exact Hused].
Defined.

(** With the preprocessor and the inference engine of the repository a
    pipeline run returns, whatever the frame and the detections the
    engine generates. *)
Lemma mock_pipeline_returns (t1 t2 : Q) (generated : string -> list Detection)
    (env : Env) (camera_id : string) (frame : Frame) :
  exists r,
    _process_single_frame (Preprocessor.process t1)
      (fun pre cam => InferenceEngine.infer (generated cam) t2 pre cam)
      env camera_id frame = Ok r.
Proof.
  unfold _process_single_frame, Preprocessor.process, InferenceEngine.infer. cbn.
  destruct (process_scores_survivors (postprocessing_ms env camera_id)
              {| ir_camera_id := camera_id; ir_timestamp := Some (fr_timestamp frame);
                 ir_detections := Some (generated camera_id);
                 ir_inference_time_ms := t2 |} camera_id (fr_timestamp frame) eq_refl)
    as (r & q & -> & _).
  cbn. by eexists.
Qed.

(** A camera that captures at one of its first three attempts delivers a
    frame through the wrapper. *)
Lemma captured_within_three (c : Camera.t) :
  (exists k frame, (k < 3)%nat /\ attempt c k = Ok frame) -> is_Some (captured c).
Proof.
  intros (k & frame & Hk & Hok). unfold captured, _capture_with_retry.
  destruct (first_capture c 3) as [Hfail|(k' & frame' & Hk' & Hfail & Hok')].
  - destruct (Hfail k Hk) as [e He]. congruence.
  - rewrite (retry_loop_succeeds default_max_retries frame' k' _ 0%Z c);
      [by eexists | unfold default_max_retries; lia
       | unfold default_max_retries; lia | exact Hfail | exact Hok'].
Qed.

(** X21. When the cameras have distinct ids and each of them captures at
    one of its three attempts, the cycle run with the preprocessor and
    inference engine of the repository returns a report that covers
    every camera: one entry per camera id and [cameras_used] equal to the
    number of cameras, whatever the engine detects and in whatever order
    the futures complete; the report is recorded as one cycle and no
    failure is counted. *)
Theorem cycle_with_all_devices (t1 t2 : Q) (generated : string -> list Detection)
    (env : Env) (cycle_id : Z) (w : World) :
  cameras w <> [] -> NoDup (camera_ids w) ->
  (forall c, c ∈ cameras w -> exists k frame, (k < 3)%nat /\ attempt c k = Ok frame) ->
  exists w' report,
    execute_cycle (Preprocessor.process t1)
      (fun pre cam => InferenceEngine.infer (generated cam) t2 pre cam)
      env cycle_id w = (w', Ok report)
    /\ rp_cameras_used report = length (cameras w)
    /\ (forall id, is_Some (rp_cameras report !! id) <-> id ∈ camera_ids w)
    /\ metrics w' = MetricsCollector.record_cycle report (metrics w)
    /\ MetricsCollector.total_failures (metrics w')
       = MetricsCollector.total_failures (metrics w).
Proof.
  intros Hne Hids Hall.
  destruct (parallel_capture_distinct env w Hne Hids)
    as (w1 & frames & Hcap & Hin & Hout & Hm & _).
  set (pre := Preprocessor.process t1).
  set (inf := fun p cam => InferenceEngine.infer (generated cam) t2 p cam).
  set (results := map_imap (fun k frame =>
                              run_entry (_process_single_frame pre inf env k frame))
                           frames).
  assert (forall id, is_Some (frames !! id) <-> id ∈ camera_ids w) as Hframes.
  { intros id. split.
    - intros Hsome. destruct (decide (id ∈ camera_ids w)) as [|Hno]; [done|].
      rewrite (Hout id Hno) in Hsome. by destruct Hsome.
    - intros Hid. apply list_elem_of_fmap in Hid as (c & -> & Hc).
      rewrite (Hin c Hc). apply captured_within_three. by apply Hall. }
  assert (forall id, is_Some (results !! id) <-> is_Some (frames !! id)) as Hresults.
  { intros id. unfold results. rewrite map_lookup_imap.
    destruct (frames !! id) as [frame|]; cbn [mbind option_bind]; [|done].
    destruct (mock_pipeline_returns t1 t2 generated env id frame) as [r Hr].
    unfold pre, inf. rewrite Hr. cbn. split; by eexists. }
  assert (size results = length (cameras w)) as Hsize.
  { rewrite <- size_dom.
    assert (dom results = list_to_set (camera_ids w)) as ->.
    { apply set_eq. intros id.
      by rewrite elem_of_dom, Hresults, Hframes, elem_of_list_to_set. }
    rewrite size_list_to_set by exact Hids. unfold camera_ids. apply length_fmap. }
  assert (frames <> ∅) as Hfne.
  { intros ->. destruct (cameras w) as [|c0 cs] eqn:E; [done|].
    assert (is_Some ((∅ : gmap string Frame) !! Camera.camera_id c0)) as [f Hf].
    { apply Hframes. unfold camera_ids. rewrite E. apply list_elem_of_here. }
    rewrite lookup_empty in Hf. discriminate Hf. }
  assert (results <> ∅) as Hrne.
  { intros H. rewrite H, map_size_empty in Hsize.
    destruct (cameras w); [done | discriminate]. }
  pose proof (execute_cycle_after_capture pre inf env cycle_id w w1 frames Hcap Hfne)
    as Hrun. cbn zeta in Hrun. fold results in Hrun.
  destruct (aggregate_nonempty results Hrne) as (agg & Hagg & _ & _ & _ & Hused).
  rewrite Hagg in Hrun.
  destruct (report_of_severities (report_utcnow env) cycle_id results agg (cycle_ms env))
    as (report & Hrep & _ & Hu & _ & Hdom).
  { intros k r Hk. unfold results in Hk.
    rewrite <- (pipeline_results_map pre inf env (pipeline_order env)) in Hk.
    by destruct (pipeline_results_classified pre inf env (pipeline_order env) _ _ _ Hk). }
  rewrite Hrep in Hrun. eexists _, report. split; [exact Hrun|]. cbn.
  split; [by rewrite Hu, Hused|]. split.
  { intros id. by rewrite Hdom, Hresults, Hframes. }
  rewrite Hm. by split.
Qed.

Lemma cycle_with_all_devices_witness :
  cameras world_two_cameras <> [] /\ NoDup (camera_ids world_two_cameras)
  /\ exists w' report,
      execute_cycle (Preprocessor.process 30)
        (fun pre cam => InferenceEngine.infer [raw_detection 0.85] 150 pre cam)
        quiet_env 1 world_two_cameras = (w', Ok report)
      /\ rp_cameras_used report = 2%nat.
Proof.
  assert (cameras world_two_cameras <> []) as H1 by discriminate.
  assert (NoDup (camera_ids world_two_cameras)) as H2.
  { unfold camera_ids; cbn. apply NoDup_cons. split.
    - intros H. apply list_elem_of_singleton in H. discriminate H.
    - apply NoDup_singleton. }
  split; [exact H1|]. split; [exact H2|].
  destruct (cycle_with_all_devices 30 150 (fun _ => [raw_detection 0.85]) quiet_env 1
              world_two_cameras H1 H2) as (w' & report & Hrun & Hused & _).
  { intros c Hc. exists O. cbn in Hc.
    apply elem_of_cons in Hc as [->|Hc]; [eexists; split; [lia | reflexivity]|].
    apply list_elem_of_singleton in Hc as ->. eexists; split; [lia | reflexivity]. }
  exists w', report. split; [exact Hrun | exact Hused].
Defined.

End CycleExamples.

(** ** The run of the cycles *)

Section RunCycles.

Import InspectionController.

Context (preprocessor_process : Frame -> Result Preprocessed).
Context (inference_engine_infer : Preprocessed -> string -> Result InferenceResult).

(** What a cycle does to the metrics: it records its report, or one
    failure. *)
Lemma execute_cycle_metrics (env : Env) (cycle_id : Z) (w : World) :
  metrics (fst (execute_cycle preprocessor_process inference_engine_infer env
                  cycle_id w))
  = match snd (execute_cycle preprocessor_process inference_engine_infer env
                 cycle_id w) with
    | Ok report => MetricsCollector.record_cycle report (metrics w)
    | Raise _ => MetricsCollector.record_failure (metrics w)
    end.
Proof.
  destruct (cameras w) as [|c0 cs] eqn:Ecams.
  { unfold execute_cycle, try_except, bind, _parallel_capture. by rewrite Ecams. }
  assert (exists w1 frames, _parallel_capture env w = (w1, Ok frames)
                            /\ metrics w1 = metrics w) as (w1 & frames & Hcap & Hm1).
  { unfold _parallel_capture. rewrite Ecams. rewrite <- Ecams.
    destruct (foldM_collect_metrics
                (as_completed (capture_order env) (seq 0 (length (cameras w)))) ∅ w)
      as (w1 & frames & H & Hm & _).
    by exists w1, frames. }
  destruct (decide (frames = ∅)) as [Hempty|Hne].
  { unfold execute_cycle, try_except, bind. rewrite Hcap.
    destruct (decide (frames = ∅)) as [_|]; [|done]. cbn. by rewrite Hm1. }
  rewrite (execute_cycle_after_capture preprocessor_process inference_engine_infer
             env cycle_id w w1 frames Hcap Hne).
  destruct (ResultAggregator.aggregate _) as [agg|e]; cbn; [|by rewrite Hm1].
  destruct (InspectionReporter.generate_report _ _ _ _ _) as [report|e]; cbn;
    by rewrite Hm1.
Qed.

Context (envs : Z -> Env).

#[local] Abbreviation run_one :=
  (InspectionSystem.run_one preprocessor_process inference_engine_infer envs).
#[local] Abbreviation loop :=
  (InspectionSystem.loop preprocessor_process inference_engine_infer envs).

Lemma run_one_accounts (num_cycles cycle_id : Z) (self : InspectionSystem.t) :
  let m := metrics (InspectionSystem.controller self) in
  let m' := metrics (InspectionSystem.controller (run_one num_cycles cycle_id self)) in
  (length (MetricsCollector.decisions m') + MetricsCollector.total_failures m'
   = S (length (MetricsCollector.decisions m) + MetricsCollector.total_failures m))%nat
  /\ MetricsCollector.camera_failures m' = MetricsCollector.camera_failures m
  /\ InspectionSystem.running (run_one num_cycles cycle_id self)
     = InspectionSystem.running self
  /\ exists result,
      InspectionSystem.printed (run_one num_cycles cycle_id self)
      = InspectionSystem.printed self ++ [OutStarting cycle_id; result]
      /\ match result with
         | OutResult c _ | OutError c _ => c = cycle_id
         | _ => False
         end.
Proof.
  cbn zeta. unfold InspectionSystem.run_one.
  pose proof (execute_cycle_metrics (envs cycle_id) cycle_id
                (InspectionSystem.controller self)) as Hm.
  destruct (execute_cycle _ _ _ _ _) as [w [report|e]]; cbn in Hm |- *.
  - assert (metrics (if (cycle_id <? num_cycles)%Z
                     then {| cameras := cameras w; metrics := metrics w;
                             trace := trace w ++ [EvSleep 0.5] |}
                     else w) = metrics w) as -> by (by destruct (_ <? _)%Z).
    rewrite Hm. cbn. rewrite length_app. cbn. split; [lia|].
    split; [reflexivity|]. split; [reflexivity|].
    exists (OutResult cycle_id report). by rewrite <- app_assoc.
  - rewrite Hm. cbn. split; [lia|]. split; [reflexivity|]. split; [reflexivity|].
    exists (OutError cycle_id e). by rewrite <- app_assoc.
Qed.

Lemma loop_accounts (num_cycles : Z) (cycle_ids : list Z) :
  forall self : InspectionSystem.t,
    InspectionSystem.running self = true ->
    let m := metrics (InspectionSystem.controller self) in
    let m' := metrics (InspectionSystem.controller (loop num_cycles cycle_ids self)) in
    (length (MetricsCollector.decisions m') + MetricsCollector.total_failures m'
     = length (MetricsCollector.decisions m) + MetricsCollector.total_failures m
       + length cycle_ids)%nat
    /\ MetricsCollector.camera_failures m' = MetricsCollector.camera_failures m
    /\ InspectionSystem.running (loop num_cycles cycle_ids self) = true
    /\ exists outs,
        InspectionSystem.printed (loop num_cycles cycle_ids self)
        = InspectionSystem.printed self ++ outs
        /\ length outs = (2 * length cycle_ids)%nat.
Proof.
  induction cycle_ids as [|cycle_id rest IH]; intros self Hrun; cbn zeta.
  - cbn. split; [lia|]. split; [reflexivity|]. split; [exact Hrun|].
    exists []. by rewrite app_nil_r.
  - cbn [InspectionSystem.loop]. rewrite Hrun.
    destruct (run_one_accounts num_cycles cycle_id self)
      as (H1 & H2 & H3 & result & H4 & _).
    destruct (IH (run_one num_cycles cycle_id self)) as (I1 & I2 & I3 & outs & I4 & I5).
    { by rewrite H3. }
    cbn zeta in *. split; [cbn [length]; lia|]. split; [congruence|].
    split; [exact I3|].
    exists ([OutStarting cycle_id; result] ++ outs). split.
    + by rewrite I4, H4, <- app_assoc.
    + rewrite length_app. cbn [length]. lia.
Qed.

(** X20. [run_cycles] goes through all its cycles, a cycle that raises
    not stopping the next: when the run ends each of the [num_cycles]
    cycles has been counted once, as a recorded cycle or as a failure;
    no camera failure is ever recorded; after the banner two lines were
    printed per cycle and then the summary of the metrics as they are at
    the end. *)
Theorem run_cycles_accounts_for_every_cycle (num_cycles : Z)
    (self : InspectionSystem.t) :
  InspectionSystem.running self = true ->
  let self' := InspectionSystem.run_cycles preprocessor_process
                 inference_engine_infer envs num_cycles self in
  let m := metrics (InspectionSystem.controller self) in
  let m' := metrics (InspectionSystem.controller self') in
  (length (MetricsCollector.decisions m') + MetricsCollector.total_failures m'
   = length (MetricsCollector.decisions m) + MetricsCollector.total_failures m
     + Z.to_nat num_cycles)%nat
  /\ MetricsCollector.camera_failures m' = MetricsCollector.camera_failures m
  /\ exists outs,
      InspectionSystem.printed self'
      = InspectionSystem.printed self ++ [OutBanner num_cycles] ++ outs
        ++ [OutSummary (MetricsCollector.get_summary m')]
      /\ length outs = (2 * Z.to_nat num_cycles)%nat.
Proof.
  intros Hrun. cbn zeta. unfold InspectionSystem.run_cycles,
    InspectionSystem._print_summary. cbn.
  destruct (loop_accounts num_cycles (seqZ 1 num_cycles)
              {| InspectionSystem.running := InspectionSystem.running self;
                 InspectionSystem.controller := InspectionSystem.controller self;
                 InspectionSystem.printed :=
                   InspectionSystem.printed self ++ [OutBanner num_cycles] |} Hrun)
    as (H1 & H2 & _ & outs & H4 & H5).
  cbn zeta in *. cbn in H1, H2, H4. rewrite length_seqZ in H1, H5.
  split; [exact H1|]. split; [exact H2|].
  exists outs. split; [by rewrite H4, <- !app_assoc | exact H5].
Qed.

End RunCycles.

Lemma run_cycles_accounts_for_every_cycle_witness :
  InspectionSystem.running system_two_cameras = true
  /\ let self' := InspectionSystem.run_cycles (preprocess_failing_on "CAM_02")
                    infer_nothing (fun _ => quiet_env) 2 system_two_cameras in
     let m := InspectionController.metrics
                (InspectionSystem.controller system_two_cameras) in
     let m' := InspectionController.metrics (InspectionSystem.controller self') in
     (length (MetricsCollector.decisions m') + MetricsCollector.total_failures m'
      = length (MetricsCollector.decisions m) + MetricsCollector.total_failures m
        + Z.to_nat 2)%nat
     /\ MetricsCollector.camera_failures m' = MetricsCollector.camera_failures m
     /\ exists outs,
         InspectionSystem.printed self'
         = InspectionSystem.printed system_two_cameras ++ [OutBanner 2] ++ outs
           ++ [OutSummary (MetricsCollector.get_summary m')]
         /\ length outs = (2 * Z.to_nat 2)%nat.
Proof.
  split; [reflexivity|].
  exact (run_cycles_accounts_for_every_cycle (preprocess_failing_on "CAM_02")
           infer_nothing (fun _ => quiet_env) 2 system_two_cameras eq_refl).
Defined.

(** ** The loggers *)

Section LoggerMore.

Import Logger.

Lemma names_logger_refl (n : string) : names_logger n n = true.
Proof. unfold names_logger. by rewrite bool_decide_eq_true_2. Qed.

Lemma getLogger_same (m n : string) (st : State) :
  names_logger m n = true -> getLogger m st = getLogger n st.
Proof.
  unfold names_logger, getLogger. intros H.
  apply orb_true_iff in H as [H|H].
  - apply bool_decide_eq_true in H. by subst.
  - apply andb_true_iff in H as [-> ->]. reflexivity.
Qed.

Lemma getLogger_put (m n : string) (logger : PyLogger) (st : State) :
  getLogger n (put m logger st)
  = if names_logger m n then logger else getLogger n st.
Proof.
  unfold names_logger, getLogger, put.
  destruct (is_root m) eqn:Hm; cbn.
  - destruct (is_root n) eqn:Hn; cbn.
    + by rewrite orb_true_r.
    + rewrite orb_false_r. rewrite bool_decide_eq_false_2; [reflexivity|].
      intros ->. congruence.
  - rewrite orb_false_r. destruct (is_root n) eqn:Hn; cbn.
    + rewrite bool_decide_eq_false_2; [reflexivity|]. intros ->. congruence.
    + case_bool_decide as Hmn.
      * subst. by rewrite lookup_insert_eq.
      * by rewrite lookup_insert_ne.
Qed.

Lemma put_globals (m : string) (logger : PyLogger) (st : State) :
  _loggers (put m logger st) = _loggers st
  /\ _log_level (put m logger st) = _log_level st
  /\ heap (put m logger st) = heap st.
Proof. unfold put. by destruct (is_root m). Qed.

(** The handlers a logger holds are at addresses in use. *)
Lemma logger_addresses (name : string) (st : State) (a : nat) :
  a ∈ lg_handlers (getLogger name st) -> a ∈ addresses st.
Proof.
  unfold getLogger, addresses. destruct (is_root name).
  - intros Ha. apply elem_of_union. left. apply elem_of_union. right.
    by apply elem_of_list_to_set.
  - destruct (manager st !! name) as [logger|] eqn:E; cbn.
    + intros Ha. apply elem_of_union. right. apply elem_of_union_list.
      exists (list_to_set (lg_handlers logger)). split.
      * apply list_elem_of_fmap. exists (name, logger). split; [reflexivity|].
        by apply elem_of_map_to_list.
      * by apply elem_of_list_to_set.
    + intros Ha. by apply elem_of_nil in Ha.
Qed.

(** The loop over the handlers of one logger. *)
Lemma set_handler_levels (level : Z) (l : list nat) :
  forall st : State,
    let st' := foldl (set_handler_level level) st l in
    root st' = root st /\ manager st' = manager st
    /\ _loggers st' = _loggers st /\ _log_level st' = _log_level st
    /\ forall a, handler_at st' a
                 = if bool_decide (a ∈ l) then {| h_level := level |}
                   else handler_at st a.
Proof.
  induction l as [|b l IH]; intros st; cbn zeta.
  - do 4 (split; [reflexivity|]). intros a.
    rewrite bool_decide_eq_false_2; [reflexivity|]. apply not_elem_of_nil.
  - cbn [foldl]. destruct (IH (set_handler_level level st b)) as (H1 & H2 & H3 & H4 & H5).
    cbn zeta in *. do 4 (split; [assumption|]). intros a. rewrite H5.
    destruct (decide (a ∈ l)) as [Hin|Hout].
    + rewrite !bool_decide_eq_true_2; [reflexivity | by apply list_elem_of_further | done].
    + rewrite (bool_decide_eq_false_2 (a ∈ l)) by done.
      unfold handler_at, set_handler_level; cbn.
      destruct (decide (a = b)) as [->|Hne].
      * rewrite lookup_insert_eq. rewrite bool_decide_eq_true_2; [reflexivity|].
        apply list_elem_of_here.
      * rewrite lookup_insert_ne by done. rewrite bool_decide_eq_false_2; [reflexivity|].
        intros Hin. apply elem_of_cons in Hin as [?|?]; done.
Qed.

Lemma getLogger_handlers (name : string) (st st' : State) :
  root st' = root st -> manager st' = manager st ->
  getLogger name st' = getLogger name st.
Proof. unfold getLogger. by intros -> ->. Qed.

(** One turn of the loop of [set_log_level]. *)
Lemma set_levels_step (level : Z) (st : State) (m : string) :
  let st' := set_levels level st m in
  _loggers st' = _loggers st /\ _log_level st' = _log_level st
  /\ (forall n, getLogger n st'
                = if names_logger m n then with_level level (getLogger n st)
                  else getLogger n st)
  /\ (forall a, handler_at st' a
                = if bool_decide (a ∈ lg_handlers (getLogger m st))
                  then {| h_level := level |} else handler_at st a).
Proof.
  cbn zeta. unfold set_levels.
  destruct (set_handler_levels level (lg_handlers (getLogger m st))
              (put m (with_level level (getLogger m st)) st))
    as (H1 & H2 & H3 & H4 & H5).
  cbn zeta in *.
  destruct (put_globals m (with_level level (getLogger m st)) st) as (P1 & P2 & P3).
  split; [congruence|]. split; [congruence|]. split.
  - intros n. rewrite (getLogger_handlers n _ _ H1 H2), getLogger_put.
    destruct (names_logger m n) eqn:E; [|reflexivity].
    by rewrite (getLogger_same m n st E).
  - intros a. rewrite H5. unfold handler_at. by rewrite P3.
Qed.

Lemma with_level_twice (level : Z) (logger : PyLogger) :
  with_level level (with_level level logger) = with_level level logger.
Proof. reflexivity. Qed.

(** The loop of [set_log_level]. *)
Lemma set_levels_loop (level : Z) (names : list string) :
  forall st0 : State,
    let st' := foldl (set_levels level) st0 names in
    _loggers st' = _loggers st0
    /\ _log_level st' = _log_level st0
    /\ (forall n,
          getLogger n st'
          = if existsb (fun m => names_logger m n) names
            then with_level level (getLogger n st0)
            else getLogger n st0)
    /\ (forall a,
          handler_at st' a
          = if existsb (fun m => bool_decide (a ∈ lg_handlers (getLogger m st0))) names
            then {| h_level := level |}
            else handler_at st0 a).
Proof.
  induction names as [|m names IH]; intros st0; cbn zeta.
  - done.
  - cbn [foldl existsb].
    destruct (IH (set_levels level st0 m)) as (I1 & I2 & I3 & I4).
    destruct (set_levels_step level st0 m) as (S1 & S2 & S3 & S4).
    cbn zeta in *.
    split; [congruence|]. split; [congruence|]. split.
    + intros n. rewrite I3, S3.
      destruct (names_logger m n) eqn:Hm; cbn.
      * rewrite with_level_twice. by destruct (existsb _ names).
      * reflexivity.
    + intros a. rewrite I4, S4.
      assert (existsb (fun m' => bool_decide
                         (a ∈ lg_handlers (getLogger m' (set_levels level st0 m)))) names
              = existsb (fun m' => bool_decide (a ∈ lg_handlers (getLogger m' st0))) names)
        as ->.
      { clear. induction names as [|m' names IH]; [reflexivity|]. cbn [existsb].
        rewrite IH. f_equal.
        destruct (set_levels_step level st0 m) as (_ & _ & S3 & _). cbn zeta in S3.
        rewrite S3. by destruct (names_logger m m'). }
      destruct (bool_decide (a ∈ lg_handlers (getLogger m st0))); cbn.
      * by destruct (existsb _ names).
      * reflexivity.
Qed.

(** X22. The first [setup_logger] for a name configures the logger of
    that name: its level is the level asked for, or the global level
    when none (or 0) is given; it does not propagate; it keeps the
    handlers it has, and gets one handler at that level, a new object,
    only when it has none.  No other logger changes, nor any handler
    there was, nor the global level.  From then on [setup_logger] for
    that name hands back the same logger and changes nothing, whatever
    level it is called with. *)
Theorem setup_logger_configures_once (name : string) (level : option Z)
    (st : State) :
  name ∉ _loggers st ->
  let st1 := fst (setup_logger name level st) in
  let before := getLogger name st in
  let logger := getLogger (snd (setup_logger name level st)) st1 in
  snd (setup_logger name level st) = name
  /\ lg_level logger = effective level st
  /\ lg_propagate logger = false
  /\ handlers_of logger st1
     = (if decide (lg_handlers before = []) then [{| h_level := effective level st |}]
        else handlers_of before st)
  /\ (lg_handlers before <> [] -> lg_handlers logger = lg_handlers before)
  /\ (lg_handlers before = [] ->
      exists a, lg_handlers logger = [a] /\ a ∉ addresses st)
  /\ (forall a, a ∈ addresses st -> heap st1 !! a = heap st !! a)
  /\ (forall other, names_logger name other = false ->
                    getLogger other st1 = getLogger other st)
  /\ _log_level st1 = _log_level st
  /\ _loggers st1 = {[name]} ∪ _loggers st
  /\ forall level', setup_logger name level' st1 = (st1, name).
Proof.
  intros Hnew. cbn zeta. unfold setup_logger.
  destruct (decide (name ∈ _loggers st)) as [Hin|_]; [contradiction|]. cbn [fst snd].
  pose proof (is_fresh (addresses st)) as Hfresh.
  set (a := fresh (addresses st)) in *.
  set (lv := effective level st).
  set (handlers := match lg_handlers (getLogger name st) with
                   | [] => [a]
                   | _ :: _ => lg_handlers (getLogger name st)
                   end).
  set (heap1 := match lg_handlers (getLogger name st) with
                | [] => <[a := {| h_level := lv |}]> (heap st)
                | _ :: _ => heap st
                end).
  set (st0 := {| root := root st; manager := manager st; heap := heap1;
                 _loggers := _loggers st; _log_level := _log_level st |}).
  set (logger := {| lg_level := lv; lg_handlers := handlers; lg_propagate := false |}).
  assert (forall n st2, getLogger n {| root := root st2; manager := manager st2;
                                       heap := heap st2;
                                       _loggers := {[name]} ∪ _loggers st2;
                                       _log_level := _log_level st2 |}
                        = getLogger n st2) as Hget by reflexivity.
  assert (forall n, getLogger n st0 = getLogger n st) as Hget0 by reflexivity.
  destruct (put_globals name logger st0) as (P1 & P2 & P3).
  assert (forall b, b ∈ addresses st -> heap1 !! b = heap st !! b) as Hkeep.
  { intros b Hb. subst heap1. destruct (lg_handlers (getLogger name st)); [|reflexivity].
    apply lookup_insert_ne. intros <-. contradiction. }
  split; [reflexivity|].
  rewrite !Hget, getLogger_put, names_logger_refl.
  split; [reflexivity|]. split; [reflexivity|]. split.
  { unfold handlers_of, handler_at. cbn [lg_handlers heap].
    rewrite (proj2 (proj2 (put_globals _ _ _))). cbn [heap st0].
    subst heap1.
    destruct (lg_handlers (getLogger name st)) as [|h hs] eqn:E.
    - rewrite decide_True by done. cbn. by rewrite lookup_insert_eq.
    - rewrite decide_False by done. reflexivity. }
  split.
  { intros Hne. cbn [lg_handlers]. subst handlers.
    by destruct (lg_handlers (getLogger name st)). }
  split.
  { intros Hnil. exists a. split; [|exact Hfresh]. cbn [lg_handlers]. subst handlers.
    by rewrite Hnil. }
  split.
  { intros b Hb. cbn [heap]. rewrite (proj2 (proj2 (put_globals _ _ _))).
    cbn [heap st0]. by apply Hkeep. }
  split.
  { intros other Hother. by rewrite Hget, getLogger_put, Hother, Hget0. }
  split; [cbn [_log_level]; by rewrite (proj1 (proj2 (put_globals _ _ _)))|].
  split; [cbn [_loggers]; by rewrite (proj1 (put_globals _ _ _))|].
  intros level'. cbn [_loggers].
  destruct (decide (name ∈ {[name]} ∪ _)) as [_|Hout].
  - reflexivity.
  - exfalso. apply Hout. apply elem_of_union. left. by apply elem_of_singleton.
Qed.

Lemma setup_logger_configures_once_witness :
  ("controller" ∉ _loggers logging_at_import)
  /\ (let st1 := fst (setup_logger "controller" None logging_at_import) in
      lg_level (getLogger "controller" st1) = INFO
      /\ lg_propagate (getLogger "controller" st1) = false
      /\ handlers_of (getLogger "controller" st1) st1 = [{| h_level := INFO |}]
      /\ setup_logger "controller" (Some 10%Z) st1 = (st1, "controller")).
Proof.
  assert ("controller" ∉ _loggers logging_at_import) as Hnew.
  { cbn. apply not_elem_of_empty. }
  split; [exact Hnew|].
  destruct (setup_logger_configures_once "controller" None logging_at_import Hnew)
    as (Hname & Hlevel & Hprop & Hhandlers & _ & _ & _ & _ & _ & _ & Hagain).
  cbn zeta in *. rewrite Hname in Hlevel, Hprop, Hhandlers.
  split; [exact Hlevel|]. split; [exact Hprop|]. split; [exact Hhandlers|].
  exact (Hagain (Some 10%Z)).
Defined.

(** X23. [set_log_level] sets the global level, the level of every
    logger that [setup_logger] has handed out and the level of every
    handler such a logger holds, also when another logger holds that
    handler too.  A logger that was not handed out keeps its own level,
    every logger keeps its handlers and its propagate flag, a handler
    that no handed-out logger holds keeps its level, and the loggers
    handed out stay the same. *)
Theorem set_log_level_reaches_registered (level : Z) (st : State) :
  let st' := set_log_level level st in
  _log_level st' = level
  /\ _loggers st' = _loggers st
  /\ (forall name,
        getLogger name st'
        = if registered name st then with_level level (getLogger name st)
          else getLogger name st)
  /\ (forall a,
        handler_at st' a
        = if attached a st then {| h_level := level |} else handler_at st a).
Proof.
  cbn zeta. unfold set_log_level, registered, attached.
  destruct (set_levels_loop level (elements (_loggers st))
              {| root := root st; manager := manager st; heap := heap st;
                 _loggers := _loggers st; _log_level := level |})
    as (H1 & H2 & H3 & H4).
  cbn zeta in *. split; [exact H2|]. split; [exact H1|]. split; [exact H3 | exact H4].
Qed.

(** The handler of "app" is also the handler of the root logger: after
    [set_log_level(10)] the root logger, which was not handed out, has
    its own level 30 as before, and its handler has gone from the level
    40 to the level 10. *)
Lemma set_log_level_shared_handler :
  let st' := set_log_level 10 logging_shared_handler in
  registered "" logging_shared_handler = false
  /\ handlers_of (getLogger "" logging_shared_handler) logging_shared_handler
     = [{| h_level := 40 |}]
  /\ getLogger "" st' = getLogger "" logging_shared_handler
  /\ lg_level (getLogger "" st') = 30%Z
  /\ handlers_of (getLogger "" st') st' = [{| h_level := 10 |}]
  /\ lg_level (getLogger "app" st') = 10%Z
  /\ handlers_of (getLogger "app" st') st' = [{| h_level := 10 |}].
Proof.
  cbn zeta. vm_compute. by repeat split.
Qed.

End LoggerMore.
